(** * ir-tools: the OIFITS ingestion and query layer

    A shallow embedding of [ir_tools/plotting/io.py] (read, sort, filter,
    _get_header_entry, _get_hdu, _get_column, get, get_labels), of
    [ir-tools/plotting/oifits.py] (Dataset and its iterator, Data,
    get_station_names, read_data) and of [delete_add_ins] of
    [ir-tools/instrument_prep/pionier.py], with the properties of the
    specification, and further properties read off the code, stated over
    it.

    Conventions.
    - Python exceptions are values of [exn]; a function that may raise
      returns [result].
    - Python [str] is [string]; field names, unit names and FITS keywords
      are ASCII, so [str.upper]/[str.lower] act on the letters a-z/A-Z only
      and [str.strip] removes ASCII white space.
    - float64 is Rocq's primitive binary64 [float].
    - astropy, numpy and pandas are not part of the repository: each call
      into them is modelled by a definition whose comment names the library
      function it stands for. *)

From Stdlib Require Import PrimFloat ZArith List String Ascii Bool Lia.
From Stdlib Require Import Permutation Sorted.
From stdpp Require Import gmap strings list.
Import ListNotations.

Set Warnings "-register-all".

#[local] Open Scope string_scope.
#[local] Open Scope Z_scope.
#[local] Open Scope list_scope.

(* ===================================================================== *)
(** ** Exceptions and the error monad *)
(* ===================================================================== *)

Inductive exn : Type :=
| KeyError
| IndexError
| AttributeError
| TypeError
| ValueError
| UnboundLocalError
| OSError
| MaskError.

Inductive result (A : Type) : Type :=
| Ok (a : A)
| Err (e : exn).
Arguments Ok {A} a.
Arguments Err {A} e.

#[export] Instance result_ret : MRet result := fun _ a => Ok a.
#[export] Instance result_bind : MBind result :=
  fun _ _ f m => match m with Ok a => f a | Err e => Err e end.

(** [[f(x) for x in l]] where [f] may raise: the first exception wins. *)
Fixpoint comprehension {A B : Type} (f : A -> result B) (l : list A) : result (list B) :=
  match l with
  | [] => Ok []
  | x :: l' => y ← f x; ys ← comprehension f l'; Ok (y :: ys)
  end.

(** A [for] loop threading a state. *)
Fixpoint for_each {A S : Type} (body : S -> A -> result S) (l : list A) (s : S) : result S :=
  match l with
  | [] => Ok s
  | x :: l' => s' ← body s x; for_each body l' s'
  end.

(** [l[i]] on a Python list, non-negative [i]. *)
Definition getitem {A : Type} (l : list A) (i : nat) : result A :=
  match nth_error l i with
  | Some x => Ok x
  | None => Err IndexError
  end.

(** [l[-1]]. *)
Definition getitem_last {A : Type} (l : list A) : result A :=
  match last l with
  | Some x => Ok x
  | None => Err IndexError
  end.

(* ===================================================================== *)
(** ** Strings *)
(* ===================================================================== *)

Definition upper_ascii (c : ascii) : ascii :=
  let n := N_of_ascii c in
  if ((97 <=? n) && (n <=? 122))%N then ascii_of_N (n - 32) else c.

Definition lower_ascii (c : ascii) : ascii :=
  let n := N_of_ascii c in
  if ((65 <=? n) && (n <=? 90))%N then ascii_of_N (n + 32) else c.

Fixpoint str_map (f : ascii -> ascii) (s : string) : string :=
  match s with
  | EmptyString => EmptyString
  | String c s' => String (f c) (str_map f s')
  end.

(** [s.upper()], [s.lower()]. *)
Definition upper (s : string) : string := str_map upper_ascii s.
Definition lower (s : string) : string := str_map lower_ascii s.

(** [c.isspace()] on the characters of ASCII text: tab, line feed, vertical
    tab, form feed, carriage return, the four separators 28 to 31 and the
    blank. *)
Definition isspace (c : ascii) : bool :=
  let n := N_of_ascii c in
  (((9 <=? n) && (n <=? 13)) || ((28 <=? n) && (n <=? 32)))%N.

(** [s.lstrip()], [s.rstrip()] and [s.strip()]. *)
Fixpoint lstrip (s : string) : string :=
  match s with
  | EmptyString => EmptyString
  | String c s' => if isspace c then lstrip s' else s
  end.

Fixpoint rstrip (s : string) : string :=
  match s with
  | EmptyString => EmptyString
  | String c s' =>
      match rstrip s' with
      | EmptyString => if isspace c then EmptyString else String c EmptyString
      | r => String c r
      end
  end.

Definition strip (s : string) : string := rstrip (lstrip s).

(** [s.split(sep)[0]] for a one-character separator: the part before the
    first [sep], the whole of [s] when there is none. *)
Fixpoint split_head (sep : ascii) (s : string) : string :=
  match s with
  | EmptyString => EmptyString
  | String c s' => if Ascii.eqb c sep then EmptyString else String c (split_head sep s')
  end.

(** [sub in s]. *)
Fixpoint contains (sub s : string) : bool :=
  String.prefix sub s ||
  match s with
  | EmptyString => false
  | String _ s' => contains sub s'
  end.

(** [sep.join(parts)]. *)
Fixpoint join (sep : string) (parts : list string) : string :=
  match parts with
  | [] => ""
  | [p] => p
  | p :: ps => p ++ sep ++ join sep ps
  end.

(** [sep.join(s)] over the characters of a string [s]. *)
Definition join_chars (sep : string) (s : string) : string :=
  join sep (map (fun c => String c EmptyString) (list_ascii_of_string s)).

(* ===================================================================== *)
(** ** Python values, FITS headers, arrays and tables *)
(* ===================================================================== *)

(** The values a header card or a condition may hold. *)
Inductive pyval : Type :=
| PNone
| PBool (b : bool)
| PInt (z : Z)
| PFloat (f : float)
| PStr (s : string).

(** [a == b] on such values (bool is an int in Python; a NaN equals nothing). *)
Definition py_eqb (a b : pyval) : bool :=
  match a, b with
  | PNone, PNone => true
  | PStr s, PStr t => String.eqb s t
  | PInt x, PInt y => Z.eqb x y
  | PBool x, PBool y => Bool.eqb x y
  | PBool x, PInt y | PInt y, PBool x => Z.eqb (if x then 1 else 0) y
  | PFloat x, PFloat y => PrimFloat.eqb x y
  | _, _ => false
  end.

(** astropy [Header]: the cards in file order, keywords stored upper-case. *)
Definition Header : Type := list (string * pyval).

(** [header[key]] for the keyword of a card that holds a value: keywords are
    matched case-insensitively and the first card with the keyword is the one
    read ([Header._cardindex]). The keys this development looks up are such
    keywords; what astropy does besides, stripping blanks and a leading
    "HIERARCH " from a key and answering a commentary keyword or a wildcard
    with a collection of cards, is not part of this model. *)
Fixpoint header_getitem (h : Header) (key : string) : result pyval :=
  match h with
  | [] => Err KeyError
  | (k, v) :: h' => if String.eqb k (upper key) then Ok v else header_getitem h' key
  end.

(** [header.get(key, default)]. *)
Definition header_get (h : Header) (key : string) (default : pyval) : pyval :=
  match header_getitem h key with
  | Ok v => v
  | Err _ => default
  end.

(** Elements of numpy arrays ([None] can sit in an object array). *)
Inductive scalar : Type :=
| SFloat (f : float)
| SInt (z : Z)
| SBool (b : bool)
| SStr (s : string)
| SNone.

(** A numpy array, seen as its nesting: a 0-d item or a sequence of
    sub-arrays along the first axis. *)
Inductive ndarray : Type :=
| Item (s : scalar)
| Arr (l : list ndarray).

(** [a.shape] (an empty axis ends the shape, its trailing axes are not kept). *)
Fixpoint shape (a : ndarray) : list nat :=
  match a with
  | Item _ => []
  | Arr l => length l :: match l with [] => [] | x :: _ => shape x end
  end.

(** [a.size]. *)
Fixpoint size (a : ndarray) : nat :=
  match a with
  | Item _ => 1
  | Arr l => list_sum (map size l)
  end.

(** [a.flat] as a list. *)
Fixpoint flat (a : ndarray) : list scalar :=
  match a with
  | Item s => [s]
  | Arr l => concat (map flat l)
  end.

(** [len(a)]: the length of the first axis. *)
Definition len (a : ndarray) : result nat :=
  match a with
  | Item _ => Err TypeError
  | Arr l => Ok (length l)
  end.

(** Elementwise application of a function. *)
Fixpoint nd_map (f : scalar -> scalar) (a : ndarray) : ndarray :=
  match a with
  | Item s => Item (f s)
  | Arr l => Arr (map (nd_map f) l)
  end.

Fixpoint nd_forallb (p : scalar -> bool) (a : ndarray) : bool :=
  match a with
  | Item s => p s
  | Arr l => forallb (nd_forallb p) l
  end.

(** [np.full(shape, v)]. *)
Fixpoint full (s : list nat) (v : scalar) : ndarray :=
  match s with
  | [] => Item v
  | n :: s' => Arr (repeat (full s' v) n)
  end.

(** [np.reshape(buf, s)] of a flat buffer. *)
Fixpoint unflatten (s : list nat) (buf : list scalar) : ndarray :=
  match s with
  | [] => match buf with x :: _ => Item x | [] => Arr [] end
  | n :: s' =>
      let chunk := fold_right Nat.mul 1%nat s' in
      Arr (map (fun k => unflatten s' (firstn chunk (skipn (k * chunk) buf))) (seq 0 n))
  end.

(** astropy [FITS_rec]: a record array, one record per table row, each
    record holding one cell per column. *)
Record FITS_rec : Type := {
  names : list string;
  rows : list (list ndarray);
}.

(** One header-data unit of a file as OIFITS has them: a unit without data
    (the primary unit) or a binary table. Image data is not part of this
    model. *)
Record HDU : Type := {
  hdu_name : string;
  hdu_ver : Z;
  hdu_header : Header;
  hdu_data : option FITS_rec;
}.

(** astropy [HDUList]. *)
Definition HDUList : Type := list HDU.

(** [hdul.index_of((name, ver))]: the key and the names of the units are
    compared stripped and upper-cased ([_key.strip().upper()],
    [hdu.name.strip().upper()]); the unit found is the first whose name
    matches and whose EXTVER is [ver] when one is asked for; "PRIMARY" also
    names the first unit. *)
Fixpoint index_of_from (idx : nat) (hdul : HDUList) (key : string) (ver : option Z)
  : result nat :=
  match hdul with
  | [] => Err KeyError
  | hdu :: rest =>
      let name_ok :=
        String.eqb (upper (strip (hdu_name hdu))) (upper (strip key))
        || (String.eqb (upper (strip key)) "PRIMARY" && Nat.eqb idx 0) in
      let ver_ok := match ver with None => true | Some v => Z.eqb v (hdu_ver hdu) end in
      if name_ok && ver_ok then Ok idx else index_of_from (S idx) rest key ver
  end.

Definition index_of (hdul : HDUList) (key : string) (ver : option Z) : result nat :=
  index_of_from 0 hdul key ver.

(** [hdul[name, ver]] and [hdul[name]] (which is [hdul[name, None]]). *)
Definition hdul_getitem (hdul : HDUList) (key : string) (ver : option Z) : result HDU :=
  i ← index_of hdul key ver; getitem hdul i.

(** [name in hdul]. *)
Definition hdul_contains (hdul : HDUList) (key : string) : bool :=
  match index_of hdul key None with
  | Ok _ => true
  | Err _ => false
  end.

(** [hdu.columns.names]; a unit without a table has no [columns]. *)
Definition columns_names (hdu : HDU) : result (list string) :=
  match hdu_data hdu with
  | Some t => Ok (names t)
  | None => Err AttributeError
  end.

Fixpoint list_index (key : string) (l : list string) : option nat :=
  match l with
  | [] => None
  | x :: l' => if String.eqb x key then Some 0%nat else S <$> list_index key l'
  end.

(** astropy [_get_index(names, key)]: an exact match first, then a case-blind
    one, which must be unique. *)
Definition _get_index (nms : list string) (key : string) : result nat :=
  match list_index key nms with
  | Some i => Ok i
  | None =>
      let lowered := map lower nms in
      match count_occ string_dec lowered (lower key) with
      | 1%nat => match list_index (lower key) lowered with
                 | Some i => Ok i
                 | None => Err KeyError
                 end
      | _ => Err KeyError
      end
  end.

(** [rec[key]]: the column as an array with one entry per row. *)
Definition rec_field (t : FITS_rec) (key : string) : result ndarray :=
  i ← _get_index (names t) key;
  Ok (Arr (map (fun r => nth i r (Arr [])) (rows t))).

(** [hdu.data[key]]; subscripting the [None] data of a unit without a table
    is a TypeError. *)
Definition data_field (hdu : HDU) (key : string) : result ndarray :=
  match hdu_data hdu with
  | Some t => rec_field t key
  | None => Err TypeError
  end.

(** Truth value of an array element, as [np.array(mask, dtype=bool)] takes it. *)
Definition truthy (s : scalar) : scalar :=
  SBool match s with
        | SBool b => b
        | SInt z => negb (Z.eqb z 0)
        | SFloat f => negb (PrimFloat.eqb f 0%float)
        | SStr t => negb (String.eqb t "")
        | SNone => false
        end.

Definition shape_eqb (s t : list nat) : bool :=
  bool_decide (s = t).

(** numpy [MaskedArray]. *)
Record MaskedArray : Type := {
  ma_data : ndarray;
  ma_mask : ndarray;
}.

(** [np.ma.masked_array(data, mask=mask)]: the mask is taken as booleans and
    brought to the shape of the data, or refused. *)
Definition masked_array (data mask : ndarray) : result MaskedArray :=
  let m := nd_map truthy mask in
  if shape_eqb (shape m) (shape data) then Ok {| ma_data := data; ma_mask := m |}
  else if Nat.eqb (size m) 1 then
    Ok {| ma_data := data; ma_mask := full (shape data) (hd (SBool false) (flat m)) |}
  else if Nat.eqb (size m) (size data) then
    Ok {| ma_data := data; ma_mask := unflatten (shape data) (flat m) |}
  else Err MaskError.

(** [np.isnan(x) | np.isinf(x)] on one element. *)
Definition invalid (s : scalar) : scalar :=
  SBool match s with
        | SFloat f => PrimFloat.is_nan f || PrimFloat.is_infinity f
        | _ => false
        end.

(** [np.ma.masked_invalid(a)]. *)
Definition masked_invalid (a : ndarray) : MaskedArray :=
  {| ma_data := a; ma_mask := nd_map invalid a |}.

(** Every element of the array is masked. *)
Definition fully_masked (m : MaskedArray) : bool :=
  nd_forallb (fun s => match s with SBool true => true | _ => false end) (ma_mask m).

(* ===================================================================== *)
(** ** ir_tools/plotting/io.py *)
(* ===================================================================== *)

Module io.

(** [KEY_TO_ATTRIBUTE]. *)
Definition KEY_TO_ATTRIBUTE : gmap string string :=
  <["instrument" := "instrume"]> (<["date" := "date-obs"]> ∅).

(** [d.get(key, default)] on a dict. *)
Definition dict_get (d : gmap string string) (key default : string) : string :=
  match d !! key with
  | Some v => v
  | None => default
  end.

(** [content.split("T")], defined on [str] only. *)
Definition split_T_head (content : pyval) : result pyval :=
  match content with
  | PStr s => Ok (PStr (split_head "T"%char s))
  | _ => Err AttributeError
  end.

(** [_get_header_entry(hdul, key)]. *)
Definition _get_header_entry (hdul : HDUList) (key : string) : result pyval :=
  primary ← getitem hdul 0;
  let content :=
    header_get (hdu_header primary) (upper (dict_get KEY_TO_ATTRIBUTE key key)) (PStr "") in
  if String.eqb key "date" then split_T_head content else Ok content.

(** [_get_hdu(hdul, name, index)]. *)
Definition _get_hdu (hdul : HDUList) (name : string) (index : option Z) : option HDU :=
  match hdul_getitem hdul name index with
  | Ok hdu => Some hdu
  | Err _ => None
  end.

(** What [_get_column] and [get] may return. *)
Inductive pyobject : Type :=
| ObjNone
| ObjValue (v : pyval)
| ObjArray (a : ndarray)
| ObjMasked (m : MaskedArray).

(** [_get_column(hdul, card, column, index, masked)]: a missing unit
    (attribute of [None]) or a missing column is caught and gives [None]. *)
Definition _get_column (hdul : HDUList) (card column : string) (index : option Z)
  (masked : bool) : result pyobject :=
  match _get_hdu hdul card index with
  | None => Ok ObjNone
  | Some hdu =>
      match hdu_data hdu with
      | None => Err TypeError
      | Some t =>
          match rec_field t column with
          | Err _ => Ok ObjNone
          | Ok values =>
              if masked then
                match rec_field t "flag" with
                | Err _ => Ok ObjNone
                | Ok flag => m ← masked_array values flag; Ok (ObjMasked m)
                end
              else Ok (ObjArray values)
          end
      end
  end.

(** [get(hdul, key)]: the body is the single statement [...], so the call
    evaluates nothing and returns [None]. *)
Definition get (hdul : HDUList) (key : string) : pyobject := ObjNone.

(** *** read *)

(** Python objects have identity: an [HDUList] lives in the heap under a
    location, and two names alias when they hold the same location. *)
Abbreviation loc := nat (only parsing).
Abbreviation heap := (gmap nat HDUList) (only parsing).

(** One element of the argument of [read]. *)
Inductive source : Type :=
| SPath (p : string)
| SHandle (l : loc).

(** The argument of [read]: one path or handle, or a list of them. *)
Inductive read_arg : Type :=
| RSingle (s : source)
| RMany (l : list source).

(** What the [for] loop of [read] iterates over. [HDUList] subclasses
    [list], so a bare handle passes the [isinstance(..., list)] test, is not
    wrapped, and the loop runs over its units. *)
Inductive loop_item : Type :=
| IPath (p : string)
| IHandle (l : loc)
| IUnit (h : HDU).

Definition item_of_source (s : source) : loop_item :=
  match s with
  | SPath p => IPath p
  | SHandle l => IHandle l
  end.

Definition loop_items (σ : heap) (a : read_arg) : list loop_item :=
  match a with
  | RSingle (SPath p) => [IPath p]
  | RSingle (SHandle l) => IUnit <$> default [] (σ !! l)
  | RMany l => item_of_source <$> l
  end.

(** [copy.deepcopy(hdul)]: a new object with the same contents. *)
Definition deepcopy (σ : heap) (content : HDUList) : loc * heap :=
  let l := fresh (dom σ) in (l, <[l := content]> σ).

(** One turn of the loop of [read]; [fits.open] of a path that is no FITS
    file, or of an object that is no path, raises OSError. *)
Definition read_item (fs : string -> option HDUList) (st : list loc * heap)
  (fits_file : loop_item) : result (list loc * heap) :=
  let '(hduls, σ) := st in
  match fits_file with
  | IHandle l => Ok (hduls ++ [l], σ)
  | IPath p =>
      match fs p with
      | Some content => let '(l, σ') := deepcopy σ content in Ok (hduls ++ [l], σ')
      | None => Err OSError
      end
  | IUnit _ => Err OSError
  end.

(** [read(files_or_hduls)], over the file system [fs] and the heap [σ]. *)
Definition read (fs : string -> option HDUList) (files_or_hduls : read_arg) (σ : heap)
  : result (list loc * heap) :=
  for_each (read_item fs) (loop_items σ files_or_hduls) ([], σ).

(** *** pandas *)

(** A Python dict with string keys, in insertion order. *)
Definition dict (V : Type) : Type := list (string * V).

(** [d[key] = v]: a present key keeps its place and takes the new value. *)
Fixpoint dict_set {V : Type} (d : dict V) (key : string) (v : V) : dict V :=
  match d with
  | [] => [(key, v)]
  | (k, w) :: d' => if String.eqb k key then (k, v) :: d' else (k, w) :: dict_set d' key v
  end.

Fixpoint dict_lookup {V : Type} (d : dict V) (key : string) : option V :=
  match d with
  | [] => None
  | (k, w) :: d' => if String.eqb k key then Some w else dict_lookup d' key
  end.

(** [{**d, **e}]. *)
Definition dict_update {V : Type} (d e : dict V) : dict V :=
  fold_left (fun acc kv => dict_set acc kv.1 kv.2) e d.

(** [range(n)] as a column of ints. *)
Definition range (n : nat) : list pyval := (fun i => PInt (Z.of_nat i)) <$> seq 0 n.

(** pandas [DataFrame]: named columns of one length. *)
Definition DataFrame : Type := dict (list pyval).

(** [pd.DataFrame(data)]: columns of different lengths are refused. *)
Definition pd_DataFrame (data : dict (list pyval)) : result DataFrame :=
  match data with
  | [] => Ok []
  | (_, c) :: rest =>
      if forallb (fun kc => Nat.eqb (length kc.2) (length c)) rest then Ok data
      else Err ValueError
  end.

(** [df[key]]. *)
Definition df_getitem (df : DataFrame) (key : string) : result (list pyval) :=
  match dict_lookup df key with
  | Some c => Ok c
  | None => Err KeyError
  end.

Fixpoint select {A : Type} (l : list A) (mask : list bool) : list A :=
  match l, mask with
  | x :: l', b :: mask' => if b then x :: select l' mask' else select l' mask'
  | _, _ => []
  end.

(** [df[mask]] for a boolean column [mask]. *)
Definition df_select (df : DataFrame) (mask : list bool) : DataFrame :=
  (fun kc => (kc.1, select kc.2 mask)) <$> df.

(** [df.take(indexer)]. *)
Definition df_take (df : DataFrame) (indexer : list nat) : DataFrame :=
  (fun kc => (kc.1, (fun i => nth i kc.2 PNone) <$> indexer)) <$> df.

(** [hduls[i]] for an entry [i] of the index column. *)
Definition getitem_py {A : Type} (l : list A) (i : pyval) : result A :=
  match i with
  | PInt z => if (0 <=? z) then getitem l (Z.to_nat z) else getitem (rev l) (Z.to_nat (- z - 1))
  | PBool b => getitem l (if b then 1%nat else 0%nat)
  | _ => Err TypeError
  end.

(** The argument [by] of [sort]. *)
Inductive str_or_list : Type :=
| Str (s : string)
| Strs (l : list string).

Section sorting.

(** pandas' [nargsort(column, kind="quicksort")], the sorter of
    [sort_values] on one column, and [lexsort_indexer(columns)], its sorter
    on several: both give the positions of the rows in sorted order. *)
Variable nargsort : list pyval -> result (list nat).
Variable lexsort_indexer : list (list pyval) -> result (list nat).

(** [df.sort_values(by=by)] with the default [kind] ([by] is written [by_]). *)
Definition sort_values (df : DataFrame) (by_ : list string) : result DataFrame :=
  keys ← comprehension (df_getitem df) by_;
  match keys with
  | [] => Ok df
  | [k] => indexer ← nargsort k; Ok (df_take df indexer)
  | _ => indexer ← lexsort_indexer keys; Ok (df_take df indexer)
  end.

(** [sort(hduls, by)]. *)
Definition sort (hduls : list HDUList) (by_ : str_or_list) : result (list HDUList) :=
  let by_ := match by_ with Str s => [s] | Strs l => l end in
  columns ←
    comprehension
      (fun key => c ← comprehension (fun hdul => _get_header_entry hdul key) hduls;
                  Ok (key, c))
      by_;
  let data := dict_update [("index", range (length hduls))] (dict_update [] columns) in
  df ← pd_DataFrame data;
  sorted ← sort_values df by_;
  index ← df_getitem sorted "index";
  comprehension (getitem_py hduls) index.

End sorting.

(** *** filter *)

(** Reading a local variable: one that no statement has assigned yet is
    unbound. *)
Definition load_fast {A : Type} (local : option A) : result A :=
  match local with
  | Some v => Ok v
  | None => Err UnboundLocalError
  end.

(** [filter(hduls, conditions)]. The name [key] is a local of the function
    (the [for key, value in conditions.items()] statement assigns it), and the
    dict display [{key: [...]}] evaluates its key before its value; the [key]
    of the list comprehension is a variable of the comprehension alone. *)
Definition filter (hduls : list HDUList) (conditions : dict pyval)
  : result (list HDUList) :=
  let key : option string := None in
  k ← load_fast key;
  entries ←
    comprehension (fun kh => _get_header_entry kh.2 kh.1)
      (key ← conditions.*1; hdul ← hduls; [(key, hdul)]);
  df ← pd_DataFrame (dict_update [("index", range (length hduls))] [(k, entries)]);
  df ←
    for_each
      (fun df kv => c ← df_getitem df kv.1; Ok (df_select df (py_eqb kv.2 <$> c)))
      conditions df;
  index ← df_getitem df "index";
  comprehension (getitem_py hduls) index.

(** [get_labels(hduls)]. Characters are single bytes here, so the labels are
    those of [chr] as long as [ord('A') + i] stays below 256. *)
Definition get_labels (hduls : list HDUList) : list string :=
  (fun i => String (ascii_of_nat (nat_of_ascii "A"%char + i)) EmptyString)
    <$> seq 0 (length hduls).

End io.

(* ===================================================================== *)
(** ** numpy's argsort, kind "quicksort"

    pandas 2 keeps a column of Python strings as an object array, and
    [nargsort] sorts it with [ndarray.argsort(kind="quicksort")], numpy's
    introsort over an index array (npysort/quicksort.cpp, [npy_aquicksort]):
    median-of-three partitioning while a range holds more than 17 entries,
    insertion sort below that, heapsort once the depth limit is used up. *)
(* ===================================================================== *)

Module npysort.

#[local] Open Scope nat_scope.

Section aquicksort.

Context {K : Type}.
(** [cmp(a, b) < 0] on two keys, and the key array [v]. *)
Variable lt : K -> K -> bool.
Variable v : list K.

(** [less(v[a], v[b])]. *)
Definition less (a b : nat) : bool :=
  match v !! a, v !! b with
  | Some x, Some y => lt x y
  | _, _ => false
  end.

(** Reading the entry at [p], and [INTP_SWAP] of the entries at [p] and [q],
    on the index array [t]. *)
Definition rd (t : list nat) (p : nat) : nat := nth p t 0%nat.
Definition swap (t : list nat) (p q : nat) : list nat :=
  <[p := rd t q]> (<[q := rd t p]> t).

Definition SMALL_QUICKSORT : nat := 16.

(** [do ++pi; while (less(v[tosort[pi]], vp));] *)
Fixpoint scan_up (fuel : nat) (t : list nat) (vp pi : nat) : nat :=
  match fuel with
  | O => pi
  | S f => let pi := S pi in if less (rd t pi) vp then scan_up f t vp pi else pi
  end.

(** [do --pj; while (less(vp, v[tosort[pj]]));] *)
Fixpoint scan_down (fuel : nat) (t : list nat) (vp pj : nat) : nat :=
  match fuel with
  | O => pj
  | S f => let pj := pred pj in if less vp (rd t pj) then scan_down f t vp pj else pj
  end.

(** The [for (;;)] loop of the partition; gives the array and [pi]. *)
Fixpoint exchange (fuel : nat) (t : list nat) (vp pi pj : nat) : list nat * nat :=
  match fuel with
  | O => (t, pi)
  | S f =>
      let pi := scan_up (length t) t vp pi in
      let pj := scan_down (length t) t vp pj in
      if (pj <=? pi)%nat then (t, pi) else exchange f (swap t pi pj) vp pi pj
  end.

(** One partition of [pl..pr]: the median of three goes to [pr - 1] as the
    pivot, the range is exchanged around it, the pivot lands on [pi]. *)
Definition partition (t : list nat) (pl pr : nat) : list nat * nat :=
  let pm := (pl + Nat.shiftr (pr - pl) 1)%nat in
  let t := if less (rd t pm) (rd t pl) then swap t pm pl else t in
  let t := if less (rd t pr) (rd t pm) then swap t pr pm else t in
  let t := if less (rd t pm) (rd t pl) then swap t pm pl else t in
  let vp := rd t pm in
  let t := swap t pm (pr - 1) in
  let '(t, pi) := exchange (length t) t vp pl (pr - 1) in
  (swap t pi (pr - 1), pi).

(** A pending range with the depth left for it. *)
Definition frame : Type := nat * nat * Z.

(** [while ((pr - pl) > SMALL_QUICKSORT)]: partition, push the larger
    part, go on with the smaller one. *)
Fixpoint split (fuel : nat) (t : list nat) (pl pr : nat) (stack : list frame) (cdepth : Z)
  : list nat * nat * nat * list frame * Z :=
  match fuel with
  | O => (t, pl, pr, stack, cdepth)
  | S f =>
      if (SMALL_QUICKSORT <? pr - pl)%nat then
        let '(t, pi) := partition t pl pr in
        let cdepth := (cdepth - 1)%Z in
        if (pi - pl <? pr - pi)%nat
        then split f t pl (pi - 1) ((S pi, pr, cdepth) :: stack) cdepth
        else split f t (S pi) pr ((pl, pi - 1, cdepth) :: stack) cdepth
      else (t, pl, pr, stack, cdepth)
  end.

(** The inner loop of the insertion: while [pj > pl] and [vi] is less than
    the entry at [pk], that entry moves up to [pj] and both step down; then
    [vi] is stored at [pj]. [pk] is [pj - 1] throughout. *)
Fixpoint shift (fuel : nat) (t : list nat) (pl vi pj : nat) : list nat :=
  match fuel with
  | O => <[pj := vi]> t
  | S f =>
      if (pl <? pj)%nat && less vi (rd t (pj - 1))
      then shift f (<[pj := rd t (pj - 1)]> t) pl vi (pj - 1)
      else <[pj := vi]> t
  end.

(** [for (pi = pl + 1; pi <= pr; ++pi)]: insertion sort of [pl..pr]. *)
Definition insertion (t : list nat) (pl pr : nat) : list nat :=
  fold_left (fun t pi => shift (length t) t pl (rd t pi) pi) (seq (S pl) (pr - pl)) t.

(** The sift-down loop of heapsort on the 1-based view [a = tosort - 1] of
    the range starting at [base]. *)
Definition hrd (t : list nat) (base k : nat) : nat := rd t (base + k - 1).
Definition hwr (t : list nat) (base k x : nat) : list nat := <[(base + k - 1)%nat := x]> t.

Fixpoint sift (fuel : nat) (t : list nat) (base n tmp i j : nat) : list nat :=
  match fuel with
  | O => hwr t base i tmp
  | S f =>
      if (j <=? n)%nat then
        let j := if (j <? n)%nat && less (hrd t base j) (hrd t base (S j)) then S j else j in
        if less tmp (hrd t base j)
        then sift f (hwr t base i (hrd t base j)) base n tmp j (j + j)
        else hwr t base i tmp
      else hwr t base i tmp
  end.

(** [npy_aheapsort] on the [n] entries from [base]. *)
Definition aheapsort (t : list nat) (base n : nat) : list nat :=
  let t :=
    fold_left (fun t l => sift n t base n (hrd t base l) l (2 * l))
      (rev (seq 1 (Nat.shiftr n 1))) t in
  fold_left
    (fun t n =>
       let tmp := hrd t base n in
       let t := hwr t base n (hrd t base 1) in
       sift n t base (n - 1) tmp 1 2)
    (rev (seq 2 (n - 1))) t.

(** The outer [while (1)] with its stack of pending ranges. *)
Fixpoint run (fuel : nat) (t : list nat) (pl pr : nat) (stack : list frame) (cdepth : Z)
  : list nat :=
  match fuel with
  | O => t
  | S f =>
      let '(t, stack) :=
        if (cdepth <? 0)%Z then (aheapsort t pl (pr - pl + 1), stack)
        else
          let '(t, pl, pr, stack, _) := split (length t) t pl pr stack cdepth in
          (insertion t pl pr, stack)
      in
      match stack with
      | [] => t
      | (pl, pr, cdepth) :: stack => run f t pl pr stack cdepth
      end
  end.

(** [npy_aquicksort(v, tosort, num)] from [tosort = arange(num)]. *)
Definition aquicksort : list nat :=
  let num := length v in
  run (S num) (seq 0 num) 0 (num - 1) [] (2 * Z.log2 (Z.of_nat num))%Z.

End aquicksort.

(** Python's [<] on two strings: by code point, first difference decides. *)
Definition str_lt (s t : string) : bool := String.ltb s t.

End npysort.

(* ===================================================================== *)
(** ** pandas' sorters

    [DataFrame.sort_values] sorts on one column with [nargsort], which hands
    the column to numpy's argsort of the requested kind (by default
    "quicksort"), and on several columns with [lexsort_indexer], a stable
    sort by the tuple of keys. *)
(* ===================================================================== *)

Module pandas.

#[local] Open Scope nat_scope.

Definition as_str (x : pyval) : option string :=
  match x with PStr s => Some s | _ => None end.

Definition as_int (x : pyval) : option Z :=
  match x with PInt z => Some z | _ => None end.

(** [nargsort(column, kind="quicksort")]. The model is for the object
    columns [sort] builds from header entries that are strings, which numpy
    sorts with its generic quicksort under Python's [<]; a column of ints is
    taken through the same routine, and a column that mixes the two cannot be
    compared. Columns of floats or bools are not part of this model. *)
Definition nargsort (column : list pyval) : result (list nat) :=
  match mapM as_str column, mapM as_int column with
  | Some keys, _ => Ok (npysort.aquicksort npysort.str_lt keys)
  | None, Some keys => Ok (npysort.aquicksort Z.ltb keys)
  | None, None => Err TypeError
  end.

(** The order of two rows on one column. *)
Definition column_lt (column : list pyval) : result (nat -> nat -> bool) :=
  match mapM as_str column, mapM as_int column with
  | Some keys, _ => Ok (fun i j => npysort.str_lt (nth i keys "") (nth j keys ""))
  | None, Some keys => Ok (fun i j => Z.ltb (nth i keys 0%Z) (nth j keys 0%Z))
  | None, None => Err TypeError
  end.

(** The order of two rows on the tuple of their keys. *)
Fixpoint tuple_lt (lts : list (nat -> nat -> bool)) (i j : nat) : bool :=
  match lts with
  | [] => false
  | lt :: rest => lt i j || (negb (lt j i) && tuple_lt rest i j)
  end.

(** Insertion behind the rows that are not greater: a stable sort. *)
Fixpoint insert_stable (lt : nat -> nat -> bool) (i : nat) (sorted : list nat) : list nat :=
  match sorted with
  | [] => [i]
  | j :: rest => if lt i j then i :: j :: rest else j :: insert_stable lt i rest
  end.

Definition stable_argsort (lt : nat -> nat -> bool) (n : nat) : list nat :=
  fold_left (fun acc i => insert_stable lt i acc) (seq 0 n) [].

(** [lexsort_indexer(keys)]. *)
Definition lexsort_indexer (keys : list (list pyval)) : result (list nat) :=
  lts ← comprehension column_lt keys;
  Ok (stable_argsort (tuple_lt lts) (length (hd [] keys))).

End pandas.

(* ===================================================================== *)
(** ** ir-tools/plotting/oifits.py *)
(* ===================================================================== *)

(** A coordinate entry of a Dataset: the empty Python list [[]] that flux
    records carry, or an array. *)
Inductive coord : Type :=
| NoCoord
| Coord (a : ndarray).

(** [class Dataset]. *)
Module Dataset.
Record t : Type := mk {
  header : list Header;
  val : list MaskedArray;
  err : list MaskedArray;
  x : list coord;
  y : list coord;
  name : list (list string);
}.
(** [field(default_factory=list)] for every field. *)
Definition empty : t := mk [] [] [] [] [] [].

(** What [__iter__] yields: [header[i], val[i], err[i], x[i], y[i], name[i]]. *)
Definition item : Type :=
  Header * MaskedArray * MaskedArray * coord * coord * list string.

(** How a generator ends: it returns, or an exception leaves it. *)
Inductive ending : Type :=
| StopIteration
| Raised (e : exn).

(** The tuple built in one turn of [__iter__]. *)
Definition item_at (ds : t) (i : nat) : result item :=
  h ← getitem (header ds) i;
  v ← getitem (val ds) i;
  e ← getitem (err ds) i;
  xc ← getitem (x ds) i;
  yc ← getitem (y ds) i;
  n ← getitem (name ds) i;
  Ok (h, v, e, xc, yc, n).

(** The generator run over the indices [indices]: the items yielded, and
    how it ends. *)
Fixpoint iter_over (ds : t) (indices : list nat) : list item * ending :=
  match indices with
  | [] => ([], StopIteration)
  | i :: rest =>
      match item_at ds i with
      | Ok it => let '(items, e) := iter_over ds rest in (it :: items, e)
      | Err e => ([], Raised e)
      end
  end.

(** [__iter__]: [for i in range(len(self.header)): yield ...], consumed to
    its end. *)
Definition __iter__ (ds : t) : list item * ending :=
  iter_over ds (seq 0 (length (header ds))).
End Dataset.

(** [class Data]. *)
Module Data.
Record t : Type := mk {
  hduls : list HDUList;
  header : list Header;
  wl : list ndarray;
  array : list HDU;
  flux : Dataset.t;
  vis2 : Dataset.t;
  t3 : Dataset.t;
  vis : Dataset.t;
  visphi : Dataset.t;
}.
Definition empty : t :=
  mk [] [] [] [] Dataset.empty Dataset.empty Dataset.empty Dataset.empty Dataset.empty.
(** [__len__]. *)
Definition __len__ (d : t) : nat := length (hduls d).
End Data.

Module oifits.

(** The two columns of the station table, as OIFITS types them: STA_INDEX a
    1-d array of ints, STA_NAME a 1-d array of strings. Tables typed
    otherwise are outside this model and are refused. *)
Definition int_items (a : ndarray) : result (list Z) :=
  match a with
  | Item _ => Err TypeError
  | Arr l => comprehension (fun e => match e with Item (SInt z) => Ok z | _ => Err TypeError end) l
  end.

Definition str_items (a : ndarray) : result (list string) :=
  match a with
  | Item _ => Err TypeError
  | Arr l => comprehension (fun e => match e with Item (SStr s) => Ok s | _ => Err TypeError end) l
  end.

(** [dict(zip(keys, values))]: pairs up to the shorter length, a key met
    again takes the later value. *)
Definition dict_zip (keys : list Z) (values : list string) : gmap Z string :=
  fold_left (fun m kv => <[kv.1 := kv.2]> m) (zip keys values) ∅.

(** [lambda x: sta_to_tel.get(x)], on integer station indices: [None] for an
    index that is no key of the dict. *)
Definition sta_get (sta_to_tel : gmap Z string) (x : scalar) : scalar :=
  match x with
  | SInt z => match sta_to_tel !! z with Some s => SStr s | None => SNone end
  | _ => SNone
  end.

(** [str(x)] for the elements [sta_get] gives. *)
Definition to_str (x : scalar) : scalar :=
  match x with
  | SNone => SStr "None"
  | _ => x
  end.

(** [np.vectorize(f)(a)] without [otypes]: an empty input is refused; the
    output type is that of [f] on the first element, so the results are kept
    as objects when that is [None] and are all cast to [str] when it is a
    [str]. *)
Definition vectorize (f : scalar -> scalar) (a : ndarray) : result ndarray :=
  match flat a with
  | [] => Err ValueError
  | first :: _ =>
      match f first with
      | SNone => Ok (nd_map f a)
      | _ => Ok (nd_map to_str (nd_map f a))
      end
  end.

(** ["-".join(arr)] for one entry [arr] of the vectorized array: a row of
    strings, or a single string (joined character by character); [None] is
    neither. *)
Definition join_row (arr : ndarray) : result string :=
  match arr with
  | Item (SStr s) => Ok (join_chars "-" s)
  | Item _ => Err TypeError
  | Arr l =>
      parts ← comprehension (fun e => match e with Item (SStr s) => Ok s | _ => Err TypeError end) l;
      Ok (join "-" parts)
  end.

(** [get_station_names(sta_index_pairs, sta_index, tel_name)]. *)
Definition get_station_names (sta_index_pairs sta_index tel_name : ndarray)
  : result (list string) :=
  keys ← int_items sta_index;
  values ← str_items tel_name;
  let sta_to_tel := dict_zip keys values in
  resolved ← vectorize (sta_get sta_to_tel) sta_index_pairs;
  match resolved with
  | Item _ => Err TypeError
  | Arr rows => comprehension join_row rows
  end.

(** [a + b] on float64 arrays of one shape. *)
Fixpoint np_add (a b : ndarray) {struct a} : result ndarray :=
  match a, b with
  | Item (SFloat u), Item (SFloat w) => Ok (Item (SFloat (u + w)%float))
  | Item _, Item _ => Err TypeError
  | Arr l, Arr m =>
      (fix go (l m : list ndarray) {struct l} : result ndarray :=
         match l, m with
         | [], [] => Ok (Arr [])
         | u :: l', w :: m' =>
             s ← np_add u w;
             rest ← go l' m';
             match rest with
             | Arr r => Ok (Arr (s :: r))
             | Item _ => Err ValueError
             end
         | _, _ => Err ValueError
         end) l m
  | _, _ => Err ValueError
  end.

(** [np.array([a, b, c])]: the parts must have one shape. *)
Definition np_array3 (a b c : ndarray) : result ndarray :=
  if shape_eqb (shape a) (shape b) && shape_eqb (shape b) (shape c)
  then Ok (Arr [a; b; c])
  else Err ValueError.

(** [getattr(data, key)] and the update of the Dataset it names. *)
Definition getattr (data : Data.t) (key : string) : result Dataset.t :=
  if String.eqb key "flux" then Ok (Data.flux data)
  else if String.eqb key "vis2" then Ok (Data.vis2 data)
  else if String.eqb key "t3" then Ok (Data.t3 data)
  else if String.eqb key "vis" then Ok (Data.vis data)
  else if String.eqb key "visphi" then Ok (Data.visphi data)
  else Err AttributeError.

Definition setattr (data : Data.t) (key : string) (ds : Dataset.t) : result Data.t :=
  let '(Data.mk hduls header wl array flux vis2 t3 vis visphi) := data in
  if String.eqb key "flux" then Ok (Data.mk hduls header wl array ds vis2 t3 vis visphi)
  else if String.eqb key "vis2" then Ok (Data.mk hduls header wl array flux ds t3 vis visphi)
  else if String.eqb key "t3" then Ok (Data.mk hduls header wl array flux vis2 ds vis visphi)
  else if String.eqb key "vis" then Ok (Data.mk hduls header wl array flux vis2 t3 ds visphi)
  else if String.eqb key "visphi" then Ok (Data.mk hduls header wl array flux vis2 t3 vis ds)
  else Err AttributeError.

(** The six appends [ds.header.append(h)], ..., [ds.name.append(n)]. *)
Definition append_record (ds : Dataset.t) (h : Header) (v e : MaskedArray)
  (xc yc : coord) (n : list string) : Dataset.t :=
  Dataset.mk (Dataset.header ds ++ [h]) (Dataset.val ds ++ [v]) (Dataset.err ds ++ [e])
             (Dataset.x ds ++ [xc]) (Dataset.y ds ++ [yc]) (Dataset.name ds ++ [n]).

(** The station names of the rows of [card], from the array table last
    appended to [data.array]. *)
Definition card_station_names (data : Data.t) (card : HDU) : result (list string) :=
  pairs ← data_field card "sta_index";
  arr ← getitem_last (Data.array data);
  sta_index ← data_field arr "sta_index";
  arr ← getitem_last (Data.array data);
  sta_name ← data_field arr "sta_name";
  get_station_names pairs sta_index sta_name.

(** [np.ma.masked_array(card.data[key], mask=card.data["flag"])]. *)
Definition masked_column (card : HDU) (key : string) : result MaskedArray :=
  values ← data_field card key;
  flag ← data_field card "flag";
  masked_array values flag.

(** The differential phase of a "vis" card: read from its VISPHI columns, or
    an all-NaN placeholder in the shape of the last vis2 value array with the
    names of the last vis2 record. *)
Definition visphi_of (data : Data.t) (card : HDU)
  : result (MaskedArray * MaskedArray * list string) :=
  nms ← columns_names card;
  if bool_decide ("VISPHI" ∈ nms) then
    visphi_val ← masked_column card "visphi";
    visphi_err ← masked_column card "visphierr";
    visphi_name ← card_station_names data card;
    Ok (visphi_val, visphi_err, visphi_name)
  else
    v ← getitem_last (Dataset.val (Data.vis2 data));
    let visphi_val := masked_invalid (full (shape (ma_data v)) (SFloat nan)) in
    v ← getitem_last (Dataset.val (Data.vis2 data));
    let visphi_err := masked_invalid (full (shape (ma_data v)) (SFloat nan)) in
    visphi_name ← getitem_last (Dataset.name (Data.vis2 data));
    Ok (visphi_val, visphi_err, visphi_name).

(** The [if key == "flux": ... elif key == "vis": ... elif key == "vis2": ...
    elif key == "t3": ...] chain: the value and error column names, the
    coordinates, and [data] after the appends to [data.visphi]. *)
Definition select_columns (data : Data.t) (card : HDU) (key : string)
  : result (string * string * coord * coord * Data.t) :=
  if String.eqb key "flux" then
    nms ← columns_names card;
    let val_key := if bool_decide ("FLUXDATA" ∈ nms) then "fluxdata" else "flux" in
    Ok (val_key, "fluxerr", NoCoord, NoCoord, data)
  else if String.eqb key "vis" then
    xcoord ← data_field card "ucoord";
    ycoord ← data_field card "vcoord";
    '(visphi_val, visphi_err, visphi_name) ← visphi_of data card;
    data ← setattr data "visphi"
             (append_record (Data.visphi data) (hdu_header card) visphi_val visphi_err
                (Coord xcoord) (Coord ycoord) visphi_name);
    Ok ("visamp", "visamperr", Coord xcoord, Coord ycoord, data)
  else if String.eqb key "vis2" then
    xcoord ← data_field card "ucoord";
    ycoord ← data_field card "vcoord";
    Ok ("vis2data", "vis2err", Coord xcoord, Coord ycoord, data)
  else if String.eqb key "t3" then
    x1coord ← data_field card "u1coord";
    x2coord ← data_field card "u2coord";
    y1coord ← data_field card "v1coord";
    y2coord ← data_field card "v2coord";
    xsum ← np_add x1coord x2coord;
    xcoord ← np_array3 x1coord x2coord xsum;
    ysum ← np_add y1coord y2coord;
    ycoord ← np_array3 y1coord y2coord ysum;
    Ok ("t3phi", "t3phierr", Coord xcoord, Coord ycoord, data)
  else Err AttributeError.

(** One turn of [for key in ["array", "flux", "vis2", "vis", "t3"]]. The
    statement guarded by [key == "vis" and "oi_vis" not in hdul] is the
    expression [...]: it does nothing, and the lookup of the card follows in
    either case. *)
Definition read_key (hdul : HDUList) (index : option Z) (data : Data.t) (key : string)
  : result Data.t :=
  if String.eqb key "array" then
    hdu ← hdul_getitem hdul ("oi_" ++ key) None;
    let '(Data.mk hduls header wl array flux vis2 t3 vis visphi) := data in
    Ok (Data.mk hduls header wl (array ++ [hdu]) flux vis2 t3 vis visphi)
  else
    let _ellipsis := String.eqb key "vis" && negb (hdul_contains hdul ("oi_" ++ key)) in
    card ← hdul_getitem hdul ("oi_" ++ key) index;
    '(val_key, err_key, xcoord, ycoord, data) ← select_columns data card key;
    ds ← getattr data key;
    v ← masked_column card val_key;
    e ← masked_column card err_key;
    n ← card_station_names data card;
    setattr data key (append_record ds (hdu_header card) v e xcoord ycoord n).

(** The instrument-specific table version: 20 for GRAVITY files. *)
Definition table_index (h : Header) : result (option Z) :=
  instrume ← header_getitem h "INSTRUME";
  match instrume with
  | PStr s => Ok (if contains "grav" (lower s) then Some 20 else None)
  | _ => Err AttributeError
  end.

(** The body of [for fits_file in fits_files], with [fs] giving what
    [fits.open] finds under a path. *)
Definition read_file (fs : string -> option HDUList) (data : Data.t) (fits_file : string)
  : result Data.t :=
  match fs fits_file with
  | None => Err OSError
  | Some hdul =>
      let '(Data.mk hduls header wl array flux vis2 t3 vis visphi) := data in
      let hduls := hduls ++ [hdul] in
      primary ← getitem hdul 0;
      let header := header ++ [hdu_header primary] in
      h ← getitem_last header;
      index ← table_index h;
      wave ← hdul_getitem hdul "oi_wavelength" index;
      eff_wave ← data_field wave "eff_wave";
      let wl := wl ++ [eff_wave] in
      for_each (read_key hdul index) ["array"; "flux"; "vis2"; "vis"; "t3"]
        (Data.mk hduls header wl array flux vis2 t3 vis visphi)
  end.

(** The argument of [read_data]: one path or a sequence of paths. *)
Inductive paths : Type :=
| OnePath (p : string)
| Paths (l : list string).

(** [read_data(fits_files)]. *)
Definition read_data (fs : string -> option HDUList) (fits_files : paths) : result Data.t :=
  let fits_files := match fits_files with OnePath p => [p] | Paths l => l end in
  for_each (read_file fs) fits_files Data.empty.

End oifits.

(* ===================================================================== *)
(** ** ir-tools/instrument_prep/pionier.py *)
(* ===================================================================== *)

Module pionier.

(** [del hdul[key]]: the first unit named [key] is removed; KeyError when
    there is none. *)
Definition hdul_delitem (hdul : HDUList) (key : string) : result HDUList :=
  i ← index_of hdul key None;
  Ok (delete i hdul).

(** The body of the [with] block of [delete_add_ins] on the opened list:
    the list as the block leaves it, and the exception that leaves it, if
    any. *)
Definition delete_units (hdul : HDUList) : HDUList * option exn :=
  if hdul_contains hdul "oi_vis" || hdul_contains hdul "oi_flux" then
    match hdul_delitem hdul "oi_vis" with
    | Err e => (hdul, Some e)
    | Ok hdul1 =>
        match hdul_delitem hdul1 "oi_flux" with
        | Err e => (hdul1, Some e)
        | Ok hdul2 => (hdul2, None)
        end
    end
  else (hdul, None).

(** [delete_add_ins(file)], with [fs] giving what [fits.open] finds: a file
    that cannot be opened raises OSError before the block is entered.
    Leaving the block closes the list ([HDUList.__exit__] calls [close]), and
    a list opened with [mode="update"] is flushed when it is closed, also
    when an exception leaves the block: the first component is the content
    the file is left with. *)
Definition delete_add_ins (fs : string -> option HDUList) (file : string)
  : option HDUList * option exn :=
  match fs file with
  | None => (None, Some OSError)
  | Some hdul => let '(hdul', e) := delete_units hdul in (Some hdul', e)
  end.

End pionier.

(* ===================================================================== *)
(** ** Sample files *)
(* ===================================================================== *)

Module Samples.

#[local] Open Scope float_scope.

Definition fl (f : float) : ndarray := Item (SFloat f).
Definition fls (l : list float) : ndarray := Arr (fl <$> l).
Definition int (z : Z) : ndarray := Item (SInt z).
Definition ints (l : list Z) : ndarray := Arr (int <$> l).
Definition str (s : string) : ndarray := Item (SStr s).
Definition flags (l : list bool) : ndarray := Arr ((fun b => Item (SBool b)) <$> l).

Definition table (name : string) (cols : list string) (rws : list (list ndarray)) : HDU :=
  {| hdu_name := name; hdu_ver := 1%Z; hdu_header := [("EXTNAME", PStr name)];
     hdu_data := Some {| names := cols; rows := rws |} |}.

Definition primary (instrume date_obs : string) : HDU :=
  {| hdu_name := "PRIMARY"; hdu_ver := 1%Z;
     hdu_header := [("SIMPLE", PBool true); ("INSTRUME", PStr instrume);
                    ("DATE-OBS", PStr date_obs)];
     hdu_data := None |}.

Definition oi_wavelength : HDU :=
  table "OI_WAVELENGTH" ["EFF_WAVE"; "EFF_BAND"]
    [[fl 1.5; fl 0.25]; [fl 1.75; fl 0.25]].

Definition oi_array : HDU :=
  table "OI_ARRAY" ["TEL_NAME"; "STA_NAME"; "STA_INDEX"]
    [[str "AT1"; str "A0"; int 1%Z]; [str "AT2"; str "B2"; int 2%Z];
     [str "AT3"; str "C1"; int 3%Z]].

Definition oi_flux : HDU :=
  table "OI_FLUX" ["FLUXDATA"; "FLUXERR"; "STA_INDEX"; "FLAG"]
    [[fls [10; 11]; fls [1; 1]; int 1%Z; flags [false; false]];
     [fls [12; 13]; fls [1; 1]; int 2%Z; flags [false; true]]].

Definition oi_vis2 : HDU :=
  table "OI_VIS2" ["VIS2DATA"; "VIS2ERR"; "UCOORD"; "VCOORD"; "STA_INDEX"; "FLAG"]
    [[fls [0.5; 0.25]; fls [0.125; 0.125]; fl 10; fl 20; ints [1; 2]%Z; flags [false; false]];
     [fls [0.75; 0.5]; fls [0.125; 0.125]; fl 30; fl 40; ints [2; 3]%Z; flags [false; false]];
     [fls [0.25; 0.5]; fls [0.125; 0.125]; fl 40; fl 60; ints [1; 3]%Z; flags [true; false]]].

(** A visibility table without the VISPHI columns, its baselines laid out
    differently from those of [oi_vis2]. *)
Definition oi_vis_bare : HDU :=
  table "OI_VIS" ["VISAMP"; "VISAMPERR"; "UCOORD"; "VCOORD"; "STA_INDEX"; "FLAG"]
    [[fls [0.5; 0.75]; fls [0.125; 0.125]; fl 11; fl 21; ints [1; 2]%Z; flags [false; false]];
     [fls [0.25; 0.5]; fls [0.125; 0.125]; fl 31; fl 41; ints [2; 3]%Z; flags [false; false]]].

Definition oi_vis_full : HDU :=
  table "OI_VIS"
    ["VISAMP"; "VISAMPERR"; "VISPHI"; "VISPHIERR"; "UCOORD"; "VCOORD"; "STA_INDEX"; "FLAG"]
    [[fls [0.5; 0.75]; fls [0.125; 0.125]; fls [5; 6]; fls [1; 1]; fl 10; fl 20;
      ints [1; 2]%Z; flags [false; false]];
     [fls [0.25; 0.5]; fls [0.125; 0.125]; fls [7; 8]; fls [1; 1]; fl 30; fl 40;
      ints [2; 3]%Z; flags [false; true]]].

Definition oi_t3 : HDU :=
  table "OI_T3"
    ["T3PHI"; "T3PHIERR"; "U1COORD"; "V1COORD"; "U2COORD"; "V2COORD"; "STA_INDEX"; "FLAG"]
    [[fls [3; 4]; fls [1; 1]; fl 10; fl 20; fl 30; fl 40; ints [1; 2; 3]%Z;
      flags [false; false]]].

(** A complete PIONIER file, with and without differential phase, and one
    without any visibility-amplitude table. *)
Definition file_full : HDUList :=
  [primary "PIONIER" "2023-05-02T01:00"; oi_wavelength; oi_array; oi_flux; oi_vis2;
   oi_vis_full; oi_t3].

Definition file_bare : HDUList :=
  [primary "PIONIER" "2023-05-01T23:00"; oi_wavelength; oi_array; oi_flux; oi_vis2;
   oi_vis_bare; oi_t3].

Definition file_no_vis : HDUList :=
  [primary "PIONIER" "2023-05-02T00:30"; oi_wavelength; oi_array; oi_flux; oi_vis2; oi_t3].

Definition disk (p : string) : option HDUList :=
  if String.eqb p "full.fits" then Some file_full
  else if String.eqb p "bare.fits" then Some file_bare
  else if String.eqb p "novis.fits" then Some file_no_vis
  else None.

(** Eighteen exposures of one night, each file reduced to its primary
    header. *)
Definition exposure (time : string) : HDUList :=
  [primary "GRAVITY" ("2023-05-02T" ++ time)%string].

Definition night : list HDUList :=
  exposure <$>
    ["00:00"; "00:20"; "00:40"; "01:00"; "01:20"; "01:40"; "02:00"; "02:20"; "02:40";
     "03:00"; "03:20"; "03:40"; "04:00"; "04:20"; "04:40"; "05:00"; "05:20"; "05:40"].

End Samples.

(** A GRAVITY file: every table comes in two versions, 10 and 20. *)
Module GravitySamples.

Definition version (v : Z) (h : HDU) : HDU :=
  {| hdu_name := hdu_name h; hdu_ver := v;
     hdu_header := hdu_header h ++ [("EXTVER", PInt v)]; hdu_data := hdu_data h |}.

Definition file_gravity : HDUList :=
  [Samples.primary "GRAVITY" "2023-05-03T04:00";
   version 10 Samples.oi_wavelength; version 20 Samples.oi_wavelength;
   Samples.oi_array;
   version 10 Samples.oi_flux; version 20 Samples.oi_flux;
   version 10 Samples.oi_vis2; version 20 Samples.oi_vis2;
   version 10 Samples.oi_vis_bare; version 20 Samples.oi_vis_full;
   version 10 Samples.oi_t3; version 20 Samples.oi_t3].

Definition disk (p : string) : option HDUList :=
  if String.eqb p "gravity.fits" then Some file_gravity else Samples.disk p.

End GravitySamples.

(* ===================================================================== *)
(** ** Invariants and notions used in the statements *)
(* ===================================================================== *)

(** What [read] has established after consuming the sources [done], from
    the heap [σ]: handles are handed back as they came, every path has a
    copy of its own, and the objects of [σ] are untouched. *)
Definition read_inv (fs : string -> option HDUList) (σ : io.heap)
  (done : list io.loop_item) (st : list io.loc * io.heap) : Prop :=
  length (st.1) = length done /\
  dom σ ⊆ dom st.2 /\
  (forall l : nat, l ∈ dom σ -> st.2 !! l = σ !! l) /\
  (forall (i : nat) (l : io.loc), done !! i = Some (io.IHandle l) -> st.1 !! i = Some l) /\
  (forall (i : nat) (p : string), done !! i = Some (io.IPath p) ->
     exists (l : io.loc) (c : HDUList),
       st.1 !! i = Some l /\ (l ∉ dom σ) /\ fs p = Some c /\ st.2 !! l = Some c).

(** [a[i]] on an array, non-negative [i]. *)
Definition nd_getitem (a : ndarray) (i : nat) : result ndarray :=
  match a with
  | Item _ => Err IndexError
  | Arr l => getitem l i
  end.

(** The number of rows of the table of a unit. *)
Definition nrows (card : HDU) : nat :=
  match hdu_data card with
  | Some t => length (rows t)
  | None => 0%nat
  end.

(** One record of a Dataset: what one file adds to its six lists. *)
Record entry : Type := {
  e_header : Header;
  e_val : MaskedArray;
  e_err : MaskedArray;
  e_x : coord;
  e_y : coord;
  e_name : list string;
}.

(** The Dataset made of a sequence of records. *)
Definition dataset_of (l : list entry) : Dataset.t :=
  Dataset.mk (e_header <$> l) (e_val <$> l) (e_err <$> l) (e_x <$> l) (e_y <$> l)
             (e_name <$> l).

Definition push (ds : Dataset.t) (r : entry) : Dataset.t :=
  oifits.append_record ds (e_header r) (e_val r) (e_err r) (e_x r) (e_y r) (e_name r).

(** The records one file adds, one per observable kind. *)
Record contribution : Type := {
  c_flux : entry;
  c_vis2 : entry;
  c_t3 : entry;
  c_vis : entry;
  c_visphi : entry;
}.

(** Value, error and name of a record have the same number of rows. *)
Definition rows_agree (r : entry) : Prop :=
  len (ma_data (e_val r)) = Ok (length (e_name r)) /\
  len (ma_data (e_err r)) = Ok (length (e_name r)).

(** A coordinate stack of three legs whose third is the sum of the first two. *)
Definition closes (c : coord) : Prop :=
  exists a leg0 leg1,
    c = Coord a /\ len a = Ok 3%nat /\
    nd_getitem a 0 = Ok leg0 /\ nd_getitem a 1 = Ok leg1 /\
    nd_getitem a 2 = oifits.np_add leg0 leg1.

(** The visibility-amplitude card [read_data] selects in a file. *)
Definition vis_card (hdul : HDUList) : result HDU :=
  primary ← getitem hdul 0;
  index ← oifits.table_index (hdu_header primary);
  hdul_getitem hdul "oi_vis" index.

(** The all-NaN, fully masked placeholder in the shape of [v]. *)
Definition placeholder_like (v : MaskedArray) : MaskedArray :=
  masked_invalid (full (shape (ma_data v)) (SFloat nan)).

(** What the records [c] added for the file [hdul] satisfy. *)
Definition file_facts (hdul : HDUList) (c : contribution) : Prop :=
  rows_agree (c_flux c) /\ rows_agree (c_vis2 c) /\ rows_agree (c_t3 c) /\
  rows_agree (c_vis c) /\ rows_agree (c_visphi c) /\
  closes (e_x (c_t3 c)) /\ closes (e_y (c_t3 c)) /\
  exists card u v,
    vis_card hdul = Ok card /\
    data_field card "ucoord" = Ok u /\ data_field card "vcoord" = Ok v /\
    e_x (c_vis c) = Coord u /\ e_y (c_vis c) = Coord v /\
    e_x (c_visphi c) = Coord u /\ e_y (c_visphi c) = Coord v /\
    (forall nms, columns_names card = Ok nms -> "VISPHI" ∉ nms ->
       e_val (c_visphi c) = placeholder_like (e_val (c_vis2 c)) /\
       e_err (c_visphi c) = placeholder_like (e_val (c_vis2 c)) /\
       e_name (c_visphi c) = e_name (c_vis2 c)).

(** The state of [read_data] after the files [done]: one contribution per
    file, in order, in every list of [data]. *)
Definition data_inv (fs : string -> option HDUList) (done : list string) (d : Data.t)
  : Prop :=
  exists cs : list contribution,
    Forall2 (fun p c => exists hdul, fs p = Some hdul /\ file_facts hdul c) done cs /\
    length (Data.hduls d) = length cs /\ length (Data.header d) = length cs /\
    length (Data.wl d) = length cs /\ length (Data.array d) = length cs /\
    Data.flux d = dataset_of (c_flux <$> cs) /\
    Data.vis2 d = dataset_of (c_vis2 <$> cs) /\
    Data.t3 d = dataset_of (c_t3 <$> cs) /\
    Data.vis d = dataset_of (c_vis <$> cs) /\
    Data.visphi d = dataset_of (c_visphi <$> cs).

(** The paths [read_data] goes through. *)
Definition path_list (fits_files : oifits.paths) : list string :=
  match fits_files with
  | oifits.OnePath p => [p]
  | oifits.Paths l => l
  end.

(** A Dataset of [n] records whose value, error and name agree, record by
    record, on the number of rows. *)
Definition aligned (n : nat) (ds : Dataset.t) : Prop :=
  length (Dataset.header ds) = n /\ length (Dataset.val ds) = n /\
  length (Dataset.err ds) = n /\ length (Dataset.x ds) = n /\
  length (Dataset.y ds) = n /\ length (Dataset.name ds) = n /\
  forall (i : nat) (v e : MaskedArray) (nm : list string),
    Dataset.val ds !! i = Some v -> Dataset.err ds !! i = Some e ->
    Dataset.name ds !! i = Some nm ->
    len (ma_data v) = Ok (length nm) /\ len (ma_data e) = Ok (length nm).

(** The calendar day [sort] and [filter] read in a file under "date". *)
Definition has_day (hdul : HDUList) (day : string) : Prop :=
  io._get_header_entry hdul "date" = Ok (PStr day).

(** [s <= t] on strings, as the negation of Python's [t < s]. *)
Definition str_le (s t : string) : Prop := npysort.str_lt t s = false.

(** The entries of [l] at the positions [indexer], in that order. *)
Definition pick {A : Type} (l : list A) (d : A) (indexer : list nat) : list A :=
  (fun i => nth i l d) <$> indexer.

(** [indexer] lists the positions of [keys] once each, keys ascending. *)
Definition sorts (keys : list string) (indexer : list nat) : Prop :=
  Permutation indexer (seq 0 (length keys)) /\
  StronglySorted str_le (pick keys "" indexer).

(** A collection in ascending order of calendar day. *)
Definition ascending_by_day (hduls : list HDUList) : Prop :=
  exists days, Forall2 has_day hduls days /\ StronglySorted str_le days.

(** The test [index_of] makes on the unit [hdu] at position [idx]: its name
    is [key], both stripped of surrounding white space and compared case
    blind (or [key] is "PRIMARY" and the unit is the first), and its EXTVER
    is [ver] when one is asked for. *)
Definition unit_matches (key : string) (ver : option Z) (idx : nat) (hdu : HDU) : bool :=
  (String.eqb (upper (strip (hdu_name hdu))) (upper (strip key))
   || (String.eqb (upper (strip key)) "PRIMARY" && Nat.eqb idx 0))
  && match ver with None => true | Some v => Z.eqb v (hdu_ver hdu) end.

(** The keyword [_get_header_entry] looks up for a field name. *)
Definition keyword_of (key : string) : string :=
  upper (io.dict_get io.KEY_TO_ATTRIBUTE key key).

(** A character of a standard FITS keyword: a capital letter, a digit, a
    hyphen or an underscore. *)
Definition keyword_char (c : ascii) : bool :=
  let n := N_of_ascii c in
  (((65 <=? n) && (n <=? 90)) || ((48 <=? n) && (n <=? 57)) || (n =? 45) || (n =? 95))%N.

(** A standard FITS keyword that holds a value: at most eight such
    characters, and none of the commentary keywords (the blank keyword,
    COMMENT, HISTORY, END). astropy looks such a key up as it is given. *)
Definition standard_keyword (k : string) : bool :=
  (String.length k <=? 8)%nat
  && forallb keyword_char (list_ascii_of_string k)
  && negb (existsb (String.eqb k) [""; "COMMENT"; "HISTORY"; "END"]).

(** The capital letters, the labels of the first 26 files. *)
Definition alphabet : list string :=
  ["A"; "B"; "C"; "D"; "E"; "F"; "G"; "H"; "I"; "J"; "K"; "L"; "M"; "N"; "O"; "P"; "Q";
   "R"; "S"; "T"; "U"; "V"; "W"; "X"; "Y"; "Z"].

(** *** [read_data], file by file

    What one file adds to the Data, written as a function of the file
    alone: where the source looks back with [data.header[-1]],
    [data.array[-1]], [data.vis2.val[-1]] and [data.vis2.name[-1]], this
    reading takes the value the same turn of the loop has just computed. *)

(** Arrays of ints and of strings, row by row. *)
Definition int_row (zs : list Z) : ndarray := Arr ((fun z => Item (SInt z)) <$> zs).
Definition int_rows (idx : list (list Z)) : ndarray := Arr (int_row <$> idx).
Definition str_row (ss : list string) : ndarray := Arr ((fun s => Item (SStr s)) <$> ss).

(** The station names of the rows of [card], from the array table [arr]. *)
Definition station_names_of (arr card : HDU) : result (list string) :=
  pairs ← data_field card "sta_index";
  sta_index ← data_field arr "sta_index";
  sta_name ← data_field arr "sta_name";
  oifits.get_station_names pairs sta_index sta_name.

(** The record of [card] with the given value and error columns. *)
Definition record_of (arr card : HDU) (val_key err_key : string) (xc yc : coord)
  : result entry :=
  v ← oifits.masked_column card val_key;
  e ← oifits.masked_column card err_key;
  n ← station_names_of arr card;
  Ok {| e_header := hdu_header card; e_val := v; e_err := e;
        e_x := xc; e_y := yc; e_name := n |}.

Definition flux_record (hdul : HDUList) (index : option Z) (arr : HDU) : result entry :=
  card ← hdul_getitem hdul "oi_flux" index;
  nms ← columns_names card;
  record_of arr card (if bool_decide ("FLUXDATA" ∈ nms) then "fluxdata" else "flux")
    "fluxerr" NoCoord NoCoord.

Definition vis2_record (hdul : HDUList) (index : option Z) (arr : HDU) : result entry :=
  card ← hdul_getitem hdul "oi_vis2" index;
  xcoord ← data_field card "ucoord";
  ycoord ← data_field card "vcoord";
  record_of arr card "vis2data" "vis2err" (Coord xcoord) (Coord ycoord).

(** The differential phase of the "vis" card, given the vis2 record [r2] of
    the same file. *)
Definition visphi_record (arr card : HDU) (r2 : entry) (xc yc : coord) : result entry :=
  nms ← columns_names card;
  if bool_decide ("VISPHI" ∈ nms) then
    v ← oifits.masked_column card "visphi";
    e ← oifits.masked_column card "visphierr";
    n ← station_names_of arr card;
    Ok {| e_header := hdu_header card; e_val := v; e_err := e;
          e_x := xc; e_y := yc; e_name := n |}
  else
    Ok {| e_header := hdu_header card;
          e_val := placeholder_like (e_val r2); e_err := placeholder_like (e_val r2);
          e_x := xc; e_y := yc; e_name := e_name r2 |}.

(** The vis record and the visphi record of a file. *)
Definition vis_records (hdul : HDUList) (index : option Z) (arr : HDU) (r2 : entry)
  : result (entry * entry) :=
  card ← hdul_getitem hdul "oi_vis" index;
  xcoord ← data_field card "ucoord";
  ycoord ← data_field card "vcoord";
  rp ← visphi_record arr card r2 (Coord xcoord) (Coord ycoord);
  r ← record_of arr card "visamp" "visamperr" (Coord xcoord) (Coord ycoord);
  Ok (r, rp).

Definition t3_record (hdul : HDUList) (index : option Z) (arr : HDU) : result entry :=
  card ← hdul_getitem hdul "oi_t3" index;
  x1coord ← data_field card "u1coord";
  x2coord ← data_field card "u2coord";
  y1coord ← data_field card "v1coord";
  y2coord ← data_field card "v2coord";
  xsum ← oifits.np_add x1coord x2coord;
  xcoord ← oifits.np_array3 x1coord x2coord xsum;
  ysum ← oifits.np_add y1coord y2coord;
  ycoord ← oifits.np_array3 y1coord y2coord ysum;
  record_of arr card "t3phi" "t3phierr" (Coord xcoord) (Coord ycoord).

(** All that one file adds. *)
Record file_part : Type := {
  fp_hdul : HDUList;
  fp_header : Header;
  fp_wl : ndarray;
  fp_array : HDU;
  fp_records : contribution;
}.

Definition file_records (hdul : HDUList) : result file_part :=
  primary ← getitem hdul 0;
  index ← oifits.table_index (hdu_header primary);
  wave ← hdul_getitem hdul "oi_wavelength" index;
  eff_wave ← data_field wave "eff_wave";
  arr ← hdul_getitem hdul "oi_array" None;
  rf ← flux_record hdul index arr;
  r2 ← vis2_record hdul index arr;
  '(rv, rp) ← vis_records hdul index arr r2;
  r3 ← t3_record hdul index arr;
  Ok {| fp_hdul := hdul; fp_header := hdu_header primary; fp_wl := eff_wave;
        fp_array := arr;
        fp_records := {| c_flux := rf; c_vis2 := r2; c_t3 := r3; c_vis := rv;
                         c_visphi := rp |} |}.

(** Opening a path and taking its part. *)
Definition open_records (fs : string -> option HDUList) (p : string) : result file_part :=
  match fs p with
  | None => Err OSError
  | Some hdul => file_records hdul
  end.

(** The Data made of the parts of a sequence of files. *)
Definition assemble (ts : list file_part) : Data.t :=
  Data.mk (fp_hdul <$> ts) (fp_header <$> ts) (fp_wl <$> ts) (fp_array <$> ts)
    (dataset_of ((fun t => c_flux (fp_records t)) <$> ts))
    (dataset_of ((fun t => c_vis2 (fp_records t)) <$> ts))
    (dataset_of ((fun t => c_t3 (fp_records t)) <$> ts))
    (dataset_of ((fun t => c_vis (fp_records t)) <$> ts))
    (dataset_of ((fun t => c_visphi (fp_records t)) <$> ts)).

(** Two Datasets, and two Datas, one after the other. *)
Definition dataset_app (a b : Dataset.t) : Dataset.t :=
  Dataset.mk (Dataset.header a ++ Dataset.header b) (Dataset.val a ++ Dataset.val b)
             (Dataset.err a ++ Dataset.err b) (Dataset.x a ++ Dataset.x b)
             (Dataset.y a ++ Dataset.y b) (Dataset.name a ++ Dataset.name b).

Definition data_app (a b : Data.t) : Data.t :=
  Data.mk (Data.hduls a ++ Data.hduls b) (Data.header a ++ Data.header b)
          (Data.wl a ++ Data.wl b) (Data.array a ++ Data.array b)
          (dataset_app (Data.flux a) (Data.flux b))
          (dataset_app (Data.vis2 a) (Data.vis2 b))
          (dataset_app (Data.t3 a) (Data.t3 b))
          (dataset_app (Data.vis a) (Data.vis b))
          (dataset_app (Data.visphi a) (Data.visphi b)).

(** A unit carries the name [key], as [index_of] compares names: stripped
    of surrounding white space and case blind. *)
Definition named (key : string) (hdu : HDU) : bool :=
  String.eqb (upper (strip (hdu_name hdu))) (upper (strip key)).

(** A unit that is neither an OI_VIS nor an OI_FLUX table. *)
Definition other_unit (hdu : HDU) : bool :=
  negb (named "oi_vis" hdu || named "oi_flux" hdu).

(** *** The sorter

    Notions for numpy's quicksort on an index array [t], whose entries are
    compared through the keys they point at. *)

Section sorter_notions.

#[local] Open Scope nat_scope.

(** The entry at [p] is not greater than the entry at [q]. *)
Definition ordered (ls : nat -> nat -> bool) (t : list nat) (p q : nat) : Prop :=
  ls (npysort.rd t q) (npysort.rd t p) = false.

(** The positions [pl..pr] hold their entries in ascending order. *)
Definition sorted_range (ls : nat -> nat -> bool) (t : list nat) (pl pr : nat) : Prop :=
  forall p q, pl <= p -> p < q -> q <= pr -> ordered ls t p q.

(** [t'] has the entries of [t] at every position outside [pl..pr]. *)
Definition same_outside (t t' : list nat) (pl pr : nat) : Prop :=
  forall p, p < pl \/ pr < p -> npysort.rd t' p = npysort.rd t p.

(** Ranges of positions that lie apart from one another. *)
Fixpoint apart (segs : list (nat * nat)) : Prop :=
  match segs with
  | [] => True
  | s :: rest => Forall (fun s' => s.2 < s'.1 \/ s'.2 < s.1) rest /\ apart rest
  end.

(** The number of positions in a list of ranges. *)
Definition positions (segs : list (nat * nat)) : nat :=
  list_sum ((fun s => s.2 - s.1 + 1) <$> segs).

(** The state of the quicksort between two steps: [t] is a permutation of
    the positions of the [n] keys, the pending ranges [segs] lie apart, and
    two entries are in order unless both lie in one pending range. *)
Definition pending (ls : nat -> nat -> bool) (n : nat) (t : list nat)
  (segs : list (nat * nat)) : Prop :=
  Permutation t (seq 0 n) /\
  Forall (fun s => s.1 <= s.2 /\ s.2 < n) segs /\
  apart segs /\
  forall p q, p < q -> q < n ->
    ordered ls t p q \/ exists s, s ∈ segs /\ s.1 <= p /\ q <= s.2.

(** The ranges of the frames of the stack. *)
Definition ranges (stack : list npysort.frame) : list (nat * nat) :=
  (fun f => (f.1.1, f.1.2)) <$> stack.

(** The heap order on the 1-based view of the [n] entries from [base]: from
    node [lo] on, no node is less than a child of its own. *)
Definition heap_from (ls : nat -> nat -> bool) (t : list nat) (base lo n : nat) : Prop :=
  forall k c, lo <= k -> (c = 2 * k \/ c = 2 * k + 1) -> c <= n ->
    ls (npysort.hrd t base k) (npysort.hrd t base c) = false.

End sorter_notions.

(* ===================================================================== *)
(** ** Facts about the error monad and the loops *)
(* ===================================================================== *)

#[local] Open Scope nat_scope.

Lemma bind_Ok {A B : Type} (m : result A) (k : A -> result B) (b : B) :
  (x ← m; k x) = Ok b -> exists a, m = Ok a /\ k a = Ok b.
Proof. destruct m as [a|e]; simpl; [eauto | discriminate]. Qed.

Lemma bind_Err {A B : Type} (m : result A) (k : A -> result B) (e : exn) :
  m = Err e -> (x ← m; k x) = Err e.
Proof. intros ->. reflexivity. Qed.

Lemma bind_raises {A B : Type} (m : result A) (k : A -> result B) :
  (forall a, exists e, k a = Err e) -> exists e, (x ← m; k x) = Err e.
Proof. intros Hk. destruct m as [a|e]; simpl; eauto. Qed.

(** Inverts the binds of a hypothesis [H : (x ← m; ...) = Ok _], one at a time. *)
Ltac bind_inv H :=
  let a := fresh "a" in
  let E := fresh "E" in
  apply bind_Ok in H; destruct H as (a & E & H).

(** A loop invariant indexed by the part of the input already consumed. *)
Lemma for_each_inv {A S : Type} (body : S -> A -> result S) (P : list A -> S -> Prop) :
  (forall done x s s', P done s -> body s x = Ok s' -> P (done ++ [x]) s') ->
  forall l done s s', P done s -> for_each body l s = Ok s' -> P (done ++ l) s'.
Proof.
  intros Hstep l. induction l as [|x l IH]; intros done s s' HP Hrun; simpl in Hrun.
  - injection Hrun as <-. now rewrite app_nil_r.
  - bind_inv Hrun.
    replace (done ++ x :: l) with ((done ++ [x]) ++ l) by now rewrite <- app_assoc.
    eapply IH; [eapply Hstep |]; eassumption.
Qed.

(** A loop raises as soon as one of its turns raises from every state. *)
Lemma for_each_raises {A S : Type} (body : S -> A -> result S) (x : A) :
  (forall s, exists e, body s x = Err e) ->
  forall l s, In x l -> exists e, for_each body l s = Err e.
Proof.
  intros Hx l. induction l as [|y l IH]; intros s Hin; [destruct Hin |].
  simpl. destruct Hin as [-> | Hin].
  - destruct (Hx s) as [e ->]. eauto.
  - destruct (body s y) as [s'|e]; simpl; eauto.
Qed.

Lemma comprehension_length {A B : Type} (f : A -> result B) (l : list A) (r : list B) :
  comprehension f l = Ok r -> length r = length l.
Proof.
  revert r. induction l as [|x l IH]; intros r H; simpl in H.
  - now injection H as <-.
  - bind_inv H. bind_inv H. injection H as <-. simpl. f_equal. eauto.
Qed.

Lemma comprehension_Forall2 {A B : Type} (f : A -> result B) (l : list A) (r : list B) :
  comprehension f l = Ok r -> Forall2 (fun x y => f x = Ok y) l r.
Proof.
  revert r. induction l as [|x l IH]; intros r H; simpl in H.
  - injection H as <-. constructor.
  - bind_inv H. bind_inv H. injection H as <-. constructor; eauto.
Qed.

Lemma Forall2_comprehension {A B : Type} (f : A -> result B) (l : list A) (r : list B) :
  Forall2 (fun x y => f x = Ok y) l r -> comprehension f l = Ok r.
Proof.
  induction 1 as [|x y l r Hxy _ IH]; simpl; [reflexivity |].
  now rewrite Hxy, IH.
Qed.

(* ===================================================================== *)
(** ** io.py: header fields, get, filter *)
(* ===================================================================== *)

(** C10 as stated fails: "Instrument" and "instrument" are two
    capitalizations of one field name, yet only the second is an alias of
    INSTRUME; the first is looked up as the keyword INSTRUMENT, which the
    header does not have. *)
Lemma header_entry_alias_is_case_sensitive :
  upper "Instrument" = upper "instrument" /\
  io._get_header_entry Samples.file_full "instrument" = Ok (PStr "PIONIER") /\
  io._get_header_entry Samples.file_full "Instrument" = Ok (PStr "").
Proof. repeat split; reflexivity. Qed.

(** C10, amended: the field name goes through the alias table as it is
    written, and is upper-cased after that; so two capitalizations of a field
    name resolve to the same value whenever neither is itself a key of the
    alias table ("date", "instrument"). *)
Theorem header_entry_case_blind_off_aliases (hdul : HDUList) (k1 k2 : string) :
  upper k1 = upper k2 ->
  io.KEY_TO_ATTRIBUTE !! k1 = None ->
  io.KEY_TO_ATTRIBUTE !! k2 = None ->
  io._get_header_entry hdul k1 = io._get_header_entry hdul k2.
Proof.
  intros Hup H1 H2. unfold io._get_header_entry, io.dict_get.
  rewrite H1, H2, Hup.
  assert (Hd : forall k, io.KEY_TO_ATTRIBUTE !! k = None -> String.eqb k "date" = false).
  { intros k Hk. destruct (String.eqb_spec k "date") as [-> | _]; [| reflexivity].
    vm_compute in Hk. discriminate. }
  now rewrite (Hd _ H1), (Hd _ H2).
Qed.

(** "Instrume" and "INSTRUME" are no aliases: both read the INSTRUME card. *)
Lemma header_entry_case_blind_witness :
  io._get_header_entry Samples.file_full "Instrume"
  = io._get_header_entry Samples.file_full "INSTRUME".
Proof.
  apply (header_entry_case_blind_off_aliases Samples.file_full "Instrume" "INSTRUME");
    reflexivity.
Defined.

(** C9: [get] answers [None] for every file and every key, also for a path
    that exists: the VISAMP column of the OI_VIS table of the sample file is
    there for [_get_column], and [get] does not return it. *)
Theorem get_returns_none_for_existing_path :
  (forall hdul key, io.get hdul key = io.ObjNone) /\
  (exists a, io._get_column Samples.file_full "OI_VIS" "VISAMP" None false
             = Ok (io.ObjArray a)) /\
  io.get Samples.file_full "OI_VIS.VISAMP" = io.ObjNone.
Proof. repeat split. eexists. reflexivity. Qed.

(** The scenario of the specification: five files, three of GRAVITY and two
    of PIONIER, filtered on the instrument. *)
Example filter_scenario_raises :
  io.filter
    [Samples.exposure "00:00"; Samples.file_full; Samples.exposure "00:20";
     Samples.file_bare; Samples.exposure "00:40"]
    [("instrument", PStr "GRAVITY")]
  = Err UnboundLocalError.
Proof. reflexivity. Qed.

(** C4: [filter] raises UnboundLocalError on every collection and every
    mapping of conditions, so it returns no sub-collection at all. *)
Theorem filter_raises_unbound_local (hduls : list HDUList) (conditions : io.dict pyval) :
  io.filter hduls conditions = Err UnboundLocalError.
Proof. reflexivity. Qed.

(* ===================================================================== *)
(** ** io.py: read *)
(* ===================================================================== *)

Lemma read_item_inv fs σ done x st st' :
  read_inv fs σ done st -> io.read_item fs st x = Ok st' -> read_inv fs σ (done ++ [x]) st'.
Proof.
  destruct st as [ls σ1]. intros (Hlen & Hdom & Hold & Hh & Hp) Hstep. simpl in *.
  assert (Hget : forall (A : Type) (xs : list A) (ys : list nat) (a : A) (b : nat) (i : nat),
             length ys = length xs -> (xs ++ [a]) !! i = Some a -> length xs <= i ->
             (ys ++ [b]) !! i = Some b).
  { intros A xs ys a b i Hl Hi Hge.
    assert (i = length xs) as ->.
    { apply lookup_lt_Some in Hi. rewrite length_app in Hi. simpl in Hi.
      unfold lt in *. lia. }
    rewrite <- Hl. rewrite lookup_app_r by (unfold ge; lia).
    now rewrite Nat.sub_diag. }
  destruct x as [p | l | h]; simpl in Hstep.
  - destruct (fs p) as [c|] eqn:Hfs; [| discriminate].
    injection Hstep as <-. unfold read_inv. simpl.
    pose proof (is_fresh (dom σ1)) as Hfresh.
    set (l' := fresh (dom σ1)) in *.
    repeat split.
    + rewrite !length_app. simpl. now rewrite Hlen.
    + rewrite dom_insert_L. set_solver.
    + intros l Hl. rewrite lookup_insert_ne; [now apply Hold |].
      intros ->. apply Hfresh. set_solver.
    + intros i l Hi. destruct (decide (i < length done)%nat) as [Hlt | Hge].
      * rewrite lookup_app_l in Hi by exact Hlt.
        rewrite lookup_app_l by (rewrite Hlen; exact Hlt). now apply Hh.
      * rewrite lookup_app_r in Hi by (unfold lt in *; lia).
        destruct (i - length done)%nat; simpl in Hi; [discriminate |].
        now rewrite lookup_nil in Hi.
    + intros i q Hi. destruct (decide (i < length done)%nat) as [Hlt | Hge].
      * rewrite lookup_app_l in Hi by exact Hlt.
        destruct (Hp i q Hi) as (l & c' & Hl & Hnew & Hq & Hc).
        exists l, c'. repeat split; try assumption.
        -- rewrite lookup_app_l by (rewrite Hlen; exact Hlt). exact Hl.
        -- rewrite lookup_insert_ne; [exact Hc |].
           intros ->. apply Hfresh. apply elem_of_dom. eauto.
      * assert (Hi' := Hi).
        rewrite lookup_app_r in Hi' by (unfold lt in *; lia).
        destruct (i - length done)%nat eqn:Hd; simpl in Hi';
          [| now rewrite lookup_nil in Hi'].
        injection Hi' as <-.
        exists l', c. repeat split.
        -- eapply Hget; [exact Hlen | exact Hi | unfold lt in *; lia].
        -- intros Hin. apply Hfresh. set_solver.
        -- exact Hfs.
        -- apply lookup_insert_eq.
  - injection Hstep as <-. unfold read_inv. simpl. repeat split.
    + rewrite !length_app. simpl. now rewrite Hlen.
    + exact Hdom.
    + exact Hold.
    + intros i l0 Hi. destruct (decide (i < length done)%nat) as [Hlt | Hge].
      * rewrite lookup_app_l in Hi by exact Hlt.
        rewrite lookup_app_l by (rewrite Hlen; exact Hlt). now apply Hh.
      * assert (Hi' := Hi).
        rewrite lookup_app_r in Hi' by (unfold lt in *; lia).
        destruct (i - length done)%nat eqn:Hd; simpl in Hi';
          [| now rewrite lookup_nil in Hi'].
        injection Hi' as <-.
        eapply Hget; [exact Hlen | exact Hi | unfold lt in *; lia].
    + intros i q Hi. destruct (decide (i < length done)%nat) as [Hlt | Hge].
      * rewrite lookup_app_l in Hi by exact Hlt.
        destruct (Hp i q Hi) as (l0 & c' & Hl & Hnew & Hq & Hc).
        exists l0, c'. repeat split; try assumption.
        rewrite lookup_app_l by (rewrite Hlen; exact Hlt). exact Hl.
      * rewrite lookup_app_r in Hi by (unfold lt in *; lia).
        destruct (i - length done)%nat; simpl in Hi; [discriminate |].
        now rewrite lookup_nil in Hi.
  - discriminate.
Qed.

(** C8 as stated fails: given the open handle at location 7, [read] hands
    back location 7 itself, and the heap holds no second object. *)
Lemma read_returns_the_callers_handle :
  io.read Samples.disk (io.RMany [io.SHandle 7%nat]) {[ 7%nat := Samples.file_full ]}
  = Ok ([7%nat], {[ 7%nat := Samples.file_full ]}).
Proof. reflexivity. Qed.

(** C8, amended: for a sequence of sources, [read] returns one handle per
    source, in order; an already-open handle is returned as the same object
    (no copy is made of it), a path is opened and deep-copied into an object
    that did not exist before, and no object of the caller is changed. *)
Theorem read_keeps_handles_and_copies_paths
  (fs : string -> option HDUList) (srcs : list io.source) (σ σ' : io.heap)
  (ls : list io.loc) :
  io.read fs (io.RMany srcs) σ = Ok (ls, σ') ->
  length ls = length srcs /\
  (forall (i : nat) (l : io.loc), srcs !! i = Some (io.SHandle l) -> ls !! i = Some l) /\
  (forall (i : nat) (p : string), srcs !! i = Some (io.SPath p) ->
     exists (l : io.loc) (c : HDUList),
       ls !! i = Some l /\ (l ∉ dom σ) /\ fs p = Some c /\ σ' !! l = Some c) /\
  (forall l : nat, l ∈ dom σ -> σ' !! l = σ !! l).
Proof.
  intros Hrun. unfold io.read in Hrun. simpl in Hrun.
  assert (Hinv : read_inv fs σ ([] ++ (io.item_of_source <$> srcs)) (ls, σ')).
  { eapply for_each_inv; [| | exact Hrun].
    - intros done x s s'. apply read_item_inv.
    - unfold read_inv. simpl.
      split; [reflexivity |]. split; [set_solver |]. split; [reflexivity |].
      split; intros i ? Hi; now rewrite lookup_nil in Hi. }
  simpl in Hinv. destruct Hinv as (Hlen & _ & Hold & Hh & Hp). simpl in *.
  repeat split.
  - now rewrite Hlen, length_fmap.
  - intros i l Hi. apply Hh. rewrite list_lookup_fmap, Hi. reflexivity.
  - intros i p Hi. apply Hp. rewrite list_lookup_fmap, Hi. reflexivity.
  - exact Hold.
Qed.

(** A path and an open handle: the path gets the new object 8, the handle 7
    comes back as it is. *)
Lemma read_keeps_handles_witness :
  length [8%nat; 7%nat] = length [io.SPath "bare.fits"; io.SHandle 7%nat] /\
  (forall (i : nat) (l : io.loc),
     [io.SPath "bare.fits"; io.SHandle 7%nat] !! i = Some (io.SHandle l) ->
     [8%nat; 7%nat] !! i = Some l) /\
  (forall (i : nat) (p : string),
     [io.SPath "bare.fits"; io.SHandle 7%nat] !! i = Some (io.SPath p) ->
     exists (l : io.loc) (c : HDUList),
       [8%nat; 7%nat] !! i = Some l /\
       (l ∉ dom ({[ 7%nat := Samples.file_full ]} : io.heap)) /\
       Samples.disk p = Some c /\
       (<[8%nat := Samples.file_bare]> {[ 7%nat := Samples.file_full ]} : io.heap) !! l
       = Some c) /\
  (forall l : nat, l ∈ dom ({[ 7%nat := Samples.file_full ]} : io.heap) ->
     (<[8%nat := Samples.file_bare]> {[ 7%nat := Samples.file_full ]} : io.heap) !! l
     = ({[ 7%nat := Samples.file_full ]} : io.heap) !! l).
Proof.
  apply (read_keeps_handles_and_copies_paths Samples.disk
           [io.SPath "bare.fits"; io.SHandle 7%nat]).
  vm_compute. reflexivity.
Defined.

(* ===================================================================== *)
(** ** oifits.py: tables, masks and station names *)
(* ===================================================================== *)

Lemma masked_array_data (d m : ndarray) (v : MaskedArray) :
  masked_array d m = Ok v -> ma_data v = d.
Proof.
  unfold masked_array. intros H.
  repeat match type of H with
         | (if ?c then _ else _) = _ => destruct c
         end; try discriminate; now injection H as <-.
Qed.

Lemma data_field_len (card : HDU) (key : string) (a : ndarray) :
  data_field card key = Ok a -> len a = Ok (nrows card).
Proof.
  unfold data_field, nrows, rec_field. destruct (hdu_data card) as [t|]; [| discriminate].
  intros H. bind_inv H. injection H as <-. simpl. now rewrite length_map.
Qed.

Lemma masked_column_len (card : HDU) (key : string) (v : MaskedArray) :
  oifits.masked_column card key = Ok v -> len (ma_data v) = Ok (nrows card).
Proof.
  unfold oifits.masked_column. intros H. bind_inv H. bind_inv H.
  apply masked_array_data in H. rewrite H. eapply data_field_len. eassumption.
Qed.

Lemma get_station_names_len (pairs sta_index tel_name : ndarray) (n : list string) :
  oifits.get_station_names pairs sta_index tel_name = Ok n -> len pairs = Ok (length n).
Proof.
  unfold oifits.get_station_names. intros H. bind_inv H. bind_inv H. bind_inv H.
  unfold oifits.vectorize in E1.
  destruct (flat pairs) as [|first rest]; [discriminate |].
  destruct pairs as [s | l].
  - destruct (oifits.sta_get _ first); injection E1 as <-; discriminate.
  - assert (exists rws, a1 = Arr rws /\ length rws = length l) as (rws & -> & Hlen).
    { destruct (oifits.sta_get _ first); injection E1 as <-; simpl;
        eexists; (split; [reflexivity | now rewrite ?length_map]). }
    apply comprehension_length in H. simpl. congruence.
Qed.

Lemma card_station_names_len (d : Data.t) (card : HDU) (n : list string) :
  oifits.card_station_names d card = Ok n -> length n = nrows card.
Proof.
  unfold oifits.card_station_names. intros H. do 5 bind_inv H.
  apply get_station_names_len in H. apply data_field_len in E. congruence.
Qed.

Lemma len_full_shape (a : ndarray) (v : scalar) (n : nat) :
  len a = Ok n -> len (full (shape a) v) = Ok n.
Proof.
  destruct a as [s | l]; [discriminate |]. simpl. intros H. injection H as <-.
  now rewrite repeat_length.
Qed.

(** The labelling of the specification: pairs (1,2) and (2,3) over the
    stations 1, 2, 3 named A0, B0, C0. *)
Example station_names_in_column_order :
  oifits.get_station_names
    (Arr [Samples.ints [1; 2]%Z; Samples.ints [2; 3]%Z])
    (Samples.ints [1; 2; 3]%Z)
    (Arr [Samples.str "A0"; Samples.str "B0"; Samples.str "C0"])
  = Ok ["A0-B0"; "B0-C0"].
Proof. reflexivity. Qed.

(** An index without an entry, met after a resolved one, is labelled with
    the text "None". *)
Example station_names_none_as_text :
  oifits.get_station_names
    (Arr [Samples.ints [1; 9]%Z]) (Samples.ints [1]%Z) (Arr [Samples.str "A0"])
  = Ok ["A0-None"].
Proof. reflexivity. Qed.

(** No rows at all: [np.vectorize] refuses the empty array. *)
Example station_names_of_no_rows :
  oifits.get_station_names (Arr []) (Samples.ints [1]%Z) (Arr [Samples.str "A0"])
  = Err ValueError.
Proof. reflexivity. Qed.

(** C7: when the first index of the first row has no entry in the station
    table, [get_station_names] raises TypeError: the lookup gives [None],
    and the join of the row does not take it. *)
Theorem station_names_raise_on_unknown_first_index
  (z : Z) (row rest : list ndarray) (sta_index tel_name : ndarray)
  (keys : list Z) (values : list string) :
  oifits.int_items sta_index = Ok keys ->
  oifits.str_items tel_name = Ok values ->
  oifits.dict_zip keys values !! z = None ->
  oifits.get_station_names (Arr (Arr (Item (SInt z) :: row) :: rest)) sta_index tel_name
  = Err TypeError.
Proof.
  intros Hk Hv Hz. unfold oifits.get_station_names. rewrite Hk, Hv.
  simpl. unfold oifits.vectorize. simpl. rewrite Hz. reflexivity.
Qed.

(** The pair (9, 1) over a table that knows station 1 only. *)
Lemma station_names_raise_witness :
  oifits.get_station_names
    (Arr [Samples.ints [9; 1]%Z]) (Samples.ints [1]%Z) (Arr [Samples.str "A0"])
  = Err TypeError.
Proof.
  apply (station_names_raise_on_unknown_first_index 9 [Samples.int 1] []
           (Samples.ints [1]%Z) (Arr [Samples.str "A0"]) [1%Z] ["A0"]);
    reflexivity.
Defined.

(* ===================================================================== *)
(** ** oifits.py: what one key and one file add to [data] *)
(* ===================================================================== *)

Lemma dataset_of_push (l : list entry) (r : entry) :
  push (dataset_of l) r = dataset_of (l ++ [r]).
Proof.
  unfold push, dataset_of, oifits.append_record. simpl.
  now rewrite !fmap_app.
Qed.

Lemma getitem_last_snoc {A : Type} (l : list A) (x : A) : getitem_last (l ++ [x]) = Ok x.
Proof. unfold getitem_last. now rewrite last_snoc. Qed.

Lemma read_key_array_effect hdul idx hd he wl ar fl v2 t3 vi vp d' :
  oifits.read_key hdul idx (Data.mk hd he wl ar fl v2 t3 vi vp) "array" = Ok d' ->
  exists hdu, d' = Data.mk hd he wl (ar ++ [hdu]) fl v2 t3 vi vp.
Proof.
  unfold oifits.read_key. simpl String.eqb. cbv iota. intros H. bind_inv H.
  injection H as <-. eauto.
Qed.

(** Every key but "array": a card is looked up, its columns are chosen, and
    one record is appended to the Dataset the key names. *)
Lemma read_key_other hdul idx d key d' :
  String.eqb key "array" = false ->
  oifits.read_key hdul idx d key = Ok d' ->
  exists card val_key err_key d1 ds r,
    hdul_getitem hdul ("oi_" ++ key) idx = Ok card /\
    oifits.select_columns d card key = Ok (val_key, err_key, e_x r, e_y r, d1) /\
    oifits.getattr d1 key = Ok ds /\
    e_header r = hdu_header card /\
    rows_agree r /\
    oifits.setattr d1 key (push ds r) = Ok d'.
Proof.
  intros Hkey H. unfold oifits.read_key in H. rewrite Hkey in H. cbv zeta in H.
  bind_inv H. bind_inv H. destruct a0 as [[[[val_key err_key] xc] yc] d1].
  do 4 bind_inv H.
  exists a, val_key, err_key, d1, a0,
    {| e_header := hdu_header a; e_val := a1; e_err := a2; e_x := xc; e_y := yc;
       e_name := a3 |}.
  simpl. repeat split; try assumption.
  - simpl. apply masked_column_len in E2. apply card_station_names_len in E4. congruence.
  - simpl. apply masked_column_len in E3. apply card_station_names_len in E4. congruence.
Qed.

Lemma read_key_flux_effect hdul idx hd he wl ar fl v2 t3 vi vp d' :
  oifits.read_key hdul idx (Data.mk hd he wl ar fl v2 t3 vi vp) "flux" = Ok d' ->
  exists r, rows_agree r /\ d' = Data.mk hd he wl ar (push fl r) v2 t3 vi vp.
Proof.
  intros H. apply read_key_other in H; [| reflexivity].
  destruct H as (card & vk & ek & d1 & ds & r & _ & Hsel & Hget & _ & Hr & Hset).
  unfold oifits.select_columns in Hsel. simpl String.eqb in Hsel. cbv iota in Hsel.
  bind_inv Hsel. injection Hsel as _ _ _ _ <-.
  cbn in Hget, Hset. injection Hget as <-. injection Hset as <-. eauto.
Qed.

Lemma read_key_vis2_effect hdul idx hd he wl ar fl v2 t3 vi vp d' :
  oifits.read_key hdul idx (Data.mk hd he wl ar fl v2 t3 vi vp) "vis2" = Ok d' ->
  exists r, rows_agree r /\ d' = Data.mk hd he wl ar fl (push v2 r) t3 vi vp.
Proof.
  intros H. apply read_key_other in H; [| reflexivity].
  destruct H as (card & vk & ek & d1 & ds & r & _ & Hsel & Hget & _ & Hr & Hset).
  unfold oifits.select_columns in Hsel. simpl String.eqb in Hsel. cbv iota in Hsel.
  do 2 bind_inv Hsel. injection Hsel as _ _ _ _ <-.
  cbn in Hget, Hset. injection Hget as <-. injection Hset as <-. eauto.
Qed.

Lemma np_array3_closes (a b c : ndarray) (s : ndarray) :
  oifits.np_add a b = Ok c -> oifits.np_array3 a b c = Ok s -> closes (Coord s).
Proof.
  unfold oifits.np_array3. intros Hadd H.
  destruct (_ && _); [| discriminate]. injection H as <-.
  exists (Arr [a; b; c]), a, b. repeat split. simpl. now rewrite Hadd.
Qed.

Lemma read_key_t3_effect hdul idx hd he wl ar fl v2 t3 vi vp d' :
  oifits.read_key hdul idx (Data.mk hd he wl ar fl v2 t3 vi vp) "t3" = Ok d' ->
  exists r, rows_agree r /\ closes (e_x r) /\ closes (e_y r) /\
            d' = Data.mk hd he wl ar fl v2 (push t3 r) vi vp.
Proof.
  intros H. apply read_key_other in H; [| reflexivity].
  destruct H as (card & vk & ek & d1 & ds & r & _ & Hsel & Hget & _ & Hr & Hset).
  unfold oifits.select_columns in Hsel. simpl String.eqb in Hsel. cbv iota in Hsel.
  do 8 bind_inv Hsel. injection Hsel as _ _ Hx Hy <-.
  cbn in Hget, Hset. injection Hget as <-. injection Hset as <-.
  exists r. split; [exact Hr |]. split; [| split; [| reflexivity]].
  - rewrite <- Hx. exact (np_array3_closes _ _ _ _ E3 E4).
  - rewrite <- Hy. exact (np_array3_closes _ _ _ _ E5 E6).
Qed.

Lemma read_key_vis_effect hdul idx hd he wl ar fl v2s r2 t3 vi vp d' :
  rows_agree r2 ->
  oifits.read_key hdul idx
    (Data.mk hd he wl ar fl (dataset_of (v2s ++ [r2])) t3 vi vp) "vis" = Ok d' ->
  exists r rp card u v,
    hdul_getitem hdul "oi_vis" idx = Ok card /\
    data_field card "ucoord" = Ok u /\ data_field card "vcoord" = Ok v /\
    rows_agree r /\ rows_agree rp /\
    e_x r = Coord u /\ e_y r = Coord v /\ e_x rp = Coord u /\ e_y rp = Coord v /\
    (forall nms, columns_names card = Ok nms -> "VISPHI" ∉ nms ->
       e_val rp = placeholder_like (e_val r2) /\
       e_err rp = placeholder_like (e_val r2) /\
       e_name rp = e_name r2) /\
    d' = Data.mk hd he wl ar fl (dataset_of (v2s ++ [r2])) t3 (push vi r) (push vp rp).
Proof.
  intros Hr2 H. apply read_key_other in H; [| reflexivity].
  destruct H as (card & vk & ek & d1 & ds & r & Hcard & Hsel & Hget & _ & Hr & Hset).
  unfold oifits.select_columns in Hsel. simpl String.eqb in Hsel. cbv iota in Hsel.
  do 3 bind_inv Hsel. destruct a1 as [[pv pe] pn]. bind_inv Hsel.
  injection Hsel as _ _ Hx Hy <-.
  cbn in E2. injection E2 as <-. cbn in Hget, Hset.
  injection Hget as <-. injection Hset as <-.
  set (rp := {| e_header := hdu_header card; e_val := pv; e_err := pe;
                e_x := Coord a; e_y := Coord a0; e_name := pn |}).
  assert (Hphi :
    rows_agree rp /\
    (forall nms, columns_names card = Ok nms -> "VISPHI" ∉ nms ->
       pv = placeholder_like (e_val r2) /\ pe = placeholder_like (e_val r2) /\
       pn = e_name r2)).
  { unfold oifits.visphi_of in E1. bind_inv E1.
    destruct (bool_decide ("VISPHI" ∈ a1)) eqn:Hin.
    - do 3 bind_inv E1. injection E1 as <- <- <-. split.
      + split; simpl.
        * apply masked_column_len in E3. apply card_station_names_len in E5. congruence.
        * apply masked_column_len in E4. apply card_station_names_len in E5. congruence.
      + intros nms Hn Hnot. rewrite E2 in Hn. injection Hn as <-.
        apply bool_decide_eq_true in Hin. contradiction.
    - cbn [Data.vis2 Dataset.val Dataset.name dataset_of] in E1.
      rewrite !fmap_app in E1. simpl in E1. rewrite !getitem_last_snoc in E1.
      simpl in E1. injection E1 as <- <- <-. split.
      + destruct Hr2 as [Hv _]. split; simpl; apply len_full_shape; exact Hv.
      + intros _ _ _. repeat split. }
  destruct Hphi as [Hrp Hplace].
  exists r, rp, card, a, a0. simpl.
  repeat match goal with |- _ /\ _ => split end; try assumption; try reflexivity;
    try (symmetry; assumption).
Qed.

Lemma read_file_step fs done d p d' :
  data_inv fs done d -> oifits.read_file fs d p = Ok d' -> data_inv fs (done ++ [p]) d'.
Proof.
  intros (cs & Hcs & Hh & He & Hw & Ha & Hfl & Hv2 & Ht3 & Hvi & Hvp) H.
  unfold oifits.read_file in H. destruct (fs p) as [hdul|] eqn:Hfs; [| discriminate].
  destruct d as [hd he wl ar fl v2 t3 vi vp]. simpl in *. subst fl v2 t3 vi vp.
  do 5 bind_inv H. rewrite getitem_last_snoc in E0. injection E0 as <-.
  simpl in H. do 5 bind_inv H. injection H as <-.
  apply read_key_array_effect in E0 as [hdu ->].
  apply read_key_flux_effect in E4 as (rf & Hrf & ->).
  apply read_key_vis2_effect in E5 as (r2 & Hr2 & ->).
  rewrite !dataset_of_push in E6.
  apply read_key_vis_effect in E6; [| exact Hr2].
  destruct E6 as (rv & rp & card & u & v & Hcard & Hu & Hv & Hrv & Hrp & Hxv & Hyv
                  & Hxp & Hyp & Hplace & ->).
  apply read_key_t3_effect in E7 as (rt & Hrt & Hcx & Hcy & ->).
  exists (cs ++ [{| c_flux := rf; c_vis2 := r2; c_t3 := rt; c_vis := rv; c_visphi := rp |}]).
  simpl. rewrite !dataset_of_push, !fmap_app, !length_app. simpl.
  rewrite Hh, He, Hw, Ha.
  split; [| repeat split; reflexivity].
  apply Forall2_app; [exact Hcs |]. constructor; [| constructor].
  exists hdul. split; [exact Hfs |].
  unfold file_facts. simpl.
  repeat match goal with |- _ /\ _ => split end; try assumption.
  exists card, u, v.
  repeat match goal with |- _ /\ _ => split end; try assumption.
  unfold vis_card. rewrite E. simpl. rewrite E1. simpl. exact Hcard.
Qed.

Lemma read_data_inv fs fits_files d :
  oifits.read_data fs fits_files = Ok d -> data_inv fs (path_list fits_files) d.
Proof.
  unfold oifits.read_data. intros H.
  change (path_list fits_files) with ([] ++ path_list fits_files).
  eapply for_each_inv; [| | exact H].
  - intros done x s s'. apply read_file_step.
  - exists []. simpl. repeat split; constructor.
Qed.

(* ===================================================================== *)
(** ** oifits.py: read_data *)
(* ===================================================================== *)

Lemma dataset_of_aligned (l : list entry) :
  Forall rows_agree l -> aligned (length l) (dataset_of l).
Proof.
  intros Hl. unfold aligned, dataset_of. simpl. rewrite !length_fmap.
  repeat match goal with |- _ /\ _ => split; [reflexivity |] end.
  intros i v e nm Hv He Hn.
  rewrite list_lookup_fmap in Hv. rewrite list_lookup_fmap in He.
  rewrite list_lookup_fmap in Hn.
  destruct (l !! i) as [r|] eqn:Hi; simpl in *; [| discriminate].
  injection Hv as <-. injection He as <-. injection Hn as <-.
  rewrite Forall_forall in Hl. apply Hl.
  eapply list_elem_of_lookup_2. exact Hi.
Qed.

Lemma contributions_agree fs (done : list string) (cs : list contribution)
  (f : contribution -> entry) :
  (forall hdul c, file_facts hdul c -> rows_agree (f c)) ->
  Forall2 (fun p c => exists hdul, fs p = Some hdul /\ file_facts hdul c) done cs ->
  Forall rows_agree (f <$> cs).
Proof.
  intros Hf H. induction H as [|p c done cs (hdul & _ & Hc) _ IH]; simpl; constructor; eauto.
Qed.

(** C2: when [read_data] ingests N files, the four per-file lists of the
    Data and the six lists of each of its five Datasets have length N, and
    in every Dataset the value, error and name of one file have the same
    number of rows. *)
Theorem read_data_aligned
  (fs : string -> option HDUList) (fits_files : oifits.paths) (d : Data.t) :
  oifits.read_data fs fits_files = Ok d ->
  length (Data.hduls d) = length (path_list fits_files) /\
  length (Data.header d) = length (path_list fits_files) /\
  length (Data.wl d) = length (path_list fits_files) /\
  length (Data.array d) = length (path_list fits_files) /\
  aligned (length (path_list fits_files)) (Data.flux d) /\
  aligned (length (path_list fits_files)) (Data.vis2 d) /\
  aligned (length (path_list fits_files)) (Data.t3 d) /\
  aligned (length (path_list fits_files)) (Data.vis d) /\
  aligned (length (path_list fits_files)) (Data.visphi d).
Proof.
  intros H. apply read_data_inv in H.
  destruct H as (cs & Hcs & Hh & He & Hw & Ha & -> & -> & -> & -> & ->).
  pose proof (Forall2_length _ _ _ Hcs) as Hn. rewrite Hn, Hh, He, Hw, Ha.
  assert (Hal : forall f : contribution -> entry,
             (forall hdul c, file_facts hdul c -> rows_agree (f c)) ->
             aligned (length cs) (dataset_of (f <$> cs))).
  { intros f Hf. rewrite <- (length_fmap f cs). apply dataset_of_aligned.
    eapply contributions_agree; eassumption. }
  repeat match goal with |- _ /\ _ => split; [reflexivity |] end.
  repeat match goal with |- _ /\ _ => split end; apply Hal; intros hdul c Hc; apply Hc.
Qed.

(** Two sample files, the second without differential phase. *)
Lemma read_data_aligned_witness :
  exists d : Data.t,
    oifits.read_data Samples.disk (oifits.Paths ["full.fits"; "bare.fits"]) = Ok d /\
    length (Data.hduls d) = 2 /\ length (Data.header d) = 2 /\
    length (Data.wl d) = 2 /\ length (Data.array d) = 2 /\
    aligned 2 (Data.flux d) /\ aligned 2 (Data.vis2 d) /\ aligned 2 (Data.t3 d) /\
    aligned 2 (Data.vis d) /\ aligned 2 (Data.visphi d).
Proof.
  eexists. split; [vm_compute; reflexivity |].
  apply (read_data_aligned Samples.disk (oifits.Paths ["full.fits"; "bare.fits"])).
  vm_compute. reflexivity.
Defined.

(** C5: in every closure-phase record [read_data] produces, for every file,
    the x and the y coordinates are stacks of three legs whose third leg is
    the elementwise sum of the first two: x[2] = x[0] + x[1] and
    y[2] = y[0] + y[1]. *)
Theorem t3_third_leg_is_sum
  (fs : string -> option HDUList) (fits_files : oifits.paths) (d : Data.t)
  (i : nat) (cx cy : coord) :
  oifits.read_data fs fits_files = Ok d ->
  Dataset.x (Data.t3 d) !! i = Some cx ->
  Dataset.y (Data.t3 d) !! i = Some cy ->
  closes cx /\ closes cy.
Proof.
  intros H Hx Hy. apply read_data_inv in H.
  destruct H as (cs & Hcs & _ & _ & _ & _ & _ & _ & Ht3 & _).
  rewrite Ht3 in Hx, Hy. unfold dataset_of in Hx, Hy. simpl in Hx, Hy.
  rewrite list_lookup_fmap in Hx. rewrite list_lookup_fmap in Hy.
  rewrite list_lookup_fmap in Hx. rewrite list_lookup_fmap in Hy.
  destruct (cs !! i) as [c|] eqn:Hi; simpl in *; [| discriminate].
  injection Hx as <-. injection Hy as <-.
  destruct (Forall2_lookup_r _ _ _ _ _ Hcs Hi) as (p & _ & hdul & _ & Hc).
  split; apply Hc.
Qed.

(** The closure-phase record of the second of two sample files. *)
Lemma t3_third_leg_is_sum_witness :
  closes (Coord (Arr [Arr [Samples.fl 10]; Arr [Samples.fl 30]; Arr [Samples.fl 40]])) /\
  closes (Coord (Arr [Arr [Samples.fl 20]; Arr [Samples.fl 40]; Arr [Samples.fl 60]])).
Proof.
  refine (t3_third_leg_is_sum Samples.disk (oifits.Paths ["full.fits"; "bare.fits"])
            _ 1 _ _ _ _ _);
    [vm_compute; reflexivity | reflexivity | reflexivity].
Defined.

(* ===================================================================== *)
(** ** oifits.py: the differential-phase placeholder *)
(* ===================================================================== *)

Lemma shape_full_shape (v : scalar) : forall a : ndarray, shape (full (shape a) v) = shape a.
Proof.
  fix IH 1. intros [s | l]; [reflexivity |].
  destruct l as [|x l']; [reflexivity |].
  simpl. rewrite repeat_length. f_equal. apply IH.
Qed.

Lemma placeholder_fully_masked (v : MaskedArray) : fully_masked (placeholder_like v) = true.
Proof.
  unfold fully_masked, placeholder_like, masked_invalid. simpl.
  generalize (shape (ma_data v)) as s. intros s.
  induction s as [|n s IH]; [reflexivity |].
  simpl. induction n as [|n IHn]; [reflexivity |].
  simpl. now rewrite IH, IHn.
Qed.

Lemma placeholder_shape (v : MaskedArray) :
  shape (ma_data (placeholder_like v)) = shape (ma_data v).
Proof. unfold placeholder_like, masked_invalid. simpl. apply shape_full_shape. Qed.

(** C3 as stated fails on the coordinates: in the sample file whose OI_VIS
    table has no VISPHI column, the visphi record has the two baselines of
    the OI_VIS table, not the three of the vis2 record. *)
Lemma visphi_coordinates_are_not_those_of_vis2 :
  (exists card nms,
     vis_card Samples.file_bare = Ok card /\ columns_names card = Ok nms /\ "VISPHI" ∉ nms) /\
  match oifits.read_data Samples.disk (oifits.Paths ["bare.fits"]) with
  | Ok d =>
      Dataset.x (Data.visphi d) !! 0 = Some (Coord (Arr [Samples.fl 11; Samples.fl 31])) /\
      Dataset.x (Data.vis2 d) !! 0
      = Some (Coord (Arr [Samples.fl 10; Samples.fl 30; Samples.fl 40])) /\
      Dataset.x (Data.visphi d) !! 0 <> Dataset.x (Data.vis2 d) !! 0
  | Err _ => False
  end.
Proof.
  split.
  - eexists _, _. split; [reflexivity |]. split; [reflexivity |].
    simpl. intros Hin. apply (bool_decide_pack _) in Hin. vm_compute in Hin. exact Hin.
  - vm_compute. repeat split. discriminate.
Qed.

(** C3, amended: for every file whose visibility-amplitude card has no
    VISPHI column, [read_data] appends a visphi record whose value and error
    arrays are the all-NaN, entirely masked placeholder in the shape of that
    file's vis2 value array, and whose names are those of that file's vis2
    record; its
    coordinates are the UCOORD and VCOORD columns of the visibility-amplitude
    card itself, the same as those of the vis record. *)
Theorem visphi_placeholder
  (fs : string -> option HDUList) (fits_files : oifits.paths) (d : Data.t)
  (i : nat) (p : string) (hdul : HDUList) (card : HDU) (nms : list string) :
  oifits.read_data fs fits_files = Ok d ->
  path_list fits_files !! i = Some p ->
  fs p = Some hdul ->
  vis_card hdul = Ok card ->
  columns_names card = Ok nms ->
  "VISPHI" ∉ nms ->
  exists (v2 pv pe : MaskedArray) (nm : list string) (u v : ndarray),
    Dataset.val (Data.vis2 d) !! i = Some v2 /\
    Dataset.val (Data.visphi d) !! i = Some pv /\
    Dataset.err (Data.visphi d) !! i = Some pe /\
    pv = placeholder_like v2 /\ pe = placeholder_like v2 /\
    shape (ma_data pv) = shape (ma_data v2) /\ fully_masked pv = true /\
    shape (ma_data pe) = shape (ma_data v2) /\ fully_masked pe = true /\
    Dataset.name (Data.vis2 d) !! i = Some nm /\
    Dataset.name (Data.visphi d) !! i = Some nm /\
    data_field card "ucoord" = Ok u /\ data_field card "vcoord" = Ok v /\
    Dataset.x (Data.visphi d) !! i = Some (Coord u) /\
    Dataset.y (Data.visphi d) !! i = Some (Coord v) /\
    Dataset.x (Data.vis d) !! i = Some (Coord u) /\
    Dataset.y (Data.vis d) !! i = Some (Coord v).
Proof.
  intros H Hi Hfs Hcard Hnms Hnot. apply read_data_inv in H.
  destruct H as (cs & Hcs & _ & _ & _ & _ & _ & -> & _ & -> & ->).
  destruct (Forall2_lookup_l _ _ _ _ _ Hcs Hi) as (c & Hc & hdul' & Hfs' & Hfacts).
  rewrite Hfs in Hfs'. injection Hfs' as <-.
  destruct Hfacts as (_ & _ & _ & _ & _ & _ & _ & card' & u & v & Hcard' & Hu & Hv
                      & Hxv & Hyv & Hxp & Hyp & Hplace).
  rewrite Hcard in Hcard'. injection Hcard' as <-.
  destruct (Hplace nms Hnms Hnot) as (Hpv & Hpe & Hpn).
  exists (e_val (c_vis2 c)), (e_val (c_visphi c)), (e_err (c_visphi c)),
    (e_name (c_vis2 c)), u, v.
  unfold dataset_of. simpl. rewrite !list_lookup_fmap, Hc. simpl.
  rewrite Hpv, Hpe, Hpn, Hxv, Hyv, Hxp, Hyp.
  rewrite placeholder_shape, placeholder_fully_masked.
  repeat match goal with |- _ /\ _ => split end; try reflexivity; assumption.
Qed.

(** The second of two sample files has an OI_VIS table without VISPHI. *)
Lemma visphi_placeholder_witness :
  exists d : Data.t,
    oifits.read_data Samples.disk (oifits.Paths ["full.fits"; "bare.fits"]) = Ok d /\
    exists (v2 pv pe : MaskedArray) (nm : list string) (u v : ndarray),
      Dataset.val (Data.vis2 d) !! 1 = Some v2 /\
      Dataset.val (Data.visphi d) !! 1 = Some pv /\
      Dataset.err (Data.visphi d) !! 1 = Some pe /\
      pv = placeholder_like v2 /\ pe = placeholder_like v2 /\
      shape (ma_data pv) = shape (ma_data v2) /\ fully_masked pv = true /\
      shape (ma_data pe) = shape (ma_data v2) /\ fully_masked pe = true /\
      Dataset.name (Data.vis2 d) !! 1 = Some nm /\
      Dataset.name (Data.visphi d) !! 1 = Some nm /\
      data_field Samples.oi_vis_bare "ucoord" = Ok u /\
      data_field Samples.oi_vis_bare "vcoord" = Ok v /\
      Dataset.x (Data.visphi d) !! 1 = Some (Coord u) /\
      Dataset.y (Data.visphi d) !! 1 = Some (Coord v) /\
      Dataset.x (Data.vis d) !! 1 = Some (Coord u) /\
      Dataset.y (Data.vis d) !! 1 = Some (Coord v).
Proof.
  eexists. split; [vm_compute; reflexivity |].
  apply (visphi_placeholder Samples.disk (oifits.Paths ["full.fits"; "bare.fits"]) _ 1
           "bare.fits" Samples.file_bare Samples.oi_vis_bare
           ["VISAMP"; "VISAMPERR"; "UCOORD"; "VCOORD"; "STA_INDEX"; "FLAG"]).
  - vm_compute. reflexivity.
  - reflexivity.
  - reflexivity.
  - reflexivity.
  - reflexivity.
  - intros Hin. apply (bool_decide_pack _) in Hin. vm_compute in Hin. exact Hin.
Defined.

(* ===================================================================== *)
(** ** oifits.py: a file without a visibility-amplitude table *)
(* ===================================================================== *)

Lemma index_of_from_absent (key : string) (ver : option Z) :
  forall (hdul : HDUList) (i : nat) (e : exn),
    index_of_from i hdul key None = Err e -> index_of_from i hdul key ver = Err KeyError.
Proof.
  induction hdul as [|hdu rest IH]; intros i e H; [reflexivity |].
  simpl in *. rewrite andb_true_r in H.
  destruct (_ || _); [discriminate |]. simpl. eapply IH. exact H.
Qed.

Lemma hdul_getitem_absent (hdul : HDUList) (key : string) (ver : option Z) :
  hdul_contains hdul key = false -> hdul_getitem hdul key ver = Err KeyError.
Proof.
  unfold hdul_contains, hdul_getitem, index_of. intros H.
  destruct (index_of_from 0 hdul key None) as [i|e] eqn:E; [discriminate |].
  now rewrite (index_of_from_absent key ver hdul 0 e E).
Qed.

Lemma read_file_raises_without_vis fs (p : string) (hdul : HDUList) :
  fs p = Some hdul -> hdul_contains hdul "oi_vis" = false ->
  forall data, exists e, oifits.read_file fs data p = Err e.
Proof.
  intros Hfs Habsent data. unfold oifits.read_file. rewrite Hfs.
  destruct data as [hd he wl ar fl v2 t3 vi vp].
  do 5 (apply bind_raises; intros ?).
  apply for_each_raises with (x := "vis"); [| simpl; tauto].
  intros s. unfold oifits.read_key. simpl String.eqb. cbv iota zeta.
  change ("oi_" ++ "vis")%string with "oi_vis".
  rewrite (hdul_getitem_absent hdul "oi_vis" _ Habsent). eexists. reflexivity.
Qed.

(** The sample file without an OI_VIS table: the lookup of the card raises. *)
Example read_data_of_file_without_vis :
  oifits.read_data Samples.disk (oifits.Paths ["novis.fits"]) = Err KeyError.
Proof. reflexivity. Qed.

(** C1: whenever one of the input files has no visibility-amplitude
    ("oi_vis") table, [read_data] raises: it returns no Data at all. *)
Theorem read_data_raises_without_vis
  (fs : string -> option HDUList) (fits_files : oifits.paths) (p : string)
  (hdul : HDUList) :
  In p (path_list fits_files) ->
  fs p = Some hdul ->
  hdul_contains hdul "oi_vis" = false ->
  exists e, oifits.read_data fs fits_files = Err e.
Proof.
  intros Hin Hfs Habsent. unfold oifits.read_data.
  apply for_each_raises with (x := p); [| exact Hin].
  apply (read_file_raises_without_vis fs p hdul Hfs Habsent).
Qed.

(** Three files, the second without an OI_VIS table. *)
Lemma read_data_raises_without_vis_witness :
  exists e,
    oifits.read_data Samples.disk (oifits.Paths ["full.fits"; "novis.fits"; "bare.fits"])
    = Err e.
Proof.
  apply (read_data_raises_without_vis Samples.disk
           (oifits.Paths ["full.fits"; "novis.fits"; "bare.fits"]) "novis.fits"
           Samples.file_no_vis).
  - simpl. tauto.
  - reflexivity.
  - reflexivity.
Defined.

(* ===================================================================== *)
(** ** io.py: sort by date *)
(* ===================================================================== *)

(** The entry read under "date" is the part before the first "T" of the
    DATE-OBS card of the primary header (the empty string without the card). *)
Lemma date_entry_is_day_of_DATE_OBS (hdul : HDUList) :
  io._get_header_entry hdul "date"
  = (primary ← getitem hdul 0;
     io.split_T_head (header_get (hdu_header primary) "DATE-OBS" (PStr ""))).
Proof. reflexivity. Qed.

Lemma pick_all {A : Type} (l : list A) (d : A) : pick l d (seq 0 (length l)) = l.
Proof.
  unfold pick. induction l as [|x l IH]; [reflexivity |].
  simpl. f_equal. rewrite <- seq_shift, <- list_fmap_compose. exact IH.
Qed.

Lemma pick_permutation {A : Type} (l : list A) (d : A) (indexer : list nat) :
  Permutation indexer (seq 0 (length l)) -> Permutation (pick l d indexer) l.
Proof.
  intros H. rewrite <- (pick_all l d) at 2. unfold pick. now apply Permutation_map.
Qed.

Lemma indexer_in_range (n : nat) (indexer : list nat) :
  Permutation indexer (seq 0 n) -> Forall (fun i => i < n) indexer.
Proof.
  intros H. apply Forall_forall. intros i Hi.
  apply list_elem_of_In in Hi. apply (Permutation_in _ H) in Hi.
  apply in_seq in Hi. lia.
Qed.

Lemma pick_Forall2 {A B : Type} (R : A -> B -> Prop) (l : list A) (k : list B)
  (da : A) (db : B) (indexer : list nat) :
  Forall2 R l k -> Forall (fun i => i < length l) indexer ->
  Forall2 R (pick l da indexer) (pick k db indexer).
Proof.
  intros HR Hidx. unfold pick. apply Forall2_fmap.
  induction Hidx as [|i indexer Hi _ IH]; constructor; [| exact IH].
  destruct (lookup_lt_is_Some_2 l i Hi) as [x Hx].
  destruct (Forall2_lookup_l _ _ _ _ _ HR Hx) as (y & Hy & Hxy).
  rewrite (nth_lookup_Some _ _ _ _ Hx), (nth_lookup_Some _ _ _ _ Hy). exact Hxy.
Qed.

Lemma index_column_picks (hduls : list HDUList) (indexer : list nat) :
  Forall (fun i => i < length hduls) indexer ->
  comprehension (io.getitem_py hduls)
    ((fun i => nth i (io.range (length hduls)) PNone) <$> indexer)
  = Ok (pick hduls [] indexer).
Proof.
  intros Hidx. apply Forall2_comprehension. unfold pick.
  apply Forall2_fmap. induction Hidx as [|i indexer Hi _ IH]; constructor; [| exact IH].
  unfold io.range.
  assert (Hnth : nth i ((fun i => PInt (Z.of_nat i)) <$> seq 0 (length hduls)) PNone
                 = PInt (Z.of_nat i)).
  { apply nth_lookup_Some. rewrite list_lookup_fmap, lookup_seq_lt by exact Hi.
    reflexivity. }
  rewrite Hnth. unfold io.getitem_py.
  destruct (Z.leb_spec 0 (Z.of_nat i)); [| lia].
  rewrite Nat2Z.id. unfold getitem.
  destruct (lookup_lt_is_Some_2 hduls i Hi) as [x Hx].
  rewrite (nth_lookup_Some _ _ _ _ Hx).
  assert (nth_error hduls i = Some x) as ->; [| reflexivity].
  rewrite <- Hx. clear. revert i. induction hduls as [|h l IH]; intros [|i]; simpl; auto.
Qed.

Lemma df_date_column (index column : list pyval) :
  io.df_getitem [("index", index); ("date", column)] "date" = Ok column.
Proof. reflexivity. Qed.

Lemma df_take_index_column (index column : list pyval) (indexer : list nat) :
  io.df_getitem (io.df_take [("index", index); ("date", column)] indexer) "index"
  = Ok ((fun i => nth i index PNone) <$> indexer).
Proof. reflexivity. Qed.

(* ===================================================================== *)
(** ** numpy's argsort, kind "quicksort": it sorts *)
(* ===================================================================== *)

Lemma rd_lookup (t : list nat) (p x : nat) : t !! p = Some x -> npysort.rd t p = x.
Proof. intros H. unfold npysort.rd. now apply nth_lookup_Some with (d := 0) in H. Qed.

Lemma lookup_rd (t : list nat) (p : nat) : p < length t -> t !! p = Some (npysort.rd t p).
Proof.
  intros H. destruct (lookup_lt_is_Some_2 t p H) as [x Hx]. now rewrite (rd_lookup _ _ _ Hx).
Qed.

Lemma rd_insert_eq (t : list nat) (p x : nat) :
  p < length t -> npysort.rd (<[p := x]> t) p = x.
Proof. intros H. apply rd_lookup. now apply list_lookup_insert_eq. Qed.

Lemma rd_insert_ne (t : list nat) (p q x : nat) :
  p <> q -> npysort.rd (<[p := x]> t) q = npysort.rd t q.
Proof.
  intros H. unfold npysort.rd.
  destruct (decide (q < length t)) as [Hq|Hq].
  - apply nth_lookup_Some with (d := 0). rewrite list_lookup_insert_ne by exact H.
    now apply lookup_rd.
  - rewrite !nth_overflow; [reflexivity | lia | rewrite length_insert; lia].
Qed.

Lemma insert_rd (t : list nat) (p : nat) : <[p := npysort.rd t p]> t = t.
Proof.
  destruct (decide (p < length t)) as [Hp|Hp].
  - apply list_insert_id. now apply lookup_rd.
  - apply list_insert_ge. lia.
Qed.

Lemma length_swap (t : list nat) (p q : nat) : length (npysort.swap t p q) = length t.
Proof. unfold npysort.swap. now rewrite !length_insert. Qed.

Lemma rd_swap_l (t : list nat) (p q : nat) :
  p < length t -> q < length t -> npysort.rd (npysort.swap t p q) p = npysort.rd t q.
Proof. intros Hp Hq. unfold npysort.swap. apply rd_insert_eq. now rewrite length_insert. Qed.

Lemma rd_swap_r (t : list nat) (p q : nat) :
  p < length t -> q < length t -> npysort.rd (npysort.swap t p q) q = npysort.rd t p.
Proof.
  intros Hp Hq. unfold npysort.swap. destruct (decide (p = q)) as [->|Hne].
  - now rewrite rd_insert_eq by (now rewrite length_insert).
  - rewrite rd_insert_ne by exact Hne. now apply rd_insert_eq.
Qed.

Lemma rd_swap_other (t : list nat) (p q r : nat) :
  r <> p -> r <> q -> npysort.rd (npysort.swap t p q) r = npysort.rd t r.
Proof. intros Hp Hq. unfold npysort.swap. rewrite !rd_insert_ne by congruence. reflexivity. Qed.

Lemma swap_Permutation (t : list nat) (p q : nat) :
  p < length t -> q < length t -> Permutation (npysort.swap t p q) t.
Proof.
  intros Hp Hq. unfold npysort.swap. apply Permutation_insert_swap; now apply lookup_rd.
Qed.

Section introsort.

Context {K : Type} (lt : K -> K -> bool) (v : list K).

(** The comparison is a strict weak order: it is asymmetric, and "not
    greater" is transitive. *)
Hypothesis lt_asym : forall x y, lt x y = true -> lt y x = false.
Hypothesis le_trans : forall x y z, lt y x = false -> lt z y = false -> lt z x = false.

Local Abbreviation ls := (npysort.less lt v).
Local Abbreviation rd := npysort.rd.

Lemma less_asym (a b : nat) : ls a b = true -> ls b a = false.
Proof.
  unfold npysort.less. destruct (v !! a), (v !! b); try discriminate; auto.
Qed.

Lemma less_irrefl (a : nat) : ls a a = false.
Proof. destruct (ls a a) eqn:H; [| reflexivity]. now rewrite (less_asym _ _ H) in H. Qed.

Lemma less_trans (a b c : nat) :
  b < length v -> ls b a = false -> ls c b = false -> ls c a = false.
Proof.
  intros Hb. unfold npysort.less.
  destruct (lookup_lt_is_Some_2 v b Hb) as [y ->].
  destruct (v !! a), (v !! c); auto. apply le_trans.
Qed.

(** *** The two scans of the partition *)

Lemma scan_up_spec (t : list nat) (vp s : nat) :
  ls (rd t s) vp = false ->
  forall fuel pi, pi < s -> s - pi <= fuel ->
    pi < npysort.scan_up lt v fuel t vp pi <= s /\
    ls (rd t (npysort.scan_up lt v fuel t vp pi)) vp = false /\
    forall p, pi < p < npysort.scan_up lt v fuel t vp pi -> ls (rd t p) vp = true.
Proof.
  intros Hs. induction fuel as [|f IH]; intros pi Hlt Hfuel; [lia |].
  simpl. destruct (ls (rd t (S pi)) vp) eqn:Hpi.
  - assert (S pi <> s) by (intros Heq; rewrite Heq in Hpi; congruence).
    destruct (IH (S pi)) as (Hr & Hstop & Hall); [lia | lia |].
    split; [lia |]. split; [exact Hstop |].
    intros p Hp. destruct (decide (p = S pi)) as [-> | Hne]; [exact Hpi |].
    apply Hall. lia.
  - split; [lia |]. split; [exact Hpi |]. intros p Hp. lia.
Qed.

Lemma scan_down_spec (t : list nat) (vp s : nat) :
  ls vp (rd t s) = false ->
  forall fuel pj, s < pj -> pj - s <= fuel ->
    s <= npysort.scan_down lt v fuel t vp pj < pj /\
    ls vp (rd t (npysort.scan_down lt v fuel t vp pj)) = false /\
    forall q, npysort.scan_down lt v fuel t vp pj < q < pj -> ls vp (rd t q) = true.
Proof.
  intros Hs. induction fuel as [|f IH]; intros pj Hlt Hfuel; [lia |].
  simpl. destruct (ls vp (rd t (pred pj))) eqn:Hpj.
  - assert (pred pj <> s) by (intros Heq; rewrite Heq in Hpj; congruence).
    destruct (IH (pred pj)) as (Hr & Hstop & Hall); [lia | lia |].
    split; [lia |]. split; [exact Hstop |].
    intros q Hq. destruct (decide (q = pred pj)) as [-> | Hne]; [exact Hpj |].
    apply Hall. lia.
  - split; [lia |]. split; [exact Hpj |]. intros q Hq. lia.
Qed.

(** *** The exchange loop *)

Lemma exchange_spec (vp pl hi : nat) :
  forall fuel t pi pj,
    pl <= pi -> pi < pj -> pj <= hi -> hi < length t -> pj - pi <= fuel ->
    (forall p, pl <= p <= pi -> ls vp (rd t p) = false) ->
    (forall q, pj <= q <= hi -> ls (rd t q) vp = false) ->
    let r := npysort.exchange lt v fuel t vp pi pj in
    Permutation r.1 t /\ length r.1 = length t /\
    same_outside t r.1 (S pi) (pj - 1) /\
    pi < r.2 <= pj /\
    (forall p, pl <= p < r.2 -> ls vp (rd r.1 p) = false) /\
    (forall q, r.2 <= q <= hi -> ls (rd r.1 q) vp = false).
Proof.
  induction fuel as [|f IH]; intros t pi pj Hpl Hlt Hhi Hlen Hfuel Hlo Hup; [lia |].
  cbn [npysort.exchange].
  destruct (scan_up_spec t vp pj (Hup pj ltac:(lia)) (length t) pi Hlt ltac:(lia))
    as (Hi1 & Hi2 & Hi3).
  destruct (scan_down_spec t vp pi (Hlo pi ltac:(lia)) (length t) pj Hlt ltac:(lia))
    as (Hj1 & Hj2 & Hj3).
  set (pi' := npysort.scan_up lt v (length t) t vp pi) in *.
  set (pj' := npysort.scan_down lt v (length t) t vp pj) in *.
  destruct (Nat.leb_spec pj' pi') as [Hle | Hgt].
  - cbn [fst snd]. split; [reflexivity |]. split; [reflexivity |].
    split; [intros p _; reflexivity |]. split; [lia |]. split.
    + intros p Hp. destruct (decide (p <= pi)) as [Hp'|Hp']; [apply Hlo; lia |].
      apply less_asym. apply Hi3. lia.
    + intros q Hq. destruct (decide (q = pi')) as [-> | Hne]; [exact Hi2 |].
      destruct (decide (q < pj)) as [Hq'|Hq']; [| apply Hup; lia].
      apply less_asym. apply Hj3. lia.
  - assert (Hpi' : pi' < length t) by lia. assert (Hpj' : pj' < length t) by lia.
    specialize (IH (npysort.swap t pi' pj') pi' pj').
    destruct IH as (Hperm & Hlen' & Hout & Hr & Hlo' & Hup').
    + lia.
    + exact Hgt.
    + lia.
    + rewrite length_swap. exact Hlen.
    + lia.
    + intros p Hp. destruct (decide (p = pi')) as [-> | Hne].
      * rewrite rd_swap_l by assumption. exact Hj2.
      * rewrite rd_swap_other by lia.
        destruct (decide (p <= pi)) as [Hp'|Hp']; [apply Hlo; lia |].
        apply less_asym. apply Hi3. lia.
    + intros q Hq. destruct (decide (q = pj')) as [-> | Hne].
      * rewrite rd_swap_r by assumption. exact Hi2.
      * rewrite rd_swap_other by lia.
        destruct (decide (q < pj)) as [Hq'|Hq']; [| apply Hup; lia].
        apply less_asym. apply Hj3. lia.
    + cbn zeta in *.
      set (r := npysort.exchange lt v f (npysort.swap t pi' pj') vp pi' pj') in *.
      split; [etransitivity; [exact Hperm | now apply swap_Permutation] |].
      split; [now rewrite Hlen', length_swap |].
      split; [| split; [lia | split; assumption]].
      intros p Hp. rewrite Hout by lia. apply rd_swap_other; lia.
Qed.

(** *** One partition *)

Lemma median_step (t : list nat) (p q : nat) :
  p < length t -> q < length t ->
  let t' := if ls (rd t p) (rd t q) then npysort.swap t p q else t in
  ls (rd t' p) (rd t' q) = false /\ Permutation t' t /\ length t' = length t /\
  (forall r, r <> p -> r <> q -> rd t' r = rd t r) /\
  ((rd t' p = rd t p /\ rd t' q = rd t q /\ ls (rd t p) (rd t q) = false) \/
   (rd t' p = rd t q /\ rd t' q = rd t p /\ ls (rd t p) (rd t q) = true)).
Proof.
  intros Hp Hq. destruct (ls (rd t p) (rd t q)) eqn:Hless; cbn zeta.
  - rewrite rd_swap_l, rd_swap_r by assumption.
    split; [now apply less_asym |]. split; [now apply swap_Permutation |].
    split; [apply length_swap |]. split; [intros r ? ?; now apply rd_swap_other |].
    right. auto.
  - split; [exact Hless |]. split; [reflexivity |]. split; [reflexivity |].
    split; [reflexivity |]. left. auto.
Qed.

Lemma partition_spec (t : list nat) (pl pr : nat) :
  npysort.SMALL_QUICKSORT < pr - pl -> pr < length t ->
  let r := npysort.partition lt v t pl pr in
  Permutation r.1 t /\ length r.1 = length t /\ same_outside t r.1 pl pr /\
  pl < r.2 < pr /\
  (forall p, pl <= p < r.2 -> ordered ls r.1 p r.2) /\
  (forall q, r.2 < q <= pr -> ordered ls r.1 r.2 q).
Proof.
  unfold npysort.SMALL_QUICKSORT. intros Hbig Hpr.
  unfold npysort.partition.
  set (pm := pl + Nat.shiftr (pr - pl) 1).
  assert (Hpm : pl + 8 <= pm /\ pm + 8 <= pr).
  { unfold pm. rewrite Nat.shiftr_div_pow2. change (2 ^ 1) with 2.
    pose proof (Nat.div_mod_eq (pr - pl) 2) as Hd.
    pose proof (Nat.mod_upper_bound (pr - pl) 2 ltac:(lia)). lia. }
  (* the median of three *)
  destruct (median_step t pm pl ltac:(lia) ltac:(lia)) as (H1 & P1 & L1 & O1 & _).
  set (t1 := if ls (rd t pm) (rd t pl) then npysort.swap t pm pl else t) in *.
  destruct (median_step t1 pr pm ltac:(lia) ltac:(lia)) as (H2 & P2 & L2 & O2 & C2).
  set (t2 := if ls (rd t1 pr) (rd t1 pm) then npysort.swap t1 pr pm else t1) in *.
  destruct (median_step t2 pm pl ltac:(lia) ltac:(lia)) as (H3 & P3 & L3 & O3 & C3).
  set (t3 := if ls (rd t2 pm) (rd t2 pl) then npysort.swap t2 pm pl else t2) in *.
  assert (Hpr3 : ls (rd t3 pr) (rd t3 pm) = false).
  { rewrite (O3 pr) by lia. destruct C3 as [(-> & _ & _) | (-> & _ & Hsw)]; [exact H2 |].
    rewrite (O2 pl) in * by lia.
    destruct C2 as [(-> & E & _) | (-> & _ & _)]; [| exact H1].
    rewrite E in Hsw. congruence. }
  (* the pivot goes to pr - 1 *)
  set (vp := rd t3 pm) in *.
  set (t4 := npysort.swap t3 pm (pr - 1)).
  assert (L4 : length t4 = length t) by (unfold t4; rewrite length_swap; lia).
  assert (P4 : Permutation t4 t).
  { unfold t4. rewrite swap_Permutation by lia. now rewrite P3, P2, P1. }
  assert (Hpivot : rd t4 (pr - 1) = vp).
  { unfold t4. now rewrite rd_swap_r by lia. }
  assert (Hpl4 : rd t4 pl = rd t3 pl) by (unfold t4; apply rd_swap_other; lia).
  assert (Hpr4 : rd t4 pr = rd t3 pr) by (unfold t4; apply rd_swap_other; lia).
  assert (O4 : same_outside t t4 pl pr).
  { intros p Hp. unfold t4. rewrite rd_swap_other by lia.
    rewrite O3, O2, O1 by lia. reflexivity. }
  destruct (exchange_spec vp pl (pr - 1) (length t4) t4 pl (pr - 1))
    as (P5 & L5 & O5 & Hr & Hlo & Hup).
  { lia. } { lia. } { lia. } { lia. } { lia. }
  { intros p Hp. assert (p = pl) as -> by lia. rewrite Hpl4. exact H3. }
  { intros q Hq. assert (q = pr - 1) as -> by lia. rewrite Hpivot. apply less_irrefl. }
  destruct (npysort.exchange lt v (length t4) t4 vp pl (pr - 1)) as [t5 pi].
  cbn [fst snd] in *.
  assert (Hpivot5 : rd t5 (pr - 1) = vp) by (rewrite O5 by lia; exact Hpivot).
  assert (Hpr5 : rd t5 pr = rd t3 pr) by (rewrite O5 by lia; exact Hpr4).
  split; [rewrite swap_Permutation by lia; now rewrite P5 |].
  split; [rewrite length_swap; lia |].
  split.
  { intros p Hp. rewrite rd_swap_other by lia. rewrite O5 by lia. now apply O4. }
  split; [lia |].
  unfold ordered. rewrite rd_swap_l by lia. rewrite Hpivot5. split.
  - intros p Hp. rewrite rd_swap_other by lia. apply Hlo. lia.
  - intros q Hq. destruct (decide (q = pr)) as [-> | Hne].
    + rewrite rd_swap_other by lia. rewrite Hpr5. exact Hpr3.
    + destruct (decide (q = pr - 1)) as [-> | Hne'].
      * rewrite rd_swap_r by lia. apply Hup. lia.
      * rewrite rd_swap_other by lia. apply Hup. lia.
Qed.

(** *** Insertion sort *)

Lemma rd_in_range (t : list nat) (p : nat) :
  Forall (fun x => x < length v) t -> p < length t -> rd t p < length v.
Proof.
  intros Hall Hp. rewrite Forall_forall in Hall. apply Hall.
  eapply list_elem_of_lookup_2. now apply lookup_rd.
Qed.

Lemma shift_length (pl vi : nat) :
  forall fuel t pj, length (npysort.shift lt v fuel t pl vi pj) = length t.
Proof.
  induction fuel as [|f IH]; intros t pj; simpl; [apply length_insert |].
  destruct (_ && _); [| apply length_insert]. now rewrite IH, length_insert.
Qed.

Lemma shift_outside (pl vi : nat) :
  forall fuel t pj p, pl <= pj -> p < pl \/ pj < p ->
    rd (npysort.shift lt v fuel t pl vi pj) p = rd t p.
Proof.
  induction fuel as [|f IH]; intros t pj p Hpl Hp; simpl; [apply rd_insert_ne; lia |].
  destruct (Nat.ltb_spec pl pj) as [Hlt|Hge]; cbn [andb]; [| apply rd_insert_ne; lia].
  destruct (ls vi (rd t (pj - 1))); [| apply rd_insert_ne; lia].
  rewrite IH by lia. apply rd_insert_ne. lia.
Qed.

Lemma shift_Permutation (pl vi : nat) :
  forall fuel t pj, pj < length t ->
    Permutation (npysort.shift lt v fuel t pl vi pj) (<[pj := vi]> t).
Proof.
  induction fuel as [|f IH]; intros t pj Hpj; simpl; [reflexivity |].
  destruct (Nat.ltb_spec pl pj) as [Hlt|Hge]; cbn [andb]; [| reflexivity].
  destruct (ls vi (rd t (pj - 1))); [| reflexivity].
  rewrite IH by (rewrite length_insert; lia).
  (* the hole moves one position down: an exchange of two neighbours *)
  assert (Hswap : <[pj - 1 := vi]> (<[pj := rd t (pj - 1)]> t)
                  = npysort.swap (<[pj := vi]> t) (pj - 1) pj).
  { unfold npysort.swap. rewrite rd_insert_eq by exact Hpj.
    rewrite rd_insert_ne by lia. now rewrite list_insert_insert_eq. }
  rewrite Hswap. apply swap_Permutation; rewrite length_insert; lia.
Qed.

Lemma shift_sorted (pl vi hi : nat) :
  vi < length v ->
  forall fuel t pj,
    pl <= pj -> pj <= hi -> hi < length t -> pj - pl <= fuel ->
    Forall (fun x => x < length v) t ->
    sorted_range ls t pl (pj - 1) ->
    (forall p q, pj < p -> p < q -> q <= hi -> ordered ls t p q) ->
    (forall q, pj < q <= hi -> ls vi (rd t q) = true) ->
    (forall p q, pl <= p < pj -> pj < q <= hi -> ordered ls t p q) ->
    sorted_range ls (npysort.shift lt v fuel t pl vi pj) pl hi.
Proof.
  intros Hvi.
  assert (Hstop : forall t pj,
            pl <= pj -> pj <= hi -> hi < length t ->
            Forall (fun x => x < length v) t ->
            sorted_range ls t pl (pj - 1) ->
            (forall p q, pj < p -> p < q -> q <= hi -> ordered ls t p q) ->
            (forall q, pj < q <= hi -> ls vi (rd t q) = true) ->
            (forall p q, pl <= p < pj -> pj < q <= hi -> ordered ls t p q) ->
            (pl < pj -> ls vi (rd t (pj - 1)) = false) ->
            sorted_range ls (<[pj := vi]> t) pl hi).
  { intros t pj Hpl Hhi Hlen Hwf Hlow Hhigh Hgt Hcross Htest p q Hp Hpq Hq.
    unfold ordered.
    destruct (decide (q = pj)) as [-> | Hqne].
    - rewrite rd_insert_eq by lia. rewrite rd_insert_ne by lia.
      destruct (decide (p = pj - 1)) as [-> | Hpne]; [apply Htest; lia |].
      apply less_trans with (b := rd t (pj - 1)).
      + apply rd_in_range; [exact Hwf | lia].
      + apply Hlow; lia.
      + apply Htest. lia.
    - rewrite (rd_insert_ne _ pj q) by lia.
      destruct (decide (p = pj)) as [-> | Hpne].
      + rewrite rd_insert_eq by lia. apply less_asym. apply Hgt. lia.
      + rewrite rd_insert_ne by lia.
        destruct (decide (q < pj)) as [Hq'|Hq']; [apply Hlow; lia |].
        destruct (decide (p < pj)) as [Hp'|Hp']; [apply Hcross; lia |].
        apply Hhigh; lia. }
  induction fuel as [|f IH]; intros t pj Hpl Hhi Hlen Hfuel Hwf Hlow Hhigh Hgt Hcross.
  - simpl. apply Hstop; try assumption. lia.
  - simpl. destruct (Nat.ltb_spec pl pj) as [Hlt|Hge]; cbn [andb].
    2:{ apply Hstop; try assumption. lia. }
    destruct (ls vi (rd t (pj - 1))) eqn:Htest.
    2:{ apply Hstop; try assumption. auto. }
    apply IH.
    + lia.
    + lia.
    + rewrite length_insert. exact Hlen.
    + lia.
    + apply Forall_insert; [exact Hwf |]. apply rd_in_range; [exact Hwf | lia].
    + intros p q Hp Hpq Hq. unfold ordered. rewrite !rd_insert_ne by lia.
      apply Hlow; lia.
    + intros p q Hp Hpq Hq. unfold ordered. rewrite (rd_insert_ne _ pj q) by lia.
      destruct (decide (p = pj)) as [-> | Hne].
      * rewrite rd_insert_eq by lia. apply Hcross; lia.
      * rewrite rd_insert_ne by lia. apply Hhigh; lia.
    + intros q Hq. destruct (decide (q = pj)) as [-> | Hne].
      * rewrite rd_insert_eq by lia. exact Htest.
      * rewrite rd_insert_ne by lia. apply Hgt. lia.
    + intros p q Hp Hq. unfold ordered. rewrite (rd_insert_ne _ pj p) by lia.
      destruct (decide (q = pj)) as [-> | Hne].
      * rewrite rd_insert_eq by lia. apply Hlow; lia.
      * rewrite rd_insert_ne by lia. apply Hcross; lia.
Qed.

Lemma insertion_from (pl pr : nat) :
  forall k pi t,
    pl < pi -> pi + k <= S pr -> pr < length t ->
    Forall (fun x => x < length v) t ->
    sorted_range ls t pl (pi - 1) ->
    let t' := fold_left (fun t pi => npysort.shift lt v (length t) t pl (rd t pi) pi)
                (seq pi k) t in
    Permutation t' t /\ length t' = length t /\ same_outside t t' pl pr /\
    sorted_range ls t' pl (pi + k - 1).
Proof.
  induction k as [|k IH]; intros pi t Hpl Hk Hpr Hwf Hsorted; cbn [seq fold_left].
  - rewrite Nat.add_0_r. split; [reflexivity |]. split; [reflexivity |].
    split; [intros p _; reflexivity | exact Hsorted].
  - set (t1 := npysort.shift lt v (length t) t pl (rd t pi) pi).
    assert (P1 : Permutation t1 t).
    { unfold t1. rewrite shift_Permutation by lia. now rewrite insert_rd. }
    assert (L1 : length t1 = length t) by apply shift_length.
    assert (W1 : Forall (fun x => x < length v) t1) by (now rewrite P1).
    assert (S1 : sorted_range ls t1 pl pi).
    { unfold t1. apply shift_sorted;
        first [assumption | lia | apply rd_in_range; [exact Hwf | lia] | intros; lia]. }
    destruct (IH (S pi) t1) as (P2 & L2 & O2 & S2); try assumption; try lia.
    { replace (S pi - 1) with pi by lia. exact S1. }
    cbn zeta in *. split; [now rewrite P2 |]. split; [lia |]. split.
    + intros p Hp. rewrite O2 by exact Hp. unfold t1. apply shift_outside; lia.
    + replace (pi + S k - 1) with (S pi + k - 1) by lia. exact S2.
Qed.

Lemma insertion_spec (t : list nat) (pl pr : nat) :
  pl <= pr -> pr < length t -> Forall (fun x => x < length v) t ->
  Permutation (npysort.insertion lt v t pl pr) t /\
  length (npysort.insertion lt v t pl pr) = length t /\
  same_outside t (npysort.insertion lt v t pl pr) pl pr /\
  sorted_range ls (npysort.insertion lt v t pl pr) pl pr.
Proof.
  intros Hpl Hpr Hwf. unfold npysort.insertion.
  destruct (insertion_from pl pr (pr - pl) (S pl) t) as (HP & HL & HO & HS);
    try assumption; try lia.
  { intros p q Hp Hpq Hq. lia. }
  cbn zeta in *. repeat split; try assumption.
  replace (S pl + (pr - pl) - 1) with pr in HS by lia. exact HS.
Qed.

(** *** Entries stay in their range *)

Lemma inside_from_inside (t t' : list nat) (pl pr p : nat) :
  Permutation t' t -> NoDup t -> same_outside t t' pl pr ->
  pl <= p <= pr -> p < length t ->
  exists p', pl <= p' <= pr /\ p' < length t /\ rd t' p = rd t p'.
Proof.
  intros Hperm Hnd Hout Hp Hlen.
  assert (Hlen' : length t' = length t) by now apply Permutation_length.
  assert (Hin : rd t' p ∈ t).
  { rewrite <- Hperm. eapply list_elem_of_lookup_2. apply lookup_rd. lia. }
  apply list_elem_of_lookup in Hin as [p' Hp'].
  pose proof (lookup_lt_Some _ _ _ Hp') as Hlt.
  exists p'. split; [| split; [exact Hlt | symmetry; now apply rd_lookup]].
  destruct (decide (pl <= p' <= pr)) as [Hin | Hnot]; [exact Hin |].
  exfalso.
  assert (Hsame : rd t' p' = rd t' p).
  { rewrite Hout by lia. now apply rd_lookup. }
  assert (Hnd' : NoDup t') by now rewrite Hperm.
  assert (p' = p); [| lia].
  eapply NoDup_lookup; [exact Hnd' | |].
  - apply lookup_rd. lia.
  - rewrite Hsame. apply lookup_rd. lia.
Qed.

(** *** Heapsort *)

Lemma hrd_hwr_eq (t : list nat) (base k x : nat) :
  base + k - 1 < length t -> npysort.hrd (npysort.hwr t base k x) base k = x.
Proof. intros H. unfold npysort.hrd, npysort.hwr. now apply rd_insert_eq. Qed.

Lemma hrd_hwr_ne (t : list nat) (base k k' x : nat) :
  1 <= k -> 1 <= k' -> k <> k' ->
  npysort.hrd (npysort.hwr t base k x) base k' = npysort.hrd t base k'.
Proof. intros H H' Hne. unfold npysort.hrd, npysort.hwr. apply rd_insert_ne. lia. Qed.

Lemma length_hwr (t : list nat) (base k x : nat) :
  length (npysort.hwr t base k x) = length t.
Proof. apply length_insert. Qed.

Lemma sift_length (base n tmp : nat) :
  forall fuel t i j, length (npysort.sift lt v fuel t base n tmp i j) = length t.
Proof.
  induction fuel as [|f IH]; intros t i j; simpl; [apply length_hwr |].
  destruct (j <=? n); [| apply length_hwr].
  destruct (ls tmp _); [| apply length_hwr]. now rewrite IH, length_hwr.
Qed.

Lemma sift_outside (base n tmp : nat) :
  forall fuel t i j p, 1 <= i -> i <= n -> i < j ->
    p < base + i - 1 \/ base + n - 1 < p ->
    rd (npysort.sift lt v fuel t base n tmp i j) p = rd t p.
Proof.
  assert (Hw : forall t i p, 1 <= i -> i <= n ->
                p < base + i - 1 \/ base + n - 1 < p ->
                rd (npysort.hwr t base i tmp) p = rd t p).
  { intros t i p Hi Hn Hp. unfold npysort.hwr. apply rd_insert_ne. lia. }
  induction fuel as [|f IH]; intros t i j p Hi Hn Hij Hp; simpl; [now apply Hw |].
  destruct (Nat.leb_spec j n) as [Hj | Hj]; [| now apply Hw].
  set (j' := if (j <? n) && ls (npysort.hrd t base j) (npysort.hrd t base (S j))
             then S j else j).
  assert (Hj' : j <= j' <= n).
  { unfold j'. destruct (Nat.ltb_spec j n); cbn [andb]; [| lia].
    destruct (ls _ _); lia. }
  destruct (ls tmp (npysort.hrd t base j')); [| now apply Hw].
  rewrite IH by lia. unfold npysort.hwr. apply rd_insert_ne. lia.
Qed.

Lemma sift_Permutation (base n tmp : nat) :
  forall fuel t i j, 1 <= i -> i < j -> base + n <= length t -> i <= n ->
    Permutation (npysort.sift lt v fuel t base n tmp i j) (npysort.hwr t base i tmp).
Proof.
  induction fuel as [|f IH]; intros t i j Hi Hij Hlen Hn; simpl; [reflexivity |].
  destruct (Nat.leb_spec j n) as [Hj | Hj]; [| reflexivity].
  set (j' := if (j <? n) && ls (npysort.hrd t base j) (npysort.hrd t base (S j))
             then S j else j).
  assert (Hj' : j <= j' <= n).
  { unfold j'. destruct (Nat.ltb_spec j n); cbn [andb]; [| lia].
    destruct (ls _ _); lia. }
  destruct (ls tmp (npysort.hrd t base j')); [| reflexivity].
  rewrite IH by (rewrite ?length_hwr; lia).
  assert (Hswap : npysort.hwr (npysort.hwr t base i (npysort.hrd t base j')) base j' tmp
                  = npysort.swap (npysort.hwr t base i tmp) (base + i - 1) (base + j' - 1)).
  { unfold npysort.swap, npysort.hwr, npysort.hrd.
    rewrite (rd_insert_ne _ (base + i - 1) (base + j' - 1)) by lia.
    rewrite rd_insert_eq by lia.
    rewrite (list_insert_insert_ne t (base + j' - 1) (base + i - 1) tmp tmp) by lia.
    rewrite list_insert_insert_eq.
    rewrite (list_insert_insert_ne t (base + j' - 1) (base + i - 1)) by lia.
    reflexivity. }
  rewrite Hswap. apply swap_Permutation; rewrite length_hwr; lia.
Qed.

Lemma hrd_in_range (t : list nat) (base k : nat) :
  Forall (fun x => x < length v) t -> base + k - 1 < length t ->
  npysort.hrd t base k < length v.
Proof. intros Hwf Hk. unfold npysort.hrd. now apply rd_in_range. Qed.

(** Sifting the entry [tmp] down from the hole at node [i]: when the heap
    order holds everywhere but at the hole, it holds everywhere afterwards. *)
Lemma sift_heap (base n lo tmp : nat) :
  tmp < length v ->
  forall fuel t i j,
    j = 2 * i -> 1 <= lo -> lo <= i -> base + n <= length t -> n < fuel + i ->
    Forall (fun x => x < length v) t ->
    (forall k c, lo <= k -> k <> i -> (c = 2 * k \/ c = 2 * k + 1) -> c <= n -> c <> i ->
                 ls (npysort.hrd t base k) (npysort.hrd t base c) = false) ->
    (forall k c, lo <= k -> (i = 2 * k \/ i = 2 * k + 1) ->
                 (c = 2 * i \/ c = 2 * i + 1) -> c <= n ->
                 ls (npysort.hrd t base k) (npysort.hrd t base c) = false) ->
    (forall k, lo <= k -> (i = 2 * k \/ i = 2 * k + 1) ->
               ls (npysort.hrd t base k) tmp = false) ->
    heap_from ls (npysort.sift lt v fuel t base n tmp i j) base lo n.
Proof.
  intros Htmp.
  (* leaving the loop: [tmp] is written into the hole *)
  assert (Hexit : forall t i,
            1 <= lo -> lo <= i -> base + n <= length t ->
            (forall k c, lo <= k -> k <> i -> (c = 2 * k \/ c = 2 * k + 1) -> c <= n ->
                         c <> i ->
                         ls (npysort.hrd t base k) (npysort.hrd t base c) = false) ->
            (forall k, lo <= k -> (i = 2 * k \/ i = 2 * k + 1) ->
                       ls (npysort.hrd t base k) tmp = false) ->
            (forall c, (c = 2 * i \/ c = 2 * i + 1) -> c <= n ->
                       ls tmp (npysort.hrd t base c) = false) ->
            heap_from ls (npysort.hwr t base i tmp) base lo n).
  { intros t i Hlo Hi Hlen H1 H3 Hch k c Hk Hc Hcn.
    destruct (decide (k = i)) as [-> | Hki].
    - rewrite hrd_hwr_eq by lia. rewrite hrd_hwr_ne by lia. now apply Hch.
    - rewrite (hrd_hwr_ne _ _ i k) by lia.
      destruct (decide (c = i)) as [-> | Hci].
      + rewrite hrd_hwr_eq by lia. now apply H3.
      + rewrite hrd_hwr_ne by lia. now apply H1. }
  induction fuel as [|f IH]; intros t i j Hji Hlo Hi Hlen Hfuel Hwf H1 H2 H3.
  - cbn [npysort.sift]. apply Hexit; try assumption. intros c Hc Hcn. lia.
  - cbn [npysort.sift]. destruct (Nat.leb_spec j n) as [Hj | Hj].
    2:{ apply Hexit; try assumption. intros c Hc Hcn. lia. }
    set (j' := if (j <? n) && ls (npysort.hrd t base j) (npysort.hrd t base (S j))
               then S j else j).
    (* the child chosen is not less than the other one *)
    assert (Hsel : j <= j' <= n /\ (j' = j \/ j' = S j) /\
                   forall c, (c = j \/ c = S j) -> c <= n ->
                             ls (npysort.hrd t base j') (npysort.hrd t base c) = false).
    { unfold j'. destruct (Nat.ltb_spec j n) as [Hlt | Hge]; cbn [andb].
      - destruct (ls (npysort.hrd t base j) (npysort.hrd t base (S j))) eqn:Hless.
        + split; [lia |]. split; [auto |]. intros c [-> | ->] Hcn.
          * now apply less_asym.
          * apply less_irrefl.
        + split; [lia |]. split; [auto |]. intros c [-> | ->] Hcn.
          * apply less_irrefl.
          * exact Hless.
      - split; [lia |]. split; [auto |]. intros c [-> | ->] Hcn; [apply less_irrefl | lia]. }
    destruct Hsel as (Hj' & Hjj & Hsel).
    destruct (ls tmp (npysort.hrd t base j')) eqn:Htest.
    + (* the child moves up, the hole moves down *)
      apply IH.
      * lia.
      * exact Hlo.
      * lia.
      * rewrite length_hwr. exact Hlen.
      * lia.
      * apply Forall_insert; [exact Hwf |]. apply hrd_in_range; [exact Hwf | lia].
      * intros k c Hk Hkj Hc Hcn Hcj.
        destruct (decide (k = i)) as [-> | Hki].
        -- rewrite hrd_hwr_eq by lia. rewrite hrd_hwr_ne by lia.
           apply Hsel; [| exact Hcn]. lia.
        -- rewrite (hrd_hwr_ne _ _ i k) by lia.
           destruct (decide (c = i)) as [-> | Hci].
           ++ rewrite hrd_hwr_eq by lia. apply H2; try assumption; lia.
           ++ rewrite hrd_hwr_ne by lia. now apply H1.
      * intros k c Hk Hchild Hc Hcn.
        assert (k = i) as -> by lia.
        rewrite hrd_hwr_eq by lia. rewrite hrd_hwr_ne by lia.
        apply H1; try assumption; lia.
      * intros k Hk Hchild.
        assert (k = i) as -> by lia.
        rewrite hrd_hwr_eq by lia. now apply less_asym.
    + apply Hexit; try assumption.
      intros c Hc Hcn.
      apply less_trans with (b := npysort.hrd t base j').
      * apply hrd_in_range; [exact Hwf | lia].
      * apply Hsel; [lia | exact Hcn].
      * exact Htest.
Qed.

(** In a heap the root is not less than any node. *)
Lemma root_is_max (t : list nat) (base m : nat) :
  Forall (fun x => x < length v) t -> base + m <= length t ->
  heap_from ls t base 1 m ->
  forall k, 1 <= k <= m -> ls (npysort.hrd t base 1) (npysort.hrd t base k) = false.
Proof.
  intros Hwf Hlen Hheap k. induction k as [k IH] using lt_wf_ind. intros Hk.
  destruct (decide (k = 1)) as [-> | Hne]; [apply less_irrefl |].
  pose proof (Nat.div_mod_eq k 2) as Hd.
  pose proof (Nat.mod_upper_bound k 2 ltac:(lia)) as Hm.
  apply less_trans with (b := npysort.hrd t base (k / 2)).
  - apply hrd_in_range; [exact Hwf | lia].
  - apply Hheap; lia.
  - apply IH; lia.
Qed.

(** The first loop of heapsort builds a heap. *)
Lemma build_heap (base n : nat) :
  forall h t,
    2 * h <= n -> base + n <= length t -> Forall (fun x => x < length v) t ->
    heap_from ls t base (S h) n ->
    let t' := fold_left
                (fun t l => npysort.sift lt v n t base n (npysort.hrd t base l) l (2 * l))
                (rev (seq 1 h)) t in
    Permutation t' t /\ length t' = length t /\ same_outside t t' base (base + n - 1) /\
    heap_from ls t' base 1 n.
Proof.
  induction h as [|h IH]; intros t Hh Hlen Hwf Hheap.
  - cbn. split; [reflexivity |]. split; [reflexivity |].
    split; [intros p _; reflexivity | exact Hheap].
  - rewrite seq_S, rev_unit. cbn [fold_left]. change (1 + h) with (S h).
    set (t1 := npysort.sift lt v n t base n (npysort.hrd t base (S h)) (S h) (2 * S h)).
    assert (P1 : Permutation t1 t).
    { unfold t1. rewrite sift_Permutation by lia. unfold npysort.hwr, npysort.hrd.
      now rewrite insert_rd. }
    assert (L1 : length t1 = length t) by apply sift_length.
    assert (O1 : same_outside t t1 base (base + n - 1)).
    { intros p Hp. unfold t1. apply sift_outside; lia. }
    assert (H1 : heap_from ls t1 base (S h) n).
    { unfold t1. apply sift_heap;
        first [ assumption | lia | apply hrd_in_range; [exact Hwf | lia]
              | intros; first [lia | apply Hheap; lia] ]. }
    destruct (IH t1) as (P2 & L2 & O2 & H2); try assumption; try lia.
    { now rewrite P1. }
    cbn zeta in *. split; [now rewrite P2 |]. split; [lia |]. split; [| exact H2].
    intros p Hp. rewrite O2 by exact Hp. now apply O1.
Qed.

(** The second loop moves the root behind the heap, again and again. *)
Lemma extract_all (base n : nat) :
  forall h t,
    S h <= n -> base + n <= length t -> Forall (fun x => x < length v) t -> NoDup t ->
    heap_from ls t base 1 (S h) ->
    (forall k q, S h < k -> k < q -> q <= n ->
                 ls (npysort.hrd t base q) (npysort.hrd t base k) = false) ->
    (forall k q, 1 <= k <= S h -> S h < q <= n ->
                 ls (npysort.hrd t base q) (npysort.hrd t base k) = false) ->
    let t' := fold_left
                (fun t n =>
                   let tmp := npysort.hrd t base n in
                   let t := npysort.hwr t base n (npysort.hrd t base 1) in
                   npysort.sift lt v n t base (n - 1) tmp 1 2)
                (rev (seq 2 h)) t in
    Permutation t' t /\ length t' = length t /\ same_outside t t' base (base + n - 1) /\
    forall k q, 1 <= k -> k < q -> q <= n ->
                ls (npysort.hrd t' base q) (npysort.hrd t' base k) = false.
Proof.
  induction h as [|h IH]; intros t Hh Hlen Hwf Hnd Hheap Hsuffix Hcross.
  - cbn. split; [reflexivity |]. split; [reflexivity |].
    split; [intros p _; reflexivity |]. intros k q Hk Hkq Hq.
    destruct (decide (k = 1)) as [-> | Hne]; [apply Hcross; lia | apply Hsuffix; lia].
  - rewrite seq_S, rev_unit. cbn [fold_left]. change (2 + h) with (S (S h)).
    cbn zeta. remember (S (S h)) as m eqn:Hm.
    set (tmp := npysort.hrd t base m).
    set (t1 := npysort.hwr t base m (npysort.hrd t base 1)).
    set (t2 := npysort.sift lt v m t1 base (m - 1) tmp 1 2).
    set (u := npysort.hwr t1 base 1 tmp).
    assert (Hu : u = npysort.swap t (base + 1 - 1) (base + m - 1)).
    { reflexivity. }
    assert (Pu : Permutation u t) by (rewrite Hu; apply swap_Permutation; lia).
    assert (L1 : length t1 = length t) by apply length_hwr.
    assert (P2 : Permutation t2 t).
    { unfold t2. rewrite sift_Permutation by lia. exact Pu. }
    assert (L2 : length t2 = length t).
    { unfold t2. now rewrite sift_length. }
    assert (Hhigh : forall k, m <= k -> npysort.hrd t2 base k = npysort.hrd t1 base k).
    { intros k Hk. unfold npysort.hrd, t2. apply sift_outside; lia. }
    assert (O2 : same_outside t t2 base (base + n - 1)).
    { intros p Hp. unfold t2. rewrite sift_outside by lia.
      unfold t1, npysort.hwr. apply rd_insert_ne. lia. }
    assert (Ou : same_outside u t2 base (base + (m - 1) - 1)).
    { intros p Hp. unfold t2. rewrite sift_outside by lia.
      unfold u, npysort.hwr. symmetry. apply rd_insert_ne. lia. }
    assert (W1 : Forall (fun x => x < length v) t1).
    { apply Forall_insert; [exact Hwf |]. apply hrd_in_range; [exact Hwf | lia]. }
    assert (H2 : heap_from ls t2 base 1 (S h)).
    { unfold t2. replace (m - 1) with (S h) by lia.
      apply sift_heap;
        first [ assumption | lia | apply hrd_in_range; [exact Hwf | lia]
              | intros; first [lia | unfold t1; rewrite !hrd_hwr_ne by lia; apply Hheap; lia] ]. }
    (* every entry left in the heap was in the heap before *)
    assert (Hfrom : forall k, 1 <= k <= S h ->
              exists k', 1 <= k' <= m /\ npysort.hrd t2 base k = npysort.hrd t base k').
    { intros k Hk.
      destruct (inside_from_inside u t2 base (base + (m - 1) - 1) (base + k - 1))
        as (p' & Hp' & Hlt & Heq).
      - now rewrite P2, Pu.
      - now rewrite Pu.
      - exact Ou.
      - lia.
      - rewrite (Permutation_length Pu). lia.
      - unfold npysort.hrd at 1. rewrite Heq.
        destruct (decide (p' = base + 1 - 1)) as [-> | Hne].
        + exists m. split; [lia |]. unfold u. fold (npysort.hrd (npysort.hwr t1 base 1 tmp) base 1).
          rewrite hrd_hwr_eq by lia. reflexivity.
        + exists (p' - base + 1). split; [lia |].
          unfold u, t1, npysort.hwr, npysort.hrd. rewrite !rd_insert_ne by lia.
          f_equal. lia. }
    destruct (IH t2) as (P3 & L3 & O3 & S3); try assumption; try lia.
    + now rewrite P2.
    + now rewrite P2.
    + intros k q Hk Hkq Hq. rewrite !Hhigh by lia. unfold t1.
      rewrite (hrd_hwr_ne _ _ m q) by lia.
      destruct (decide (k = m)) as [-> | Hne].
      * rewrite hrd_hwr_eq by lia. apply Hcross; lia.
      * rewrite hrd_hwr_ne by lia. apply Hsuffix; lia.
    + intros k q Hk Hq. destruct (Hfrom k Hk) as (k' & Hk' & ->).
      rewrite Hhigh by lia. unfold t1.
      destruct (decide (q = m)) as [-> | Hne].
      * rewrite hrd_hwr_eq by lia. apply root_is_max with (m := m); try assumption; lia.
      * rewrite hrd_hwr_ne by lia. apply Hcross; lia.
    + cbn zeta in *. split; [now rewrite P3 |]. split; [lia |]. split; [| exact S3].
      intros p Hp. rewrite O3 by exact Hp. now apply O2.
Qed.

Lemma aheapsort_spec (t : list nat) (base n : nat) :
  1 <= n -> base + n <= length t -> Forall (fun x => x < length v) t -> NoDup t ->
  Permutation (npysort.aheapsort lt v t base n) t /\
  length (npysort.aheapsort lt v t base n) = length t /\
  same_outside t (npysort.aheapsort lt v t base n) base (base + n - 1) /\
  sorted_range ls (npysort.aheapsort lt v t base n) base (base + n - 1).
Proof.
  intros Hn Hlen Hwf Hnd. unfold npysort.aheapsort.
  pose proof (Nat.div_mod_eq n 2) as Hd.
  pose proof (Nat.mod_upper_bound n 2 ltac:(lia)) as Hm.
  rewrite Nat.shiftr_div_pow2. change (2 ^ 1) with 2.
  destruct (build_heap base n (n / 2) t) as (P1 & L1 & O1 & H1); try assumption; try lia.
  { intros k c Hk Hc Hcn. lia. }
  cbn zeta in *.
  set (t1 := fold_left _ (rev (seq 1 (n / 2))) t) in *.
  assert (W1 : Forall (fun x => x < length v) t1) by now rewrite P1.
  assert (N1 : NoDup t1) by now rewrite P1.
  assert (H1' : heap_from ls t1 base 1 (S (n - 1))).
  { replace (S (n - 1)) with n by lia. exact H1. }
  destruct (extract_all base n (n - 1) t1 ltac:(lia) ltac:(lia) W1 N1 H1')
    as (P2 & L2 & O2 & S2).
  - intros k q Hk Hkq Hq. lia.
  - intros k q Hk Hq. lia.
  - cbn zeta in *. split; [now rewrite P2 |]. split; [lia |]. split.
    + intros p Hp. rewrite O2 by exact Hp. now apply O1.
    + intros p q Hp Hpq Hq. unfold ordered.
      specialize (S2 (p - base + 1) (q - base + 1) ltac:(lia) ltac:(lia) ltac:(lia)).
      unfold npysort.hrd in S2.
      replace (base + (q - base + 1) - 1) with q in S2 by lia.
      replace (base + (p - base + 1) - 1) with p in S2 by lia. exact S2.
Qed.

(** *** The stack of pending ranges *)

Lemma apart_app (l1 l2 : list (nat * nat)) :
  apart l1 -> apart l2 ->
  (forall s1 s2, s1 ∈ l1 -> s2 ∈ l2 -> s1.2 < s2.1 \/ s2.2 < s1.1) ->
  apart (l1 ++ l2).
Proof.
  induction l1 as [|s l1 IH]; intros H1 H2 Hcross; [exact H2 |].
  destruct H1 as [Hs H1]. cbn [app apart]. split.
  - apply Forall_app. split; [exact Hs |].
    apply Forall_forall. intros s2 Hs2. apply Hcross; [apply list_elem_of_here | exact Hs2].
  - apply IH; [exact H1 | exact H2 |].
    intros s1 s2 Hs1 Hs2. apply Hcross; [now apply list_elem_of_further | exact Hs2].
Qed.

Lemma pending_wf (t : list nat) (segs : list (nat * nat)) :
  pending ls (length v) t segs ->
  length t = length v /\ NoDup t /\ Forall (fun x => x < length v) t.
Proof.
  intros (Hperm & _). split; [| split].
  - rewrite (Permutation_length Hperm). apply length_seq.
  - rewrite Hperm. apply NoDup_ListNoDup, seq_NoDup.
  - rewrite Hperm. apply Forall_forall. intros x Hx.
    apply list_elem_of_In, in_seq in Hx. lia.
Qed.

(** Working on the range [a..b]: the entries outside stay, those inside
    stay inside, two entries inside end up in order or in one of the ranges
    [subs] left pending. *)
Lemma pending_step (t t' : list nat) (a b : nat) (subs post : list (nat * nat)) :
  pending ls (length v) t ((a, b) :: post) ->
  Permutation t' t -> same_outside t t' a b ->
  Forall (fun s => a <= s.1 /\ s.1 <= s.2 /\ s.2 <= b) subs -> apart subs ->
  (forall p q, a <= p -> p < q -> q <= b ->
     ordered ls t' p q \/ exists s, s ∈ subs /\ s.1 <= p /\ q <= s.2) ->
  pending ls (length v) t' (subs ++ post).
Proof.
  intros Hpend Hperm Hout Hsubs Hapart Hin.
  destruct (pending_wf _ _ Hpend) as (Hlen & Hnd & Hwf).
  destruct Hpend as (Hp0 & Hbounds & [Hab Hpost] & Hord).
  apply Forall_cons in Hbounds as [[Ha Hb] Hbounds]. cbn [fst snd] in *.
  rewrite Forall_forall in Hab.
  split; [now rewrite Hperm |]. split; [| split].
  - apply Forall_app. split; [| exact Hbounds].
    eapply Forall_impl; [exact Hsubs |]. intros s (? & ? & ?). split; lia.
  - apply apart_app; [exact Hapart | exact Hpost |].
    intros s1 s2 Hs1 Hs2. rewrite Forall_forall in Hsubs.
    destruct (Hsubs _ Hs1) as (? & ? & ?). destruct (Hab _ Hs2); lia.
  - intros p q Hpq Hq.
    (* an old fact about two positions, one of them outside [a..b] *)
    assert (Hold : forall p' q', p' < q' -> q' < length v ->
              ~ (a <= p' /\ q' <= b) -> (a <= p' <= b \/ a <= q' <= b) ->
              ordered ls t p' q').
    { intros p' q' Hpq' Hq' Hnot Hone.
      destruct (Hord p' q' Hpq' Hq') as [Ho | (s & Hs & Hs1 & Hs2)]; [exact Ho |].
      apply elem_of_cons in Hs as [-> | Hs]; [cbn [fst snd] in *; lia |].
      destruct (Hab _ Hs); lia. }
    destruct (decide (a <= p <= b)) as [Hpin | Hpout];
      destruct (decide (a <= q <= b)) as [Hqin | Hqout].
    + destruct (Hin p q) as [Ho | (s & Hs & Hs1 & Hs2)]; try lia; [now left |].
      right. exists s. split; [| split; assumption].
      apply elem_of_app. now left.
    + left. unfold ordered. rewrite (Hout q) by lia.
      destruct (inside_from_inside t t' a b p Hperm Hnd Hout Hpin ltac:(lia))
        as (p' & Hp' & _ & ->).
      apply Hold; lia.
    + left. unfold ordered. rewrite (Hout p) by lia.
      destruct (inside_from_inside t t' a b q Hperm Hnd Hout Hqin ltac:(lia))
        as (q' & Hq' & _ & ->).
      apply Hold; lia.
    + unfold ordered. rewrite (Hout p), (Hout q) by lia.
      destruct (Hord p q Hpq Hq) as [Ho | (s & Hs & Hs1 & Hs2)]; [now left |].
      apply elem_of_cons in Hs as [-> | Hs]; [cbn [fst snd] in *; lia |].
      right. exists s. split; [| split; assumption].
      apply elem_of_app. now right.
Qed.

Lemma positions_cons (a b : nat) (segs : list (nat * nat)) :
  positions ((a, b) :: segs) = b - a + 1 + positions segs.
Proof. reflexivity. Qed.

(** *** The inner loop: partitioning down to a small range *)

Lemma split_spec :
  forall fuel t pl pr stack cdepth,
    pending ls (length v) t ((pl, pr) :: ranges stack) ->
    let '(t1, pl1, pr1, stack1, _) := npysort.split lt v fuel t pl pr stack cdepth in
    pending ls (length v) t1 ((pl1, pr1) :: ranges stack1) /\
    positions ((pl1, pr1) :: ranges stack1) <= positions ((pl, pr) :: ranges stack).
Proof.
  induction fuel as [|f IH]; intros t pl pr stack cdepth Hpend;
    cbn [npysort.split]; [split; [exact Hpend | lia] |].
  destruct (Nat.ltb_spec npysort.SMALL_QUICKSORT (pr - pl)) as [Hbig | Hsmall];
    [| split; [exact Hpend | lia]].
  destruct (pending_wf _ _ Hpend) as (Hlen & Hnd & Hwf).
  assert (Hpr : pr < length t).
  { destruct Hpend as (_ & Hb & _). apply Forall_cons in Hb as [[_ Hb] _].
    cbn [snd] in Hb. lia. }
  destruct (partition_spec t pl pr Hbig Hpr) as (P1 & L1 & O1 & Hpi & Hleft & Hright).
  destruct (npysort.partition lt v t pl pr) as [t1 pi]. cbn [fst snd] in *.
  assert (Hinside : forall p q, pl <= p -> p < q -> q <= pr ->
            ordered ls t1 p q \/
            ((pl <= p /\ q <= pi - 1) \/ (S pi <= p /\ q <= pr))).
  { intros p q Hp Hpq Hq.
    destruct (decide (q < pi)) as [Hq' | Hq']; [right; left; lia |].
    destruct (decide (pi < p)) as [Hp' | Hp']; [right; right; lia |].
    left. destruct (decide (q = pi)) as [-> | Hqne]; [apply Hleft; lia |].
    destruct (decide (p = pi)) as [-> | Hpne]; [apply Hright; lia |].
    unfold ordered.
    apply less_trans with (b := rd t1 pi).
    - apply rd_in_range; [now rewrite P1 | lia].
    - apply Hleft. lia.
    - apply Hright. lia. }
  destruct (Nat.ltb_spec (pi - pl) (pr - pi)) as [Hsmaller | Hlarger].
  - specialize (IH t1 pl (pi - 1) ((S pi, pr, (cdepth - 1)%Z) :: stack) (cdepth - 1)%Z).
    destruct (npysort.split lt v f t1 pl (pi - 1) _ _) as [[[[t2 pl2] pr2] stack2] cd2].
    destruct IH as [Hpend2 Hpos2].
    + change (ranges ((S pi, pr, (cdepth - 1)%Z) :: stack))
        with ((S pi, pr) :: ranges stack).
      apply (pending_step t t1 pl pr [(pl, pi - 1); (S pi, pr)] (ranges stack));
        try assumption.
      * repeat constructor; cbn [fst snd]; lia.
      * cbn. repeat split; try constructor; auto. cbn. lia.
      * intros p q Hp Hpq Hq. destruct (Hinside p q Hp Hpq Hq) as [Ho | [Hl | Hr]].
        -- now left.
        -- right. exists (pl, pi - 1). split; [apply list_elem_of_here | exact Hl].
        -- right. exists (S pi, pr).
           split; [apply list_elem_of_further, list_elem_of_here | exact Hr].
    + split; [exact Hpend2 |].
      change (ranges ((S pi, pr, (cdepth - 1)%Z) :: stack))
        with ((S pi, pr) :: ranges stack) in Hpos2.
      rewrite !positions_cons in *. lia.
  - specialize (IH t1 (S pi) pr ((pl, pi - 1, (cdepth - 1)%Z) :: stack) (cdepth - 1)%Z).
    destruct (npysort.split lt v f t1 (S pi) pr _ _) as [[[[t2 pl2] pr2] stack2] cd2].
    destruct IH as [Hpend2 Hpos2].
    + change (ranges ((pl, pi - 1, (cdepth - 1)%Z) :: stack))
        with ((pl, pi - 1) :: ranges stack).
      apply (pending_step t t1 pl pr [(S pi, pr); (pl, pi - 1)] (ranges stack));
        try assumption.
      * repeat constructor; cbn [fst snd]; lia.
      * cbn. repeat split; try constructor; auto. cbn. lia.
      * intros p q Hp Hpq Hq. destruct (Hinside p q Hp Hpq Hq) as [Ho | [Hl | Hr]].
        -- now left.
        -- right. exists (pl, pi - 1).
           split; [apply list_elem_of_further, list_elem_of_here | exact Hl].
        -- right. exists (S pi, pr). split; [apply list_elem_of_here | exact Hr].
    + split; [exact Hpend2 |].
      change (ranges ((pl, pi - 1, (cdepth - 1)%Z) :: stack))
        with ((pl, pi - 1) :: ranges stack) in Hpos2.
      rewrite !positions_cons in *. lia.
Qed.

(** *** The outer loop *)

Lemma sorted_range_done (t t' : list nat) (pl pr : nat) (post : list (nat * nat)) :
  pending ls (length v) t ((pl, pr) :: post) ->
  Permutation t' t -> same_outside t t' pl pr -> sorted_range ls t' pl pr ->
  pending ls (length v) t' post.
Proof.
  intros Hpend Hperm Hout Hsorted.
  apply (pending_step t t' pl pr [] post); try assumption.
  - constructor.
  - exact I.
  - intros p q Hp Hpq Hq. left. now apply Hsorted.
Qed.

Lemma run_spec :
  forall fuel t pl pr stack cdepth,
    pending ls (length v) t ((pl, pr) :: ranges stack) ->
    positions ((pl, pr) :: ranges stack) < fuel ->
    pending ls (length v) (npysort.run lt v fuel t pl pr stack cdepth) [].
Proof.
  induction fuel as [|f IH]; intros t pl pr stack cdepth Hpend Hfuel; [lia |].
  cbn [npysort.run].
  (* the range at hand is sorted, by heapsort or by partitions and insertion *)
  assert (Hround :
    let '(t2, stack2) :=
      if (cdepth <? 0)%Z then (npysort.aheapsort lt v t pl (pr - pl + 1), stack)
      else
        let '(t1, pl1, pr1, stack1, _) :=
          npysort.split lt v (length t) t pl pr stack cdepth in
        (npysort.insertion lt v t1 pl1 pr1, stack1)
    in pending ls (length v) t2 (ranges stack2) /\
       positions (ranges stack2) < f).
  { destruct (pending_wf _ _ Hpend) as (Hlen & Hnd & Hwf).
    destruct (cdepth <? 0)%Z.
    - assert (Hb : pl <= pr /\ pr < length v).
      { destruct Hpend as (_ & Hb & _). now apply Forall_cons in Hb as [Hb _]. }
      destruct (aheapsort_spec t pl (pr - pl + 1)) as (P1 & L1 & O1 & S1);
        try assumption; try lia.
      replace (pl + (pr - pl + 1) - 1) with pr in * by lia.
      split; [eapply sorted_range_done; eassumption |].
      rewrite positions_cons in Hfuel. lia.
    - pose proof (split_spec (length t) t pl pr stack cdepth Hpend) as Hsplit.
      destruct (npysort.split lt v (length t) t pl pr stack cdepth)
        as [[[[t1 pl1] pr1] stack1] cd1].
      destruct Hsplit as [Hpend1 Hpos1].
      destruct (pending_wf _ _ Hpend1) as (Hlen1 & Hnd1 & Hwf1).
      assert (Hb : pl1 <= pr1 /\ pr1 < length v).
      { destruct Hpend1 as (_ & Hb & _). now apply Forall_cons in Hb as [Hb _]. }
      destruct (insertion_spec t1 pl1 pr1) as (P2 & L2 & O2 & S2);
        try assumption; try lia.
      split; [eapply sorted_range_done; eassumption |].
      rewrite !positions_cons in Hpos1. rewrite positions_cons in Hfuel. lia. }
  destruct (if (cdepth <? 0)%Z then _ else _) as [t2 stack2].
  destruct Hround as [Hpend2 Hpos2].
  destruct stack2 as [|[[pl2 pr2] cd2] stack2]; [exact Hpend2 |].
  apply IH; assumption.
Qed.

(** [npy_aquicksort] returns the positions of the keys in ascending order
    of the keys. *)
Lemma aquicksort_sorts :
  Permutation (npysort.aquicksort lt v) (seq 0 (length v)) /\
  forall p q, p < q -> q < length v -> ordered ls (npysort.aquicksort lt v) p q.
Proof.
  assert (Hpend : pending ls (length v) (npysort.aquicksort lt v) []).
  { unfold npysort.aquicksort. destruct (decide (length v = 0)) as [Hz | Hnz].
    - rewrite Hz. cbn. split; [reflexivity |]. split; [constructor |].
      split; [exact I |]. intros p q Hpq Hq. lia.
    - apply run_spec.
      + split; [reflexivity |]. split; [| split].
        * constructor; [cbn; lia | constructor].
        * cbn. auto.
        * intros p q Hpq Hq. right. exists (0, length v - 1).
          split; [apply list_elem_of_here | cbn; lia].
      + rewrite positions_cons. cbn. lia. }
  destruct Hpend as (Hperm & _ & _ & Hord). split; [exact Hperm |].
  intros p q Hpq Hq. destruct (Hord p q Hpq Hq) as [Ho | (s & Hs & _)]; [exact Ho |].
  inversion Hs.
Qed.

End introsort.

(** *** Python's order on strings *)

Lemma ascii_compare_lt_trans (a b c : ascii) :
  Ascii.compare a b = Lt -> Ascii.compare b c = Lt -> Ascii.compare a c = Lt.
Proof.
  unfold Ascii.compare. rewrite !N.compare_lt_iff. apply N.lt_trans.
Qed.

Lemma string_compare_lt_trans :
  forall a b c : string,
    String.compare a b = Lt -> String.compare b c = Lt -> String.compare a c = Lt.
Proof.
  induction a as [|x a IH]; intros [|y b] [|z c]; simpl; try congruence.
  destruct (Ascii.compare x y) eqn:Hxy; try discriminate;
    destruct (Ascii.compare y z) eqn:Hyz; try discriminate.
  - apply Ascii.compare_eq_iff in Hxy, Hyz. subst.
    replace (Ascii.compare z z) with Eq; [apply IH |].
    symmetry. unfold Ascii.compare. apply N.compare_refl.
  - apply Ascii.compare_eq_iff in Hxy. subst. now rewrite Hyz.
  - apply Ascii.compare_eq_iff in Hyz. subst. now rewrite Hxy.
  - now rewrite (ascii_compare_lt_trans _ _ _ Hxy Hyz).
Qed.

Lemma str_lt_asym (x y : string) :
  npysort.str_lt x y = true -> npysort.str_lt y x = false.
Proof.
  unfold npysort.str_lt, String.ltb. rewrite (String.compare_antisym x y).
  destruct (String.compare y x); simpl; congruence.
Qed.

Lemma str_le_trans (x y z : string) :
  npysort.str_lt y x = false -> npysort.str_lt z y = false -> npysort.str_lt z x = false.
Proof.
  unfold npysort.str_lt, String.ltb. intros Hyx Hzy.
  destruct (String.compare z x) eqn:Hzx; try reflexivity. exfalso.
  destruct (String.compare z y) eqn:E1; try discriminate.
  - apply String.compare_eq_iff in E1. subst. now rewrite Hzx in Hyx.
  - assert (E2 : String.compare y z = Lt).
    { rewrite String.compare_antisym, E1. reflexivity. }
    now rewrite (string_compare_lt_trans _ _ _ E2 Hzx) in Hyx.
Qed.

(** *** pandas' one-column sorter on a column of strings *)

Lemma mapM_as_str (days : list string) : mapM pandas.as_str (PStr <$> days) = Some days.
Proof.
  induction days as [|d days IH]; [reflexivity |].
  cbn [fmap list_fmap mapM]. cbn [fmap list_fmap] in IH. rewrite IH. reflexivity.
Qed.

Lemma StronglySorted_pairwise {A : Type} (R : A -> A -> Prop) (d : A) :
  forall l : list A,
    (forall p q, p < q -> q < length l -> R (nth p l d) (nth q l d)) ->
    StronglySorted R l.
Proof.
  induction l as [|x l IH]; intros H; constructor.
  - apply IH. intros p q Hpq Hq. apply (H (S p) (S q)); simpl; lia.
  - apply Forall_forall. intros y Hy. apply list_elem_of_In in Hy.
    apply (In_nth _ _ d) in Hy as (q & Hq & <-).
    apply (H 0 (S q)); simpl; lia.
Qed.

Lemma nth_pick {A : Type} (l : list A) (d : A) (t : list nat) (p : nat) :
  p < length t -> nth p ((fun i => nth i l d) <$> t) d = nth (npysort.rd t p) l d.
Proof.
  intros Hp. apply nth_lookup_Some. rewrite list_lookup_fmap, (lookup_rd t p Hp).
  reflexivity.
Qed.

Lemma lookup_nth {A : Type} (l : list A) (d : A) (i : nat) :
  i < length l -> l !! i = Some (nth i l d).
Proof.
  intros Hi. destruct (lookup_lt_is_Some_2 l i Hi) as [x Hx].
  now rewrite (nth_lookup_Some _ _ d _ Hx).
Qed.

(** On a column of strings, [nargsort] gives the positions of the column in
    ascending order. *)
Lemma nargsort_sorts_strings (days : list string) :
  exists indexer,
    pandas.nargsort (PStr <$> days) = Ok indexer /\ sorts days indexer.
Proof.
  exists (npysort.aquicksort npysort.str_lt days). split.
  - unfold pandas.nargsort. now rewrite mapM_as_str.
  - destruct (aquicksort_sorts npysort.str_lt days str_lt_asym str_le_trans)
      as [Hperm Hord].
    split; [exact Hperm |].
    set (t := npysort.aquicksort npysort.str_lt days) in *.
    assert (Hlen : length t = length days).
    { rewrite (Permutation_length Hperm). apply length_seq. }
    assert (Hwf : forall p, p < length days -> npysort.rd t p < length days).
    { intros p Hp. assert (Hin : npysort.rd t p ∈ t).
      { eapply list_elem_of_lookup_2. apply lookup_rd. lia. }
      apply list_elem_of_In in Hin. apply (Permutation_in _ Hperm) in Hin.
      apply in_seq in Hin. lia. }
    apply (StronglySorted_pairwise _ ""). unfold pick. rewrite length_fmap.
    intros p q Hpq Hq.
    rewrite !(nth_pick days "" t) by lia.
    specialize (Hord p q Hpq ltac:(lia)). unfold ordered, npysort.less in Hord.
    rewrite !(lookup_nth days "") in Hord by (apply Hwf; lia).
    exact Hord.
Qed.

(* ===================================================================== *)
(** ** io.py: sort by date, the result *)
(* ===================================================================== *)

(** [sort(hduls, by="date")] follows the one-column sorter: whenever that
    returns the positions of the column of calendar days in ascending order,
    [sort] returns the files at those positions. *)
Lemma sort_by_date_follows_the_sorter
  (nargsort : list pyval -> result (list nat))
  (lexsort_indexer : list (list pyval) -> result (list nat))
  (hduls : list HDUList) (days : list string) (indexer : list nat) :
  Forall2 has_day hduls days ->
  nargsort (PStr <$> days) = Ok indexer ->
  sorts days indexer ->
  io.sort nargsort lexsort_indexer hduls (io.Str "date") = Ok (pick hduls [] indexer) /\
  Permutation (pick hduls [] indexer) hduls /\
  ascending_by_day (pick hduls [] indexer).
Proof.
  intros Hdays Hsort [Hperm Hasc].
  pose proof (Forall2_length _ _ _ Hdays) as Hlen.
  rewrite <- Hlen in Hperm.
  pose proof (indexer_in_range _ _ Hperm) as Hidx.
  split; [| split].
  - unfold io.sort.
    assert (Hcol : comprehension (fun hdul => io._get_header_entry hdul "date") hduls
                   = Ok (PStr <$> days)).
    { apply Forall2_comprehension. apply Forall2_fmap_r. exact Hdays. }
    cbn [comprehension]. rewrite Hcol. cbn [mbind result_bind].
    unfold io.dict_update. cbn [fold_left io.dict_set fst snd String.eqb Ascii.eqb Bool.eqb].
    unfold io.pd_DataFrame. cbn [forallb snd].
    rewrite length_fmap, <- Hlen. unfold io.range at 1. rewrite length_fmap, length_seq.
    rewrite Nat.eqb_refl. cbn [andb mbind result_bind].
    unfold io.sort_values. cbn [comprehension].
    rewrite df_date_column. cbn [mbind result_bind].
    rewrite Hsort. cbn [mbind result_bind].
    rewrite df_take_index_column. cbn [mbind result_bind].
    apply index_column_picks. exact Hidx.
  - apply pick_permutation. exact Hperm.
  - exists (pick days "" indexer). split; [| exact Hasc].
    apply pick_Forall2; assumption.
Qed.

(** C6, amended: on a collection of files whose entry under "date" is a
    string (the part of DATE-OBS before "T", the empty string without the
    card), [sort(hduls, by="date")], run with pandas' sorter of the default
    kind (numpy's quicksort), returns a permutation of the collection in
    ascending order of calendar day. Nothing is said of the order of the
    files of one day: that is what the quicksort leaves. *)
Theorem sort_by_date_ascending (hduls : list HDUList) (days : list string) :
  Forall2 has_day hduls days ->
  exists sorted : list HDUList,
    io.sort pandas.nargsort pandas.lexsort_indexer hduls (io.Str "date") = Ok sorted /\
    Permutation sorted hduls /\
    ascending_by_day sorted.
Proof.
  intros Hdays. destruct (nargsort_sorts_strings days) as (indexer & Hsort & Hsorts).
  exists (pick hduls [] indexer).
  exact (sort_by_date_follows_the_sorter pandas.nargsort pandas.lexsort_indexer
           hduls days indexer Hdays Hsort Hsorts).
Qed.

(** The scenario of the specification: three files of 2023-05-02,
    2023-05-01 and 2023-05-02 come back as the second, the first and the
    third. *)
Lemma sort_by_date_witness :
  (exists sorted : list HDUList,
     io.sort pandas.nargsort pandas.lexsort_indexer
       [Samples.file_full; Samples.file_bare; Samples.file_no_vis] (io.Str "date")
     = Ok sorted /\
     Permutation sorted [Samples.file_full; Samples.file_bare; Samples.file_no_vis] /\
     ascending_by_day sorted) /\
  io.sort pandas.nargsort pandas.lexsort_indexer
    [Samples.file_full; Samples.file_bare; Samples.file_no_vis] (io.Str "date")
  = Ok [Samples.file_bare; Samples.file_full; Samples.file_no_vis].
Proof.
  split.
  - apply (sort_by_date_ascending
             [Samples.file_full; Samples.file_bare; Samples.file_no_vis]
             ["2023-05-02"; "2023-05-01"; "2023-05-02"]).
    repeat constructor.
  - vm_compute. reflexivity.
Defined.

(** C6 as stated fails on ties: eighteen files of one calendar day, sorted
    with the default kind of pandas 2 (numpy's quicksort), come back with the
    sixteenth file in second place and the second file in sixteenth place. *)
Lemma sort_by_date_reorders_one_day :
  Forall (fun hdul => has_day hdul "2023-05-02") Samples.night /\
  io.sort pandas.nargsort pandas.lexsort_indexer Samples.night (io.Str "date")
  = Ok (pick Samples.night []
          [0; 15; 14; 13; 12; 11; 10; 9; 8; 7; 6; 5; 4; 3; 2; 1; 16; 17]) /\
  pick Samples.night [] [0; 15; 14; 13; 12; 11; 10; 9; 8; 7; 6; 5; 4; 3; 2; 1; 16; 17]
  <> Samples.night.
Proof.
  split; [| split].
  - repeat constructor.
  - vm_compute. reflexivity.
  - vm_compute. discriminate.
Qed.

(* ===================================================================== *)
(** ** io.py: header entries *)
(* ===================================================================== *)

Lemma split_head_prefix (sep : ascii) (s : string) :
  String.prefix (split_head sep s) s = true.
Proof.
  induction s as [|c s IH]; [reflexivity |]. simpl.
  destruct (Ascii.eqb c sep); [reflexivity |]. simpl.
  destruct (ascii_dec c c) as [_ | Hne]; [exact IH | now destruct Hne].
Qed.

Lemma split_head_no_sep (sep : ascii) (s : string) :
  ~ In sep (list_ascii_of_string (split_head sep s)).
Proof.
  induction s as [|c s IH]; simpl; [tauto |].
  destruct (Ascii.eqb_spec c sep) as [-> | Hne]; simpl; [tauto |].
  intros [-> | Hin]; [now apply Hne | now apply IH].
Qed.

Lemma split_head_whole (sep : ascii) (s : string) :
  ~ In sep (list_ascii_of_string s) -> split_head sep s = s.
Proof.
  induction s as [|c s IH]; simpl; [reflexivity |]. intros Hnot.
  destruct (Ascii.eqb_spec c sep) as [-> | Hne]; [tauto |].
  f_equal. apply IH. tauto.
Qed.

Lemma split_head_cut (sep : ascii) (s : string) :
  s = split_head sep s \/ exists rest, s = (split_head sep s ++ String sep rest)%string.
Proof.
  induction s as [|c s IH]; simpl; [now left |].
  destruct (Ascii.eqb_spec c sep) as [-> | Hne].
  - right. exists s. reflexivity.
  - destruct IH as [IH | [rest IH]].
    + left. f_equal. exact IH.
    + right. exists rest.
      change (String c s = String c (split_head sep s ++ String sep rest)%string).
      f_equal. exact IH.
Qed.

(** X1: The entry read under "date" is the DATE-OBS card of the primary
    header (the empty string when the card is missing) cut at its first "T":
    the entry holds no "T", and the card is either the entry itself or the
    entry followed by a "T" and the rest of the card. *)
Theorem date_entry_is_cut_at_T (hdul : HDUList) (day : string) :
  io._get_header_entry hdul "date" = Ok (PStr day) ->
  exists (primary : HDU) (stamp : string),
    getitem hdul 0 = Ok primary /\
    header_get (hdu_header primary) "DATE-OBS" (PStr "") = PStr stamp /\
    ~ In "T"%char (list_ascii_of_string day) /\
    (stamp = day \/ exists rest, stamp = (day ++ String "T" rest)%string).
Proof.
  rewrite date_entry_is_day_of_DATE_OBS. intros H. bind_inv H.
  destruct (header_get (hdu_header a) "DATE-OBS" (PStr "")) as [| | | |stamp] eqn:Hs;
    try discriminate.
  simpl in H. injection H as <-. exists a, stamp.
  repeat match goal with |- _ /\ _ => split end.
  - exact E.
  - exact Hs.
  - apply split_head_no_sep.
  - apply split_head_cut.
Qed.

Lemma date_entry_is_cut_at_T_witness :
  exists (primary : HDU) (stamp : string),
    getitem Samples.file_full 0 = Ok primary /\
    header_get (hdu_header primary) "DATE-OBS" (PStr "") = PStr stamp /\
    ~ In "T"%char (list_ascii_of_string "2023-05-02") /\
    (stamp = "2023-05-02" \/ exists rest, stamp = ("2023-05-02" ++ String "T" rest)%string).
Proof.
  apply (date_entry_is_cut_at_T Samples.file_full "2023-05-02"). reflexivity.
Defined.


(** X3: A field whose keyword is a standard FITS keyword that the primary
    header does not have resolves to the empty string, under every name
    ("date" included). *)
Theorem header_entry_of_missing_field
  (primary : HDU) (rest : HDUList) (key : string) (e : exn) :
  standard_keyword (keyword_of key) = true ->
  header_getitem (hdu_header primary) (keyword_of key) = Err e ->
  io._get_header_entry (primary :: rest) key = Ok (PStr "").
Proof.
  intros _ H. unfold io._get_header_entry, header_get. simpl.
  fold (keyword_of key). rewrite H. now destruct (String.eqb key "date").
Qed.

Lemma header_entry_of_missing_field_witness :
  io._get_header_entry (Samples.primary "PIONIER" "2023-05-02T01:00" :: []) "observer"
  = Ok (PStr "").
Proof.
  apply (header_entry_of_missing_field _ [] "observer" KeyError); reflexivity.
Defined.

(* ===================================================================== *)
(** ** io.py: units and columns *)
(* ===================================================================== *)

Lemma index_of_from_first (key : string) (ver : option Z) :
  forall (hdul : HDUList) (k n : nat),
    index_of_from k hdul key ver = Ok n <->
    exists i hdu,
      n = k + i /\ hdul !! i = Some hdu /\ unit_matches key ver (k + i) hdu = true /\
      forall j h, j < i -> hdul !! j = Some h -> unit_matches key ver (k + j) h = false.
Proof.
  induction hdul as [|hdu rest IH]; intros k n; simpl.
  - split; [discriminate |]. intros (i & h & _ & Hi & _). destruct i; discriminate.
  - fold (unit_matches key ver k hdu).
    destruct (unit_matches key ver k hdu) eqn:Hm.
    + split.
      * intros [= <-]. exists 0, hdu. rewrite Nat.add_0_r.
        repeat split; try assumption. intros j h Hj. lia.
      * intros (i & h & -> & Hi & Hmi & Hfirst). destruct i as [|i].
        -- now rewrite Nat.add_0_r.
        -- specialize (Hfirst 0 hdu (Nat.lt_0_succ i) eq_refl).
           rewrite Nat.add_0_r in Hfirst. congruence.
    + rewrite IH. split.
      * intros (i & h & -> & Hi & Hmi & Hfirst). exists (S i), h.
        rewrite Nat.add_succ_r. repeat split; try assumption.
        intros [|j] h' Hj Hh'; simpl in Hh'.
        -- injection Hh' as <-. now rewrite Nat.add_0_r.
        -- rewrite Nat.add_succ_r. apply (Hfirst j h'); [lia | exact Hh'].
      * intros (i & h & -> & Hi & Hmi & Hfirst). destruct i as [|i].
        -- simpl in Hi. injection Hi as <-. rewrite Nat.add_0_r in Hmi. congruence.
        -- exists i, h. rewrite Nat.add_succ_r in *. repeat split; try assumption.
           intros j h' Hj Hh'. specialize (Hfirst (S j) h' ltac:(lia) Hh').
           now rewrite Nat.add_succ_r in Hfirst.
Qed.

Lemma nth_error_is_lookup {A : Type} (l : list A) (i : nat) : nth_error l i = l !! i.
Proof. revert i. induction l as [|x l IH]; intros [|i]; simpl; auto. Qed.

Lemma hdul_getitem_first (hdul : HDUList) (key : string) (ver : option Z) (hdu : HDU) :
  hdul_getitem hdul key ver = Ok hdu <->
  exists i,
    hdul !! i = Some hdu /\ unit_matches key ver i hdu = true /\
    forall j h, j < i -> hdul !! j = Some h -> unit_matches key ver j h = false.
Proof.
  unfold hdul_getitem, index_of. split.
  - intros H. bind_inv H. apply index_of_from_first in E.
    destruct E as (i & h & -> & Hi & Hm & Hfirst). change (0 + i) with i in *.
    assert (Hn : nth_error hdul i = Some h) by (rewrite nth_error_is_lookup; exact Hi).
    unfold getitem in H. rewrite Hn in H. injection H as <-.
    exists i. repeat split; assumption.
  - intros (i & Hi & Hm & Hfirst).
    assert (Hidx : index_of_from 0 hdul key ver = Ok i).
    { apply index_of_from_first. exists i, hdu. repeat split; assumption. }
    assert (Hn : nth_error hdul i = Some hdu) by (rewrite nth_error_is_lookup; exact Hi).
    rewrite Hidx. simpl. unfold getitem. now rewrite Hn.
Qed.

(** X4: [_get_hdu] never raises: it returns the first unit of the list that has
    the name (surrounding white space and case set aside) and the version
    asked for, and [None] exactly when the list has no such unit. *)
Theorem get_hdu_is_first_match (hdul : HDUList) (name : string) (index : option Z) :
  (forall hdu,
     io._get_hdu hdul name index = Some hdu <->
     exists i,
       hdul !! i = Some hdu /\ unit_matches name index i hdu = true /\
       forall j h, j < i -> hdul !! j = Some h -> unit_matches name index j h = false) /\
  (io._get_hdu hdul name index = None <->
   forall i hdu, hdul !! i = Some hdu -> unit_matches name index i hdu = false).
Proof.
  assert (Hsome : forall hdu,
     io._get_hdu hdul name index = Some hdu <->
     exists i,
       hdul !! i = Some hdu /\ unit_matches name index i hdu = true /\
       forall j h, j < i -> hdul !! j = Some h -> unit_matches name index j h = false).
  { intros hdu. rewrite <- hdul_getitem_first. unfold io._get_hdu.
    destruct (hdul_getitem hdul name index); split; congruence. }
  split; [exact Hsome |]. split.
  - intros Hnone i. induction i as [i IHi] using lt_wf_ind. intros hdu Hi.
    destruct (unit_matches name index i hdu) eqn:Hm; [| reflexivity].
    assert (io._get_hdu hdul name index = Some hdu); [| congruence].
    apply Hsome. exists i. repeat split; try assumption.
    intros j h Hj Hh. now apply (IHi j Hj h).
  - intros Hall. destruct (io._get_hdu hdul name index) as [hdu|] eqn:Hg; [| reflexivity].
    destruct (proj1 (Hsome hdu) eq_refl) as (i & Hi & Hm & _).
    rewrite (Hall i hdu Hi) in Hm. discriminate.
Qed.

(** White space around the name asked for is set aside, like its case. *)
Example get_hdu_strips_the_name :
  io._get_hdu Samples.file_full " oi_vis " None = Some Samples.oi_vis_full /\
  io._get_hdu Samples.file_full "oi vis" None = None.
Proof. split; reflexivity. Qed.


(** X6: The masked reading of a column holds the column itself: with
    [masked=True], [_get_column] returns a masked array whose data is what it
    returns with [masked=False]. *)
Theorem get_column_masked_holds_the_column
  (hdul : HDUList) (card column : string) (index : option Z) (m : MaskedArray) :
  io._get_column hdul card column index true = Ok (io.ObjMasked m) ->
  io._get_column hdul card column index false = Ok (io.ObjArray (ma_data m)).
Proof.
  unfold io._get_column.
  destruct (io._get_hdu hdul card index) as [hdu|]; [| discriminate].
  destruct (hdu_data hdu) as [t|]; [| discriminate].
  destruct (rec_field t column) as [values|]; [| discriminate].
  destruct (rec_field t "flag") as [flag|]; [| discriminate].
  intros H. bind_inv H. injection H as <-.
  apply masked_array_data in E. now rewrite E.
Qed.


Lemma get_column_masked_witness :
  io._get_column Samples.file_full "oi_vis2" "vis2data" None false
  = Ok (io.ObjArray
          (Arr [Samples.fls [0.5%float; 0.25%float]; Samples.fls [0.75%float; 0.5%float];
                Samples.fls [0.25%float; 0.5%float]])).
Proof.
  refine (get_column_masked_holds_the_column Samples.file_full "oi_vis2" "vis2data" None
            {| ma_data := _; ma_mask := _ |} _).
  vm_compute. reflexivity.
Defined.

(* ===================================================================== *)
(** ** io.py: read, beyond one call's handles *)
(* ===================================================================== *)

Lemma read_loop_raises (fs : string -> option HDUList) (e : exn) :
  forall (srcs : list io.source) (st : list nat * gmap nat HDUList),
    for_each (io.read_item fs) (io.item_of_source <$> srcs) st = Err e <->
    e = OSError /\ exists p, io.SPath p ∈ srcs /\ fs p = None.
Proof.
  induction srcs as [|s srcs IH]; intros [ls σ]; simpl.
  - split; [discriminate |]. intros (_ & p & Hp & _). inversion Hp.
  - destruct s as [p|l]; simpl.
    + destruct (fs p) as [c|] eqn:Hfs; simpl.
      * rewrite IH. split; intros (-> & q & Hq & Hnone); (split; [reflexivity |]);
          exists q; (split; [| exact Hnone]).
        -- now apply list_elem_of_further.
        -- apply elem_of_cons in Hq as [[= ->] | Hq]; [congruence | exact Hq].
      * split.
        -- intros [= <-]. split; [reflexivity |]. exists p. split; [apply list_elem_of_here | exact Hfs].
        -- now intros (-> & _).
    + rewrite IH. split; intros (-> & q & Hq & Hnone); (split; [reflexivity |]);
        exists q; (split; [| exact Hnone]).
      * now apply list_elem_of_further.
      * apply elem_of_cons in Hq as [[=] | Hq]. exact Hq.
Qed.

(** X7: [read] of a sequence of sources raises exactly when one of its paths
    cannot be opened, and then with OSError: handles are never refused, and
    no other exception leaves the loop. *)
Theorem read_raises_exactly_on_a_bad_path
  (fs : string -> option HDUList) (srcs : list io.source) (σ : gmap nat HDUList) (e : exn) :
  io.read fs (io.RMany srcs) σ = Err e <->
  e = OSError /\ exists p, io.SPath p ∈ srcs /\ fs p = None.
Proof. unfold io.read. simpl. apply read_loop_raises. Qed.

(** X8: Every path gets an object of its own: the handle [read] returns for a
    path stands nowhere else in the result, also when the same path is given
    twice, as long as the handles passed in are objects that exist. *)
Theorem read_copies_are_not_shared
  (fs : string -> option HDUList) (srcs : list io.source) (σ σ' : gmap nat HDUList)
  (ls : list nat) :
  (forall l, io.SHandle l ∈ srcs -> l ∈ dom σ) ->
  io.read fs (io.RMany srcs) σ = Ok (ls, σ') ->
  forall (i j : nat) (p : string) (l : nat),
    srcs !! i = Some (io.SPath p) -> ls !! i = Some l -> j <> i -> ls !! j <> Some l.
Proof.
  intros Hhandles Hrun. unfold io.read in Hrun. simpl in Hrun.
  set (P := fun (done : list io.loop_item) (st : list nat * gmap nat HDUList) =>
              read_inv fs σ done st /\
              ((forall l, io.IHandle l ∈ done -> l ∈ dom σ) ->
               Forall (fun l => l ∈ dom st.2) st.1 /\
               forall (i j : nat) (p : string) (l : nat),
                 done !! i = Some (io.IPath p) -> st.1 !! i = Some l -> j <> i ->
                 st.1 !! j <> Some l)).
  assert (Hinv : P ([] ++ (io.item_of_source <$> srcs)) (ls, σ')).
  { eapply (for_each_inv _ P); [| | exact Hrun].
    - intros done x [ls1 σ1] st' [Hread Hrest] Hstep.
      split; [eapply read_item_inv; eassumption |].
      intros Hh.
      destruct Hrest as [Hdom Hdist].
      { intros l Hl. apply Hh. apply elem_of_app. now left. }
      pose proof Hread as (Hlen & Hsub & _ & _ & Hpaths). simpl in *.
      destruct x as [p|l0|u]; simpl in Hstep; [| | discriminate].
      + destruct (fs p) as [c|]; [| discriminate]. injection Hstep as <-. simpl.
        pose proof (is_fresh (dom σ1)) as Hfresh.
        split.
        * apply Forall_app. split.
          -- eapply Forall_impl; [exact Hdom |]. intros l Hl. simpl in *.
             rewrite dom_insert_L. set_solver.
          -- constructor; [| constructor]. rewrite dom_insert_L. set_solver.
        * intros i j q l Hi Hl Hj.
          destruct (decide (i < length ls1)) as [Hlt|Hge].
          -- rewrite lookup_app_l in Hi by (rewrite <- Hlen; exact Hlt).
             rewrite lookup_app_l in Hl by exact Hlt.
             destruct (decide (j < length ls1)) as [Hjlt|Hjge].
             ++ rewrite lookup_app_l by exact Hjlt. eapply Hdist; eassumption.
             ++ intros Hjl. apply lookup_lt_Some in Hjl as Hjb.
                rewrite length_app in Hjb. simpl in Hjb.
                assert (j = length ls1) as -> by lia.
                rewrite lookup_app_r, Nat.sub_diag in Hjl by lia. injection Hjl as <-.
                apply Hfresh. rewrite Forall_forall in Hdom. apply Hdom.
                eapply list_elem_of_lookup_2. exact Hl.
          -- apply lookup_lt_Some in Hl as Hib. rewrite length_app in Hib. simpl in Hib.
             assert (i = length ls1) as -> by lia.
             rewrite lookup_app_r, Nat.sub_diag in Hl by lia. injection Hl as <-.
             intros Hjl. apply lookup_lt_Some in Hjl as Hjb.
             rewrite length_app in Hjb. simpl in Hjb.
             rewrite lookup_app_l in Hjl by lia.
             apply Hfresh. rewrite Forall_forall in Hdom. apply Hdom.
             eapply list_elem_of_lookup_2. exact Hjl.
      + injection Hstep as <-. simpl. split.
        * apply Forall_app. split; [exact Hdom |].
          constructor; [| constructor]. apply Hsub. apply Hh.
          apply elem_of_app. right. apply list_elem_of_singleton. reflexivity.
        * intros i j q l Hi Hl Hj.
          destruct (decide (i < length ls1)) as [Hlt|Hge].
          -- rewrite lookup_app_l in Hi by (rewrite <- Hlen; exact Hlt).
             rewrite lookup_app_l in Hl by exact Hlt.
             destruct (decide (j < length ls1)) as [Hjlt|Hjge].
             ++ rewrite lookup_app_l by exact Hjlt. eapply Hdist; eassumption.
             ++ intros Hjl. apply lookup_lt_Some in Hjl as Hjb.
                rewrite length_app in Hjb. simpl in Hjb.
                assert (j = length ls1) as -> by lia.
                rewrite lookup_app_r, Nat.sub_diag in Hjl by lia. injection Hjl as ->.
                destruct (Hpaths i q Hi) as (l' & c & Hl' & Hnew & _).
                rewrite Hl in Hl'. injection Hl' as <-.
                apply Hnew. apply Hh. apply elem_of_app. right.
                apply list_elem_of_singleton. reflexivity.
          -- apply lookup_lt_Some in Hi as Hib. rewrite length_app in Hib. simpl in Hib.
             assert (i = length done) as -> by lia.
             rewrite lookup_app_r, Nat.sub_diag in Hi by lia. discriminate.
    - split.
      + unfold read_inv. simpl.
        split; [reflexivity |]. split; [set_solver |]. split; [reflexivity |].
        split; intros i ? Hi; now rewrite lookup_nil in Hi.
      + intros _. split; [constructor |]. intros i j p l Hi. now rewrite lookup_nil in Hi. }
  destruct Hinv as [_ Hinv]. simpl in Hinv.
  destruct Hinv as [_ Hdist].
  { intros l Hl. apply Hhandles. apply list_elem_of_fmap in Hl as ([q|l'] & Heq & Hin);
      simpl in Heq; [discriminate |]. injection Heq as ->. exact Hin. }
  intros i j p l Hi Hl Hj. apply (Hdist i j p l); [| exact Hl | exact Hj].
  rewrite list_lookup_fmap, Hi. reflexivity.
Qed.

Lemma read_copies_are_not_shared_witness :
  exists σ',
    io.read Samples.disk (io.RMany [io.SPath "full.fits"; io.SPath "full.fits"]) ∅
    = Ok ([0; 1], σ') /\ [0; 1] !! 1 <> Some 0.
Proof.
  eexists. split; [vm_compute; reflexivity |].
  refine (read_copies_are_not_shared Samples.disk
            [io.SPath "full.fits"; io.SPath "full.fits"] ∅ _ [0; 1] _ _ 0 1 "full.fits" 0
            eq_refl eq_refl _).
  - intros l Hl. do 2 (apply elem_of_cons in Hl as [Hl|Hl]; [discriminate |]).
    inversion Hl.
  - vm_compute. reflexivity.
  - lia.
Defined.
(* ===================================================================== *)
(** ** io.py: sort on any fields, get_labels *)
(* ===================================================================== *)

Lemma dict_set_new {V : Type} (d : io.dict V) (key : string) (v : V) :
  key ∉ d.*1 -> io.dict_set d key v = d ++ [(key, v)].
Proof.
  induction d as [|[k w] d IH]; intros Hk; simpl; [reflexivity |].
  apply not_elem_of_cons in Hk as [Hne Hk]. simpl in Hne.
  destruct (String.eqb_spec k key) as [-> | _]; [contradiction |].
  now rewrite IH.
Qed.

Lemma dict_update_new {V : Type} (e d : io.dict V) :
  NoDup e.*1 -> (forall k, k ∈ e.*1 -> k ∉ d.*1) -> io.dict_update d e = d ++ e.
Proof.
  unfold io.dict_update. revert d.
  induction e as [|[k v] e IH]; intros d Hnd Hdisj; simpl.
  - now rewrite app_nil_r.
  - simpl in Hnd. apply NoDup_cons in Hnd as [Hk Hnd].
    rewrite dict_set_new by (apply Hdisj; apply list_elem_of_here).
    rewrite IH; [now rewrite <- app_assoc | exact Hnd |].
    intros k' Hk'. rewrite fmap_app. apply not_elem_of_app. split.
    + apply Hdisj. now apply list_elem_of_further.
    + simpl. intros Hin. apply list_elem_of_singleton in Hin as ->. contradiction.
Qed.

Lemma dict_lookup_zip {V : Type} (keys : list string) (vals : list V) :
  NoDup keys -> length keys = length vals ->
  Forall2 (fun k v => io.dict_lookup (zip keys vals) k = Some v) keys vals.
Proof.
  revert vals. induction keys as [|k keys IH]; intros [|v vals] Hnd Hlen;
    try discriminate; [constructor |].
  apply NoDup_cons in Hnd as [Hk Hnd]. simpl in Hlen.
  constructor.
  - simpl. now rewrite String.eqb_refl.
  - assert (IH' := IH vals Hnd ltac:(lia)).
    assert (Hgen : forall ks' vs', Forall (fun k' => k' ∈ keys) ks' ->
              Forall2 (fun k0 v0 => io.dict_lookup (zip keys vals) k0 = Some v0) ks' vs' ->
              Forall2 (fun k0 v0 => io.dict_lookup (zip (k :: keys) (v :: vals)) k0 = Some v0)
                ks' vs').
    { intros ks' vs' Hin HF. induction HF as [|k0 v0 ks' vs' H0 _ IHF]; constructor.
      - simpl. apply Forall_cons in Hin as [Hin _].
        destruct (String.eqb_spec k k0) as [-> | _]; [contradiction | exact H0].
      - apply IHF. now apply Forall_cons in Hin as [_ Hin]. }
    apply Hgen; [| exact IH']. apply Forall_forall. auto.
Qed.

Lemma range_is_its_rows (n : nat) :
  io.range n = (fun i => nth i (io.range n) PNone) <$> seq 0 n.
Proof.
  assert (Hlen : length (io.range n) = n).
  { unfold io.range. now rewrite length_fmap, length_seq. }
  pose proof (pick_all (io.range n) PNone) as H. unfold pick in H.
  rewrite Hlen in H. symmetry. exact H.
Qed.

Lemma range_picks_all (hduls : list HDUList) :
  comprehension (io.getitem_py hduls) (io.range (length hduls)) = Ok hduls.
Proof.
  rewrite range_is_its_rows, index_column_picks, pick_all; [reflexivity |].
  apply Forall_forall. intros i Hi. apply list_elem_of_In, in_seq in Hi. lia.
Qed.

(** X9: Sorting on no field at all gives the collection back as it is. *)
Theorem sort_by_nothing_is_identity
  (nargsort : list pyval -> result (list nat))
  (lexsort_indexer : list (list pyval) -> result (list nat)) (hduls : list HDUList) :
  io.sort nargsort lexsort_indexer hduls (io.Strs []) = Ok hduls.
Proof.
  unfold io.sort. cbn [comprehension mbind result_bind].
  unfold io.dict_update. cbn [fold_left].
  unfold io.pd_DataFrame. cbn [forallb mbind result_bind].
  unfold io.sort_values. cbn [comprehension mbind result_bind].
  change (io.df_getitem [("index", io.range (length hduls))] "index")
    with (Ok (io.range (length hduls))).
  cbn [mbind result_bind]. apply range_picks_all.
Qed.

Lemma columns_read (hduls : list HDUList) (by_ : list string) (cols : list (list pyval)) :
  Forall2 (fun key col =>
             comprehension (fun hdul => io._get_header_entry hdul key) hduls = Ok col)
          by_ cols ->
  comprehension
    (fun key => c ← comprehension (fun hdul => io._get_header_entry hdul key) hduls;
                Ok (key, c)) by_
  = Ok (zip by_ cols).
Proof.
  induction 1 as [|key col by_ cols Hc _ IH]; simpl; [reflexivity |].
  rewrite Hc. simpl. rewrite IH. reflexivity.
Qed.

Lemma df_take_index (index : list pyval) (rest : io.DataFrame) (indexer : list nat) :
  io.df_getitem (io.df_take (("index", index) :: rest) indexer) "index"
  = Ok ((fun i => nth i index PNone) <$> indexer).
Proof. reflexivity. Qed.

Lemma df_getitem_beside_index (index : list pyval) (df : io.DataFrame)
  (keys : list string) (cols : list (list pyval)) :
  Forall (fun key => key <> "index") keys ->
  Forall2 (fun key col => io.dict_lookup df key = Some col) keys cols ->
  Forall2 (fun key col => io.df_getitem (("index", index) :: df) key = Ok col) keys cols.
Proof.
  intros Hne Hz. revert Hne.
  induction Hz as [|key col ks vs Hkey _ IH]; intros Hne; constructor.
  - apply Forall_cons in Hne as [Hne _].
    unfold io.df_getitem.
    change (io.dict_lookup (("index", index) :: df) key)
      with (if String.eqb "index" key then Some index else io.dict_lookup df key).
    destruct (String.eqb_spec "index" key) as [<- | _]; [congruence |].
    now rewrite Hkey.
  - apply IH. now apply Forall_cons in Hne as [_ Hne].
Qed.

(** X10: [sort] on a list of distinct field names, none of them "index": the
    header entries of the files are read field by field, pandas' sorter (the
    one-column sorter for one field, the lexicographic one for several) is
    run on those columns in the order of [by], and the files at the
    positions it returns are the result. *)
Theorem sort_returns_the_rows_of_the_sorter
  (nargsort : list pyval -> result (list nat))
  (lexsort_indexer : list (list pyval) -> result (list nat))
  (hduls : list HDUList) (by_ : list string) (cols : list (list pyval))
  (indexer : list nat) :
  NoDup by_ -> "index" ∉ by_ ->
  Forall2 (fun key col =>
             comprehension (fun hdul => io._get_header_entry hdul key) hduls = Ok col)
          by_ cols ->
  match cols with
  | [] => indexer = seq 0 (length hduls)
  | [k] => nargsort k = Ok indexer
  | _ => lexsort_indexer cols = Ok indexer
  end ->
  Forall (fun i => i < length hduls) indexer ->
  io.sort nargsort lexsort_indexer hduls (io.Strs by_) = Ok (pick hduls [] indexer).
Proof.
  intros Hnd Hindex Hcols Hsorter Hrange.
  pose proof (Forall2_length _ _ _ Hcols) as Hlen.
  unfold io.sort. rewrite (columns_read _ _ _ Hcols). cbn [mbind result_bind].
  assert (Hkeys : (zip by_ cols).*1 = by_).
  { apply fst_zip. lia. }
  rewrite (dict_update_new (zip by_ cols) []);
    [| now rewrite Hkeys | intros k _ Hk; inversion Hk].
  rewrite app_nil_l.
  rewrite (dict_update_new (zip by_ cols) [("index", io.range (length hduls))]);
    [| now rewrite Hkeys |].
  2:{ intros k Hk Hin. rewrite Hkeys in Hk. simpl in Hin.
      apply list_elem_of_singleton in Hin as ->. contradiction. }
  cbn [app].
  assert (Hdf : io.pd_DataFrame (("index", io.range (length hduls)) :: zip by_ cols)
                = Ok (("index", io.range (length hduls)) :: zip by_ cols)).
  { unfold io.pd_DataFrame.
    replace (forallb _ (zip by_ cols)) with true; [reflexivity |].
    symmetry. apply forallb_forall. intros [k c] Hin. simpl.
    apply Nat.eqb_eq. unfold io.range. rewrite length_fmap, length_seq.
    apply list_elem_of_In, elem_of_zip_r in Hin. simpl in Hin.
    apply list_elem_of_lookup in Hin as [i Hi].
    destruct (Forall2_lookup_r _ _ _ _ _ Hcols Hi) as (key & _ & Hkey).
    now apply comprehension_length in Hkey. }
  rewrite Hdf. cbn [mbind result_bind].
  assert (Hget : comprehension
                   (io.df_getitem (("index", io.range (length hduls)) :: zip by_ cols)) by_
                 = Ok cols).
  { apply Forall2_comprehension.
    pose proof (dict_lookup_zip by_ cols Hnd Hlen) as Hz.
    apply df_getitem_beside_index; [| exact Hz].
    apply Forall_forall. intros key Hkey ->. contradiction. }
  unfold io.sort_values. rewrite Hget. cbn [mbind result_bind].
  destruct cols as [|k [|k' cols]].
  - subst indexer. cbn [mbind result_bind].
    change (io.df_getitem (("index", io.range (length hduls)) :: zip by_ []) "index")
      with (Ok (io.range (length hduls))).
    cbn [mbind result_bind]. rewrite pick_all. apply range_picks_all.
  - rewrite Hsorter. cbn [mbind result_bind]. rewrite df_take_index.
    cbn [mbind result_bind]. now apply index_column_picks.
  - rewrite Hsorter. cbn [mbind result_bind]. rewrite df_take_index.
    cbn [mbind result_bind]. now apply index_column_picks.
Qed.

Lemma sort_returns_the_rows_of_the_sorter_witness :
  io.sort pandas.nargsort pandas.lexsort_indexer
    [Samples.file_full; Samples.exposure "02:00"; Samples.file_bare]
    (io.Strs ["instrument"; "date"])
  = Ok (pick [Samples.file_full; Samples.exposure "02:00"; Samples.file_bare]
          [] [1; 2; 0]).
Proof.
  apply (sort_returns_the_rows_of_the_sorter pandas.nargsort pandas.lexsort_indexer
           [Samples.file_full; Samples.exposure "02:00"; Samples.file_bare]
           ["instrument"; "date"]
           [[PStr "PIONIER"; PStr "GRAVITY"; PStr "PIONIER"];
            [PStr "2023-05-02"; PStr "2023-05-02"; PStr "2023-05-01"]]).
  - apply (bool_decide_unpack _). vm_compute. exact I.
  - intros Hin. apply (bool_decide_pack _) in Hin. vm_compute in Hin. exact Hin.
  - repeat constructor.
  - vm_compute. reflexivity.
  - repeat constructor.
Defined.

(** X11: A field called "index" takes the place of the position column: the
    table [sort] builds then holds the header entries under "index", and the
    files are looked up at those entries instead of at their positions. With
    entries that are strings (the default entry of a missing keyword is the
    empty string) the lookup raises TypeError. *)
Theorem sort_on_index_loses_the_positions
  (nargsort : list pyval -> result (list nat))
  (lexsort_indexer : list (list pyval) -> result (list nat))
  (hduls : list HDUList) (col : list pyval) (i : nat) (indexer : list nat) :
  comprehension (fun hdul => io._get_header_entry hdul "index") hduls = Ok col ->
  Forall (fun v => exists s, v = PStr s) col ->
  nargsort col = Ok (i :: indexer) ->
  io.sort nargsort lexsort_indexer hduls (io.Str "index") = Err TypeError.
Proof.
  intros Hcol Hstr Hsorter. unfold io.sort.
  cbn [comprehension]. rewrite Hcol. cbn [mbind result_bind].
  unfold io.dict_update. cbn [fold_left io.dict_set fst snd].
  rewrite String.eqb_refl.
  unfold io.pd_DataFrame. cbn [forallb mbind result_bind].
  unfold io.sort_values. cbn [comprehension].
  change (io.df_getitem [("index", col)] "index") with (Ok col).
  cbn [mbind result_bind]. rewrite Hsorter. cbn [mbind result_bind].
  rewrite df_take_index. cbn [mbind result_bind fmap list_fmap comprehension].
  assert (Hrow : io.getitem_py hduls (nth i col PNone) = Err TypeError).
  { destruct (nth_in_or_default i col PNone) as [Hin | ->]; [| reflexivity].
    rewrite Forall_forall in Hstr. apply list_elem_of_In in Hin.
    destruct (Hstr _ Hin) as [s ->]. reflexivity. }
  rewrite Hrow. reflexivity.
Qed.

Lemma sort_on_index_loses_the_positions_witness :
  io.sort pandas.nargsort pandas.lexsort_indexer
    [Samples.file_full; Samples.file_bare] (io.Str "index")
  = Err TypeError.
Proof.
  apply (sort_on_index_loses_the_positions pandas.nargsort pandas.lexsort_indexer
           [Samples.file_full; Samples.file_bare] [PStr ""; PStr ""] 0 [1]).
  - vm_compute. reflexivity.
  - repeat constructor; eexists; reflexivity.
  - vm_compute. reflexivity.
Defined.

(** X12: [get_labels] gives one label per file, and the labels of the first 26
    files are the capital letters in order. *)
Theorem get_labels_are_the_capital_letters (hduls : list HDUList) :
  length (io.get_labels hduls) = length hduls /\
  take 26 (io.get_labels hduls) = take (length hduls) alphabet.
Proof.
  unfold io.get_labels. split; [now rewrite length_fmap, length_seq |].
  generalize (length hduls) as n. intros n.
  do 26 (destruct n as [|n]; [reflexivity |]).
  destruct n; reflexivity.
Qed.
(* ===================================================================== *)
(** ** oifits.py: read_data, file by file *)
(* ===================================================================== *)

Lemma card_station_names_last hd he wl ar arr fl v2 t3 vi vp card :
  oifits.card_station_names (Data.mk hd he wl (ar ++ [arr]) fl v2 t3 vi vp) card
  = station_names_of arr card.
Proof.
  unfold oifits.card_station_names, station_names_of. simpl Data.array.
  rewrite getitem_last_snoc. cbn [mbind result_bind].
  destruct (data_field card "sta_index"); reflexivity.
Qed.

Ltac run_bind :=
  match goal with
  | |- context [mbind _ ?m] =>
      lazymatch m with
      | mbind _ _ => fail
      | _ => destruct m; cbn [mbind result_bind]; try reflexivity
      end
  end.

Lemma read_key_array_eq hdul idx hd he wl ar fl v2 t3 vi vp :
  oifits.read_key hdul idx (Data.mk hd he wl ar fl v2 t3 vi vp) "array"
  = (arr ← hdul_getitem hdul "oi_array" None;
     Ok (Data.mk hd he wl (ar ++ [arr]) fl v2 t3 vi vp)).
Proof. reflexivity. Qed.

Lemma read_key_flux_eq hdul idx hd he wl ar arr fl v2 t3 vi vp :
  oifits.read_key hdul idx (Data.mk hd he wl (ar ++ [arr]) fl v2 t3 vi vp) "flux"
  = (r ← flux_record hdul idx arr;
     Ok (Data.mk hd he wl (ar ++ [arr]) (push fl r) v2 t3 vi vp)).
Proof.
  unfold oifits.read_key, flux_record. simpl String.eqb. cbv iota zeta.
  change ("oi_" ++ "flux")%string with "oi_flux".
  destruct (hdul_getitem hdul "oi_flux" idx) as [card|]; [| reflexivity].
  cbn [mbind result_bind]. unfold oifits.select_columns. simpl String.eqb. cbv iota.
  destruct (columns_names card) as [nms|]; [| reflexivity].
  cbn [mbind result_bind]. unfold record_of.
  unfold oifits.getattr. simpl String.eqb. cbv iota. cbn [mbind result_bind Data.flux].
  rewrite card_station_names_last.
  do 3 run_bind.
Qed.

Lemma read_key_vis2_eq hdul idx hd he wl ar arr fl v2 t3 vi vp :
  oifits.read_key hdul idx (Data.mk hd he wl (ar ++ [arr]) fl v2 t3 vi vp) "vis2"
  = (r ← vis2_record hdul idx arr;
     Ok (Data.mk hd he wl (ar ++ [arr]) fl (push v2 r) t3 vi vp)).
Proof.
  unfold oifits.read_key, vis2_record. simpl String.eqb. cbv iota zeta.
  change ("oi_" ++ "vis2")%string with "oi_vis2".
  destruct (hdul_getitem hdul "oi_vis2" idx) as [card|]; [| reflexivity].
  cbn [mbind result_bind]. unfold oifits.select_columns. simpl String.eqb. cbv iota.
  do 2 run_bind. unfold record_of.
  unfold oifits.getattr. simpl String.eqb. cbv iota. cbn [mbind result_bind Data.vis2].
  rewrite card_station_names_last.
  do 3 run_bind.
Qed.

Lemma read_key_t3_eq hdul idx hd he wl ar arr fl v2 t3 vi vp :
  oifits.read_key hdul idx (Data.mk hd he wl (ar ++ [arr]) fl v2 t3 vi vp) "t3"
  = (r ← t3_record hdul idx arr;
     Ok (Data.mk hd he wl (ar ++ [arr]) fl v2 (push t3 r) vi vp)).
Proof.
  unfold oifits.read_key, t3_record. simpl String.eqb. cbv iota zeta.
  change ("oi_" ++ "t3")%string with "oi_t3".
  destruct (hdul_getitem hdul "oi_t3" idx) as [card|]; [| reflexivity].
  cbn [mbind result_bind]. unfold oifits.select_columns. simpl String.eqb. cbv iota.
  do 8 run_bind. unfold record_of.
  unfold oifits.getattr. simpl String.eqb. cbv iota. cbn [mbind result_bind Data.t3].
  rewrite card_station_names_last.
  do 3 run_bind.
Qed.

Lemma setattr_visphi hd he wl ar fl v2 t3 vi vp ds :
  oifits.setattr (Data.mk hd he wl ar fl v2 t3 vi vp) "visphi" ds
  = Ok (Data.mk hd he wl ar fl v2 t3 vi ds).
Proof. reflexivity. Qed.

Lemma last_val_push (ds : Dataset.t) (r : entry) :
  getitem_last (Dataset.val (push ds r)) = Ok (e_val r).
Proof. apply getitem_last_snoc. Qed.

Lemma last_name_push (ds : Dataset.t) (r : entry) :
  getitem_last (Dataset.name (push ds r)) = Ok (e_name r).
Proof. apply getitem_last_snoc. Qed.

Lemma read_key_vis_eq hdul idx hd he wl ar arr fl v2s r2 t3 vi vp :
  oifits.read_key hdul idx
    (Data.mk hd he wl (ar ++ [arr]) fl (push v2s r2) t3 vi vp) "vis"
  = ('(r, rp) ← vis_records hdul idx arr r2;
     Ok (Data.mk hd he wl (ar ++ [arr]) fl (push v2s r2) t3 (push vi r) (push vp rp))).
Proof.
  unfold oifits.read_key, vis_records. simpl String.eqb. cbv iota zeta.
  change ("oi_" ++ "vis")%string with "oi_vis".
  destruct (hdul_getitem hdul "oi_vis" idx) as [card|]; [| reflexivity].
  cbn [mbind result_bind]. unfold oifits.select_columns. simpl String.eqb. cbv iota.
  do 2 run_bind.
  unfold oifits.visphi_of, visphi_record.
  destruct (columns_names card) as [nms|]; [| reflexivity].
  cbn [mbind result_bind].
  destruct (bool_decide ("VISPHI" ∈ nms)).
  - rewrite (card_station_names_last hd he wl ar arr fl (push v2s r2) t3 vi vp card).
    do 3 run_bind. unfold record_of.
    rewrite setattr_visphi. cbn [mbind result_bind].
    unfold oifits.getattr. simpl String.eqb. cbv iota.
    cbn [mbind result_bind Data.vis Data.visphi].
    rewrite card_station_names_last.
    do 3 run_bind.
  - cbn [Data.vis2]. rewrite !last_val_push, last_name_push.
    cbn [mbind result_bind]. unfold record_of.
    rewrite setattr_visphi. cbn [mbind result_bind].
    unfold oifits.getattr. simpl String.eqb. cbv iota.
    cbn [mbind result_bind Data.vis Data.visphi].
    rewrite card_station_names_last.
    do 3 run_bind.
Qed.

Lemma read_file_eq fs hd he wl ar fl v2 t3 vi vp p :
  oifits.read_file fs (Data.mk hd he wl ar fl v2 t3 vi vp) p
  = (t ← open_records fs p;
     Ok (Data.mk (hd ++ [fp_hdul t]) (he ++ [fp_header t]) (wl ++ [fp_wl t])
           (ar ++ [fp_array t])
           (push fl (c_flux (fp_records t))) (push v2 (c_vis2 (fp_records t)))
           (push t3 (c_t3 (fp_records t))) (push vi (c_vis (fp_records t)))
           (push vp (c_visphi (fp_records t))))).
Proof.
  unfold oifits.read_file, open_records. destruct (fs p) as [hdul|]; [| reflexivity].
  unfold file_records.
  destruct (getitem hdul 0) as [primary|]; [| reflexivity]. cbn [mbind result_bind].
  rewrite getitem_last_snoc. cbn [mbind result_bind].
  do 3 run_bind.
  cbn [for_each]. rewrite read_key_array_eq.
  destruct (hdul_getitem hdul "oi_array" None) as [arr|]; [| reflexivity].
  cbn [mbind result_bind]. rewrite read_key_flux_eq.
  destruct (flux_record hdul a arr) as [rf|]; [| reflexivity].
  cbn [mbind result_bind]. rewrite read_key_vis2_eq.
  destruct (vis2_record hdul a arr) as [r2|]; [| reflexivity].
  cbn [mbind result_bind]. rewrite read_key_vis_eq.
  destruct (vis_records hdul a arr r2) as [[rv rp]|]; [| reflexivity].
  cbn [mbind result_bind]. rewrite read_key_t3_eq.
  destruct (t3_record hdul a arr) as [r3|]; reflexivity.
Qed.

Lemma assemble_snoc (ts : list file_part) (t : file_part) :
  Data.mk ((fp_hdul <$> ts) ++ [fp_hdul t]) ((fp_header <$> ts) ++ [fp_header t])
    ((fp_wl <$> ts) ++ [fp_wl t]) ((fp_array <$> ts) ++ [fp_array t])
    (push (dataset_of ((fun t => c_flux (fp_records t)) <$> ts)) (c_flux (fp_records t)))
    (push (dataset_of ((fun t => c_vis2 (fp_records t)) <$> ts)) (c_vis2 (fp_records t)))
    (push (dataset_of ((fun t => c_t3 (fp_records t)) <$> ts)) (c_t3 (fp_records t)))
    (push (dataset_of ((fun t => c_vis (fp_records t)) <$> ts)) (c_vis (fp_records t)))
    (push (dataset_of ((fun t => c_visphi (fp_records t)) <$> ts))
       (c_visphi (fp_records t)))
  = assemble (ts ++ [t]).
Proof.
  unfold assemble. rewrite !fmap_app. cbn [fmap list_fmap].
  rewrite !dataset_of_push. reflexivity.
Qed.

(** The loop of [read_data] from a state made of whole files. *)
Lemma read_loop_filewise (fs : string -> option HDUList) (l : list string) :
  forall ts0 : list file_part,
    for_each (oifits.read_file fs) l (assemble ts0)
    = (ts ← comprehension (open_records fs) l; Ok (assemble (ts0 ++ ts))).
Proof.
  induction l as [|p l IH]; intros ts0; cbn [for_each comprehension mbind result_bind].
  - now rewrite app_nil_r.
  - unfold assemble at 1. rewrite read_file_eq.
    destruct (open_records fs p) as [t|]; [| reflexivity].
    cbn [mbind result_bind].
    rewrite (assemble_snoc ts0 t), IH.
    destruct (comprehension (open_records fs) l) as [ts|]; [| reflexivity].
    cbn [mbind result_bind]. now rewrite <- app_assoc.
Qed.

(** X13: [read_data] works file by file: what a file adds to the Data is
    computed from that file alone, whatever was read before it, and the
    Data returned is made of the parts of the files in the order of the
    paths; the first file that cannot be opened or read gives the exception
    of the call. *)
Theorem read_data_is_filewise (fs : string -> option HDUList) (fits_files : oifits.paths) :
  oifits.read_data fs fits_files
  = (ts ← comprehension (open_records fs) (path_list fits_files); Ok (assemble ts)).
Proof.
  unfold oifits.read_data. fold (path_list fits_files).
  change Data.empty with (assemble []). apply read_loop_filewise.
Qed.

Lemma getitem_Ok {A : Type} (l : list A) (i : nat) (x : A) :
  getitem l i = Ok x <-> l !! i = Some x.
Proof.
  unfold getitem. rewrite nth_error_is_lookup. destruct (l !! i); split; congruence.
Qed.

Lemma read_data_parts fs fits_files d :
  oifits.read_data fs fits_files = Ok d ->
  exists ts, Forall2 (fun p t => open_records fs p = Ok t) (path_list fits_files) ts /\
             d = assemble ts.
Proof.
  unfold oifits.read_data. fold (path_list fits_files).
  change Data.empty with (assemble []). rewrite read_loop_filewise. intros H.
  bind_inv H. injection H as <-. exists a. split; [| reflexivity].
  now apply comprehension_Forall2.
Qed.

Lemma file_records_inv hdul t :
  file_records hdul = Ok t ->
  exists primary index wave,
    fp_hdul t = hdul /\ getitem hdul 0 = Ok primary /\ fp_header t = hdu_header primary /\
    oifits.table_index (hdu_header primary) = Ok index /\
    hdul_getitem hdul "oi_wavelength" index = Ok wave /\
    data_field wave "eff_wave" = Ok (fp_wl t) /\
    hdul_getitem hdul "oi_array" None = Ok (fp_array t) /\
    flux_record hdul index (fp_array t) = Ok (c_flux (fp_records t)) /\
    vis2_record hdul index (fp_array t) = Ok (c_vis2 (fp_records t)) /\
    vis_records hdul index (fp_array t) (c_vis2 (fp_records t))
    = Ok (c_vis (fp_records t), c_visphi (fp_records t)) /\
    t3_record hdul index (fp_array t) = Ok (c_t3 (fp_records t)).
Proof.
  unfold file_records. intros H. do 8 bind_inv H. destruct a6 as [rv rp].
  bind_inv H. injection H as <-. simpl.
  exists a, a0, a1. repeat match goal with |- _ /\ _ => split end; auto.
Qed.

Lemma comprehension_app {A B : Type} (f : A -> result B) (l1 l2 : list A) :
  comprehension f (l1 ++ l2)
  = (a ← comprehension f l1; b ← comprehension f l2; Ok (a ++ b)).
Proof.
  induction l1 as [|x l1 IH]; simpl.
  - destruct (comprehension f l2); reflexivity.
  - destruct (f x) as [y|]; [| reflexivity]. simpl. rewrite IH.
    destruct (comprehension f l1) as [a|]; [| reflexivity]. simpl.
    destruct (comprehension f l2); reflexivity.
Qed.

Lemma dataset_of_app (l1 l2 : list entry) :
  dataset_of (l1 ++ l2) = dataset_app (dataset_of l1) (dataset_of l2).
Proof. unfold dataset_of, dataset_app. simpl. now rewrite !fmap_app. Qed.

Lemma assemble_app (ts1 ts2 : list file_part) :
  assemble (ts1 ++ ts2) = data_app (assemble ts1) (assemble ts2).
Proof.
  unfold assemble, data_app. simpl. rewrite !fmap_app, !dataset_of_app. reflexivity.
Qed.

(** X14: Reading two sequences of files one after the other is reading each and
    putting the two Datas end to end, exceptions included: no file changes
    what another one adds. *)
Theorem read_data_of_two_sequences (fs : string -> option HDUList) (l1 l2 : list string) :
  oifits.read_data fs (oifits.Paths (l1 ++ l2))
  = (d1 ← oifits.read_data fs (oifits.Paths l1);
     d2 ← oifits.read_data fs (oifits.Paths l2);
     Ok (data_app d1 d2)).
Proof.
  unfold oifits.read_data. change Data.empty with (assemble []).
  rewrite !read_loop_filewise, comprehension_app. simpl.
  destruct (comprehension (open_records fs) l1) as [ts1|]; [| reflexivity]. simpl.
  destruct (comprehension (open_records fs) l2) as [ts2|]; [| reflexivity]. simpl.
  now rewrite assemble_app.
Qed.

(** X15: Index [i] of the four per-file lists belongs to the [i]-th path: the
    file found under it, the header of its first unit, the EFF_WAVE column
    of the wavelength table selected for its instrument, and its first
    OI_ARRAY unit. *)
Theorem read_data_entries_belong_to_their_file
  (fs : string -> option HDUList) (fits_files : oifits.paths) (d : Data.t)
  (i : nat) (p : string) :
  oifits.read_data fs fits_files = Ok d ->
  path_list fits_files !! i = Some p ->
  exists hdul primary index wave eff_wave arr,
    fs p = Some hdul /\ Data.hduls d !! i = Some hdul /\
    hdul !! 0 = Some primary /\ Data.header d !! i = Some (hdu_header primary) /\
    oifits.table_index (hdu_header primary) = Ok index /\
    hdul_getitem hdul "oi_wavelength" index = Ok wave /\
    data_field wave "eff_wave" = Ok eff_wave /\ Data.wl d !! i = Some eff_wave /\
    hdul_getitem hdul "oi_array" None = Ok arr /\ Data.array d !! i = Some arr.
Proof.
  intros H Hi. apply read_data_parts in H as (ts & Hts & ->).
  destruct (Forall2_lookup_l _ _ _ _ _ Hts Hi) as (t & Ht & Hopen).
  unfold open_records in Hopen. destruct (fs p) as [hdul|]; [| discriminate].
  apply file_records_inv in Hopen
    as (primary & index & wave & Hh & Hp & Hhe & Hidx & Hw & Hwl & Harr & _).
  exists hdul, primary, index, wave, (fp_wl t), (fp_array t).
  unfold assemble. cbn [Data.hduls Data.header Data.wl Data.array].
  rewrite !list_lookup_fmap, Ht. simpl. rewrite Hh, Hhe.
  repeat match goal with |- _ /\ _ => split end; auto.
  apply getitem_Ok in Hp. exact Hp.
Qed.

(* ===================================================================== *)
(** ** oifits.py: what the records of a file hold *)
(* ===================================================================== *)

Lemma dataset_of_lookup (l : list entry) (i : nat) (r : entry) :
  l !! i = Some r ->
  Dataset.header (dataset_of l) !! i = Some (e_header r) /\
  Dataset.val (dataset_of l) !! i = Some (e_val r) /\
  Dataset.err (dataset_of l) !! i = Some (e_err r) /\
  Dataset.x (dataset_of l) !! i = Some (e_x r) /\
  Dataset.y (dataset_of l) !! i = Some (e_y r) /\
  Dataset.name (dataset_of l) !! i = Some (e_name r).
Proof.
  intros H. unfold dataset_of. simpl. rewrite !list_lookup_fmap, H. simpl. auto 10.
Qed.

Lemma record_of_inv arr card vk ek xc yc r :
  record_of arr card vk ek xc yc = Ok r ->
  e_header r = hdu_header card /\
  oifits.masked_column card vk = Ok (e_val r) /\
  oifits.masked_column card ek = Ok (e_err r) /\
  station_names_of arr card = Ok (e_name r) /\ e_x r = xc /\ e_y r = yc.
Proof.
  unfold record_of. intros H. do 3 bind_inv H. injection H as <-. simpl. auto 10.
Qed.

Lemma flux_record_inv hdul index arr r :
  flux_record hdul index arr = Ok r ->
  exists card nms,
    hdul_getitem hdul "oi_flux" index = Ok card /\ columns_names card = Ok nms /\
    e_header r = hdu_header card /\
    oifits.masked_column card (if bool_decide ("FLUXDATA" ∈ nms) then "fluxdata" else "flux")
    = Ok (e_val r) /\
    oifits.masked_column card "fluxerr" = Ok (e_err r) /\
    e_x r = NoCoord /\ e_y r = NoCoord.
Proof.
  unfold flux_record. intros H. do 2 bind_inv H.
  apply record_of_inv in H as (? & ? & ? & _ & ? & ?). exists a, a0. auto 10.
Qed.

Lemma vis2_record_inv hdul index arr r :
  vis2_record hdul index arr = Ok r ->
  exists card, hdul_getitem hdul "oi_vis2" index = Ok card /\ e_header r = hdu_header card.
Proof.
  unfold vis2_record. intros H. do 3 bind_inv H.
  apply record_of_inv in H as (? & _). eauto.
Qed.

Lemma t3_record_inv hdul index arr r :
  t3_record hdul index arr = Ok r ->
  exists card, hdul_getitem hdul "oi_t3" index = Ok card /\ e_header r = hdu_header card.
Proof.
  unfold t3_record. intros H. do 9 bind_inv H.
  apply record_of_inv in H as (? & _). eauto.
Qed.

Lemma vis_records_inv hdul index arr r2 r rp :
  vis_records hdul index arr r2 = Ok (r, rp) ->
  exists card nms,
    hdul_getitem hdul "oi_vis" index = Ok card /\ columns_names card = Ok nms /\
    e_header r = hdu_header card /\ e_header rp = hdu_header card /\
    station_names_of arr card = Ok (e_name r) /\
    ("VISPHI" ∈ nms ->
       oifits.masked_column card "visphi" = Ok (e_val rp) /\
       oifits.masked_column card "visphierr" = Ok (e_err rp) /\
       e_name rp = e_name r).
Proof.
  unfold vis_records, visphi_record.
  destruct (hdul_getitem hdul "oi_vis" index) as [card|] eqn:Hcard; [| discriminate].
  cbn [mbind result_bind].
  destruct (data_field card "ucoord") as [u|]; [| discriminate]. cbn [mbind result_bind].
  destruct (data_field card "vcoord") as [v|]; [| discriminate]. cbn [mbind result_bind].
  destruct (columns_names card) as [nms|] eqn:Hnms; [| discriminate].
  cbn [mbind result_bind].
  intros H. bind_inv H. bind_inv H. injection H as <- <-.
  apply record_of_inv in E0 as (Hh & _ & _ & Hn & _).
  exists card, nms.
  repeat match goal with |- _ /\ _ => split end; try assumption; try reflexivity.
  - destruct (bool_decide ("VISPHI" ∈ nms)).
    + do 3 bind_inv E. now injection E as <-.
    + now injection E as <-.
  - intros Hin. rewrite (bool_decide_eq_true_2 _ Hin) in E.
    do 3 bind_inv E. injection E as <-. simpl.
    repeat split; try assumption. congruence.
Qed.

Lemma getitem_version (hdul : HDUList) (key : string) (v : Z) (card : HDU) :
  hdul_getitem hdul key (Some v) = Ok card -> card ∈ hdul /\ hdu_ver card = v.
Proof.
  intros H. apply hdul_getitem_first in H as (i & Hi & Hm & _). split.
  - eapply list_elem_of_lookup_2. exact Hi.
  - unfold unit_matches in Hm. apply andb_true_iff in Hm as [_ Hv].
    apply Z.eqb_eq in Hv. now symmetry.
Qed.

Lemma parts_lookup fs (l : list string) (ts : list file_part) (i : nat) (t : file_part) :
  Forall2 (fun p t => open_records fs p = Ok t) l ts -> ts !! i = Some t ->
  file_records (fp_hdul t) = Ok t.
Proof.
  intros Hts Ht. destruct (Forall2_lookup_r _ _ _ _ _ Hts Ht) as (p & _ & Hopen).
  unfold open_records in Hopen. destruct (fs p) as [hdul|]; [| discriminate].
  pose proof Hopen as Hinv. apply file_records_inv in Hinv as (_ & _ & _ & -> & _).
  exact Hopen.
Qed.

(** X16: For a file of an instrument whose name holds "grav" (in any case), the
    header of every record [read_data] builds is the header of a unit of
    that file with table version 20. *)
Theorem gravity_records_are_of_version_20
  (fs : string -> option HDUList) (fits_files : oifits.paths) (d : Data.t)
  (i : nat) (h : Header) (s : string) :
  oifits.read_data fs fits_files = Ok d ->
  Data.header d !! i = Some h ->
  header_getitem h "INSTRUME" = Ok (PStr s) ->
  contains "grav" (lower s) = true ->
  exists hdul,
    Data.hduls d !! i = Some hdul /\
    forall ds, ds ∈ [Data.flux d; Data.vis2 d; Data.t3 d; Data.vis d; Data.visphi d] ->
               exists card, card ∈ hdul /\ hdu_ver card = 20%Z /\
                            Dataset.header ds !! i = Some (hdu_header card).
Proof.
  intros H Hh Hins Hgrav. apply read_data_parts in H as (ts & Hts & ->).
  unfold assemble in Hh. cbn [Data.header] in Hh.
  rewrite list_lookup_fmap in Hh. destruct (ts !! i) as [t|] eqn:Ht; [| discriminate].
  injection Hh as <-.
  pose proof (parts_lookup _ _ _ _ _ Hts Ht) as Hrec.
  apply file_records_inv in Hrec
    as (primary & index & wave & _ & _ & Hhe & Hidx & _ & _ & _ & Hf & H2 & Hv & H3).
  rewrite <- Hhe in Hidx. unfold oifits.table_index in Hidx.
  rewrite Hins in Hidx. cbn [mbind result_bind] in Hidx. rewrite Hgrav in Hidx.
  injection Hidx as <-.
  exists (fp_hdul t). unfold assemble. cbn [Data.hduls Data.flux Data.vis2 Data.t3 Data.vis
                                           Data.visphi].
  split; [now rewrite list_lookup_fmap, Ht |].
  apply flux_record_inv in Hf as (cf & nf & Hcf & _ & Hhf & _).
  apply vis2_record_inv in H2 as (c2 & Hc2 & Hh2).
  apply t3_record_inv in H3 as (c3 & Hc3 & Hh3).
  apply vis_records_inv in Hv as (cv & nv & Hcv & _ & Hhv & Hhp & _).
  apply getitem_version in Hcf as [? ?], Hc2 as [? ?], Hc3 as [? ?], Hcv as [? ?].
  intros ds Hds.
  repeat (apply elem_of_cons in Hds as [-> | Hds]); [| | | | | inversion Hds].
  - exists cf. repeat split; try assumption. rewrite <- Hhf.
    apply dataset_of_lookup. now rewrite list_lookup_fmap, Ht.
  - exists c2. repeat split; try assumption. rewrite <- Hh2.
    apply dataset_of_lookup. now rewrite list_lookup_fmap, Ht.
  - exists c3. repeat split; try assumption. rewrite <- Hh3.
    apply dataset_of_lookup. now rewrite list_lookup_fmap, Ht.
  - exists cv. repeat split; try assumption. rewrite <- Hhv.
    apply dataset_of_lookup. now rewrite list_lookup_fmap, Ht.
  - exists cv. repeat split; try assumption. rewrite <- Hhp.
    apply dataset_of_lookup. now rewrite list_lookup_fmap, Ht.
Qed.

Lemma gravity_records_are_of_version_20_witness :
  exists d : Data.t,
    oifits.read_data GravitySamples.disk (oifits.Paths ["gravity.fits"]) = Ok d /\
    exists hdul,
      Data.hduls d !! 0 = Some hdul /\
      forall ds, ds ∈ [Data.flux d; Data.vis2 d; Data.t3 d; Data.vis d; Data.visphi d] ->
                 exists card, card ∈ hdul /\ hdu_ver card = 20%Z /\
                              Dataset.header ds !! 0 = Some (hdu_header card).
Proof.
  eexists. split; [vm_compute; reflexivity |].
  apply (gravity_records_are_of_version_20 GravitySamples.disk
           (oifits.Paths ["gravity.fits"]) _ 0
           (hdu_header (Samples.primary "GRAVITY" "2023-05-03T04:00")) "GRAVITY").
  - vm_compute. reflexivity.
  - reflexivity.
  - reflexivity.
  - reflexivity.
Defined.

Lemma read_data_entries_belong_to_their_file_witness :
  exists d : Data.t,
    oifits.read_data Samples.disk (oifits.Paths ["full.fits"; "bare.fits"]) = Ok d /\
    exists hdul primary index wave eff_wave arr,
      Samples.disk "bare.fits" = Some hdul /\ Data.hduls d !! 1 = Some hdul /\
      hdul !! 0 = Some primary /\ Data.header d !! 1 = Some (hdu_header primary) /\
      oifits.table_index (hdu_header primary) = Ok index /\
      hdul_getitem hdul "oi_wavelength" index = Ok wave /\
      data_field wave "eff_wave" = Ok eff_wave /\ Data.wl d !! 1 = Some eff_wave /\
      hdul_getitem hdul "oi_array" None = Ok arr /\ Data.array d !! 1 = Some arr.
Proof.
  eexists. split; [vm_compute; reflexivity |].
  apply (read_data_entries_belong_to_their_file Samples.disk
           (oifits.Paths ["full.fits"; "bare.fits"]) _ 1 "bare.fits").
  - vm_compute. reflexivity.
  - reflexivity.
Defined.

(** X17: A flux record carries no coordinates, and its value is the FLUXDATA
    column of the file's OI_FLUX table when the table has a column of exactly
    that name, the FLUX column otherwise, masked with the FLAG column. *)
Theorem flux_record_of_a_file
  (fs : string -> option HDUList) (fits_files : oifits.paths) (d : Data.t)
  (i : nat) (hdul : HDUList) :
  oifits.read_data fs fits_files = Ok d ->
  Data.hduls d !! i = Some hdul ->
  exists primary index card nms column flag v,
    hdul !! 0 = Some primary /\ oifits.table_index (hdu_header primary) = Ok index /\
    hdul_getitem hdul "oi_flux" index = Ok card /\ columns_names card = Ok nms /\
    data_field card (if bool_decide ("FLUXDATA" ∈ nms) then "fluxdata" else "flux")
    = Ok column /\
    data_field card "flag" = Ok flag /\
    masked_array column flag = Ok v /\
    Dataset.val (Data.flux d) !! i = Some v /\
    Dataset.x (Data.flux d) !! i = Some NoCoord /\
    Dataset.y (Data.flux d) !! i = Some NoCoord.
Proof.
  intros H Hh. apply read_data_parts in H as (ts & Hts & ->).
  unfold assemble in Hh. cbn [Data.hduls] in Hh.
  rewrite list_lookup_fmap in Hh. destruct (ts !! i) as [t|] eqn:Ht; [| discriminate].
  injection Hh as <-.
  pose proof (parts_lookup _ _ _ _ _ Hts Ht) as Hrec.
  apply file_records_inv in Hrec
    as (primary & index & wave & _ & Hp & _ & Hidx & _ & _ & _ & Hf & _).
  apply flux_record_inv in Hf as (card & nms & Hcard & Hnms & _ & Hval & _ & Hx & Hy).
  unfold oifits.masked_column in Hval. bind_inv Hval. bind_inv Hval.
  exists primary, index, card, nms, a, a0, (e_val (c_flux (fp_records t))).
  assert (Hl : ((fun t => c_flux (fp_records t)) <$> ts) !! i = Some (c_flux (fp_records t))).
  { now rewrite list_lookup_fmap, Ht. }
  apply dataset_of_lookup in Hl as (_ & Hv & _ & Hlx & Hly & _).
  rewrite Hx in Hlx. rewrite Hy in Hly. apply getitem_Ok in Hp.
  unfold assemble. cbn [Data.flux].
  repeat match goal with |- _ /\ _ => split end; assumption.
Qed.

Lemma flux_record_of_a_file_witness :
  exists d : Data.t,
    oifits.read_data Samples.disk (oifits.Paths ["full.fits"; "bare.fits"]) = Ok d /\
    exists primary index card nms column flag v,
      Samples.file_bare !! 0 = Some primary /\
      oifits.table_index (hdu_header primary) = Ok index /\
      hdul_getitem Samples.file_bare "oi_flux" index = Ok card /\
      columns_names card = Ok nms /\
      data_field card (if bool_decide ("FLUXDATA" ∈ nms) then "fluxdata" else "flux")
      = Ok column /\
      data_field card "flag" = Ok flag /\
      masked_array column flag = Ok v /\
      Dataset.val (Data.flux d) !! 1 = Some v /\
      Dataset.x (Data.flux d) !! 1 = Some NoCoord /\
      Dataset.y (Data.flux d) !! 1 = Some NoCoord.
Proof.
  eexists. split; [vm_compute; reflexivity |].
  apply (flux_record_of_a_file Samples.disk (oifits.Paths ["full.fits"; "bare.fits"]) _ 1
           Samples.file_bare).
  - vm_compute. reflexivity.
  - reflexivity.
Defined.

(** X18: When the visibility-amplitude table of a file has a VISPHI column, the
    visphi record holds the VISPHI and VISPHIERR columns of that table under
    its flags, and it has the header and the station names of the vis
    record of the same file. *)
Theorem visphi_read_from_the_table
  (fs : string -> option HDUList) (fits_files : oifits.paths) (d : Data.t)
  (i : nat) (hdul : HDUList) (card : HDU) (nms : list string) :
  oifits.read_data fs fits_files = Ok d ->
  Data.hduls d !! i = Some hdul ->
  vis_card hdul = Ok card ->
  columns_names card = Ok nms ->
  "VISPHI" ∈ nms ->
  exists (pv pe : MaskedArray) (nm : list string),
    oifits.masked_column card "visphi" = Ok pv /\
    oifits.masked_column card "visphierr" = Ok pe /\
    Dataset.val (Data.visphi d) !! i = Some pv /\
    Dataset.err (Data.visphi d) !! i = Some pe /\
    Dataset.name (Data.visphi d) !! i = Some nm /\
    Dataset.name (Data.vis d) !! i = Some nm /\
    Dataset.header (Data.visphi d) !! i = Some (hdu_header card) /\
    Dataset.header (Data.vis d) !! i = Some (hdu_header card).
Proof.
  intros H Hh Hcard Hnms Hin. apply read_data_parts in H as (ts & Hts & ->).
  unfold assemble in Hh. cbn [Data.hduls] in Hh.
  rewrite list_lookup_fmap in Hh. destruct (ts !! i) as [t|] eqn:Ht; [| discriminate].
  injection Hh as <-.
  pose proof (parts_lookup _ _ _ _ _ Hts Ht) as Hrec.
  apply file_records_inv in Hrec
    as (primary & index & wave & _ & Hp & _ & Hidx & _ & _ & _ & _ & _ & Hv & _).
  apply vis_records_inv in Hv as (card' & nms' & Hcard' & Hnms' & Hhv & Hhp & _ & Hphi).
  unfold vis_card in Hcard. rewrite Hp in Hcard. cbn [mbind result_bind] in Hcard.
  rewrite Hidx in Hcard. cbn [mbind result_bind] in Hcard.
  rewrite Hcard' in Hcard. injection Hcard as ->.
  rewrite Hnms in Hnms'. injection Hnms' as <-.
  destruct (Hphi Hin) as (Hpv & Hpe & Hname).
  assert (Hlv : ((fun t => c_vis (fp_records t)) <$> ts) !! i = Some (c_vis (fp_records t))).
  { now rewrite list_lookup_fmap, Ht. }
  assert (Hlp : ((fun t => c_visphi (fp_records t)) <$> ts) !! i
                = Some (c_visphi (fp_records t))).
  { now rewrite list_lookup_fmap, Ht. }
  apply dataset_of_lookup in Hlv as (Hvh & _ & _ & _ & _ & Hvn).
  apply dataset_of_lookup in Hlp as (Hph & Hpval & Hperr & _ & _ & Hpn).
  rewrite Hhv in Hvh. rewrite Hhp in Hph. rewrite Hname in Hpn.
  exists (e_val (c_visphi (fp_records t))), (e_err (c_visphi (fp_records t))),
         (e_name (c_vis (fp_records t))).
  unfold assemble. cbn [Data.vis Data.visphi].
  repeat match goal with |- _ /\ _ => split end; assumption.
Qed.

Lemma visphi_read_from_the_table_witness :
  exists d : Data.t,
    oifits.read_data Samples.disk (oifits.Paths ["full.fits"; "bare.fits"]) = Ok d /\
    exists (pv pe : MaskedArray) (nm : list string),
      oifits.masked_column Samples.oi_vis_full "visphi" = Ok pv /\
      oifits.masked_column Samples.oi_vis_full "visphierr" = Ok pe /\
      Dataset.val (Data.visphi d) !! 0 = Some pv /\
      Dataset.err (Data.visphi d) !! 0 = Some pe /\
      Dataset.name (Data.visphi d) !! 0 = Some nm /\
      Dataset.name (Data.vis d) !! 0 = Some nm /\
      Dataset.header (Data.visphi d) !! 0 = Some (hdu_header Samples.oi_vis_full) /\
      Dataset.header (Data.vis d) !! 0 = Some (hdu_header Samples.oi_vis_full).
Proof.
  eexists. split; [vm_compute; reflexivity |].
  apply (visphi_read_from_the_table Samples.disk
           (oifits.Paths ["full.fits"; "bare.fits"]) _ 0 Samples.file_full
           Samples.oi_vis_full
           ["VISAMP"; "VISAMPERR"; "VISPHI"; "VISPHIERR"; "UCOORD"; "VCOORD"; "STA_INDEX";
            "FLAG"]).
  - vm_compute. reflexivity.
  - reflexivity.
  - reflexivity.
  - reflexivity.
  - apply (bool_decide_unpack _). vm_compute. exact I.
Defined.

(* ===================================================================== *)
(** ** oifits.py: iterating a Dataset *)
(* ===================================================================== *)

Lemma getitem_Err {A : Type} (l : list A) (i : nat) (e : exn) :
  getitem l i = Err e -> e = IndexError.
Proof. unfold getitem. destruct (nth_error l i); [discriminate | congruence]. Qed.

Lemma item_at_Err (ds : Dataset.t) (i : nat) (e : exn) :
  Dataset.item_at ds i = Err e -> e = IndexError.
Proof.
  unfold Dataset.item_at. intros H.
  repeat match type of H with
         | (mbind _ ?m) = _ =>
             let E := fresh "E" in
             destruct m eqn:E; cbn [mbind result_bind] in H;
             [| injection H as <-; eapply getitem_Err; exact E]
         end.
  discriminate.
Qed.

Lemma iter_over_seq (ds : Dataset.t) (n : nat) :
  forall k : nat,
    (forall i it, (Dataset.iter_over ds (seq k n)).1 !! i = Some it ->
                  Dataset.item_at ds (k + i) = Ok it) /\
    match (Dataset.iter_over ds (seq k n)).2 with
    | Dataset.StopIteration => length (Dataset.iter_over ds (seq k n)).1 = n
    | Dataset.Raised e =>
        e = IndexError /\ length (Dataset.iter_over ds (seq k n)).1 < n /\
        Dataset.item_at ds (k + length (Dataset.iter_over ds (seq k n)).1) = Err IndexError
    end.
Proof.
  induction n as [|n IH]; intros k; simpl.
  - split; [intros i it Hi; now rewrite lookup_nil in Hi | reflexivity].
  - destruct (Dataset.item_at ds k) as [it0|e] eqn:Hk.
    + destruct (IH (S k)) as [Hitems Hend].
      destruct (Dataset.iter_over ds (seq (S k) n)) as [items e]. simpl in *. split.
      * intros [|i] it Hi; simpl in Hi.
        -- injection Hi as <-. now rewrite Nat.add_0_r.
        -- rewrite Nat.add_succ_r. now apply Hitems.
      * destruct e as [|e]; [now f_equal |].
        destruct Hend as (-> & Hlt & Hat). rewrite Nat.add_succ_r.
        repeat split; [lia | exact Hat].
    + simpl. split; [intros i it Hi; now rewrite lookup_nil in Hi |].
      pose proof (item_at_Err _ _ _ Hk) as ->. rewrite Nat.add_0_r.
      repeat split; [lia | exact Hk].
Qed.

(** X19: Iterating a Dataset yields, in order, the tuples of the entries at one
    index, one per header; it ends of itself after the last header, or with
    IndexError, and no other exception, at the first index at which one of
    the other five lists is too short. *)
Theorem iter_yields_in_order_or_raises_IndexError (ds : Dataset.t) :
  (forall i it, (Dataset.__iter__ ds).1 !! i = Some it -> Dataset.item_at ds i = Ok it) /\
  match (Dataset.__iter__ ds).2 with
  | Dataset.StopIteration =>
      length (Dataset.__iter__ ds).1 = length (Dataset.header ds)
  | Dataset.Raised e =>
      e = IndexError /\ length (Dataset.__iter__ ds).1 < length (Dataset.header ds) /\
      Dataset.item_at ds (length (Dataset.__iter__ ds).1) = Err IndexError
  end.
Proof. unfold Dataset.__iter__. apply (iter_over_seq ds (length (Dataset.header ds)) 0). Qed.

Lemma iter_over_dataset_of (l : list entry) :
  forall pre : list entry,
    Dataset.iter_over (dataset_of (pre ++ l)) (seq (length pre) (length l))
    = ((fun r => (e_header r, e_val r, e_err r, e_x r, e_y r, e_name r)) <$> l,
       Dataset.StopIteration).
Proof.
  induction l as [|r l IH]; intros pre; [reflexivity |].
  cbn [length seq Dataset.iter_over].
  assert (Hi : (pre ++ r :: l) !! length pre = Some r).
  { rewrite lookup_app_r, Nat.sub_diag by lia. reflexivity. }
  apply dataset_of_lookup in Hi as (Hh & Hv & He & Hx & Hy & Hn).
  unfold Dataset.item_at.
  rewrite (proj2 (getitem_Ok _ _ _) Hh), (proj2 (getitem_Ok _ _ _) Hv),
    (proj2 (getitem_Ok _ _ _) He), (proj2 (getitem_Ok _ _ _) Hx),
    (proj2 (getitem_Ok _ _ _) Hy), (proj2 (getitem_Ok _ _ _) Hn).
  cbn [mbind result_bind].
  specialize (IH (pre ++ [r])). rewrite <- app_assoc, length_app in IH.
  cbn [app length] in IH. rewrite Nat.add_1_r in IH. rewrite IH. reflexivity.
Qed.

(** X20: After [read_data], iterating any of the five Datasets raises nothing:
    it yields one tuple per file read and ends. *)
Theorem iterating_the_datasets_of_read_data
  (fs : string -> option HDUList) (fits_files : oifits.paths) (d : Data.t) :
  oifits.read_data fs fits_files = Ok d ->
  forall ds, ds ∈ [Data.flux d; Data.vis2 d; Data.t3 d; Data.vis d; Data.visphi d] ->
             (Dataset.__iter__ ds).2 = Dataset.StopIteration /\
             length (Dataset.__iter__ ds).1 = Data.__len__ d.
Proof.
  intros H. apply read_data_parts in H as (ts & _ & ->).
  assert (Hds : forall f : file_part -> entry,
             (Dataset.__iter__ (dataset_of (f <$> ts))).2 = Dataset.StopIteration /\
             length (Dataset.__iter__ (dataset_of (f <$> ts))).1
             = Data.__len__ (assemble ts)).
  { intros f. unfold Dataset.__iter__.
    replace (length (Dataset.header (dataset_of (f <$> ts)))) with (length (f <$> ts))
      by (unfold dataset_of; simpl; now rewrite !length_fmap).
    pose proof (iter_over_dataset_of (f <$> ts) []) as Hit.
    cbn [app length] in Hit. rewrite Hit. simpl.
    unfold Data.__len__, assemble. simpl. now rewrite !length_fmap. }
  intros ds Hin. unfold assemble in Hin.
  cbn [Data.flux Data.vis2 Data.t3 Data.vis Data.visphi] in Hin.
  repeat (apply elem_of_cons in Hin as [-> | Hin]); try apply Hds. inversion Hin.
Qed.

Lemma iterating_the_datasets_of_read_data_witness :
  exists d : Data.t,
    oifits.read_data Samples.disk (oifits.Paths ["full.fits"; "bare.fits"]) = Ok d /\
    forall ds, ds ∈ [Data.flux d; Data.vis2 d; Data.t3 d; Data.vis d; Data.visphi d] ->
               (Dataset.__iter__ ds).2 = Dataset.StopIteration /\
               length (Dataset.__iter__ ds).1 = Data.__len__ d.
Proof.
  eexists. split; [vm_compute; reflexivity |].
  apply (iterating_the_datasets_of_read_data Samples.disk
           (oifits.Paths ["full.fits"; "bare.fits"])).
  vm_compute. reflexivity.
Defined.

(* ===================================================================== *)
(** ** oifits.py: station names of known stations *)
(* ===================================================================== *)

Lemma int_items_row (zs : list Z) : oifits.int_items (int_row zs) = Ok zs.
Proof.
  unfold oifits.int_items, int_row. apply Forall2_comprehension.
  induction zs; constructor; auto.
Qed.

Lemma str_items_row (ss : list string) : oifits.str_items (str_row ss) = Ok ss.
Proof.
  unfold oifits.str_items, str_row. apply Forall2_comprehension.
  induction ss; constructor; auto.
Qed.

Lemma flat_int_row (zs : list Z) : flat (int_row zs) = SInt <$> zs.
Proof.
  unfold int_row. induction zs as [|z zs IH]; [reflexivity |].
  change (SInt z :: flat (Arr ((fun z => Item (SInt z)) <$> zs)) = SInt z :: (SInt <$> zs)).
  now rewrite IH.
Qed.

Lemma flat_int_rows (idx : list (list Z)) : flat (int_rows idx) = SInt <$> concat idx.
Proof.
  unfold int_rows. induction idx as [|row idx IH]; [reflexivity |].
  change (flat (int_row row) ++ flat (Arr (int_row <$> idx)) = SInt <$> (row ++ concat idx)).
  now rewrite fmap_app, IH, flat_int_row.
Qed.

Lemma resolved_row (m : gmap Z string) (zs : list Z) :
  Forall (fun z => is_Some (m !! z)) zs ->
  nd_map oifits.to_str (nd_map (oifits.sta_get m) (int_row zs))
  = str_row ((fun z => default "" (m !! z)) <$> zs).
Proof.
  unfold int_row, str_row. intros H. simpl. f_equal.
  induction H as [|z zs [s Hs] _ IH]; [reflexivity |].
  simpl. rewrite Hs. simpl. f_equal. exact IH.
Qed.

Lemma vectorize_resolved (m : gmap Z string) (a : ndarray) (z : Z) (rest : list scalar) :
  flat a = SInt z :: rest -> is_Some (m !! z) ->
  oifits.vectorize (oifits.sta_get m) a
  = Ok (nd_map oifits.to_str (nd_map (oifits.sta_get m) a)).
Proof.
  intros Hflat [s Hs]. unfold oifits.vectorize. rewrite Hflat. simpl. now rewrite Hs.
Qed.

Lemma join_row_strs (ss : list string) : oifits.join_row (str_row ss) = Ok (join "-" ss).
Proof.
  unfold oifits.join_row, str_row.
  replace (comprehension _ _) with (Ok (A := list string) ss); [reflexivity |].
  symmetry. apply Forall2_comprehension. induction ss; constructor; auto.
Qed.

(** X21: For pairs (or triples) of station indices that all stand in the array
    table, [get_station_names] gives, row by row, the names of the stations
    of the row joined by "-", in the order of the row. *)
Theorem station_names_join_the_names_of_a_row
  (idx : list (list Z)) (keys : list Z) (values : list string) :
  concat idx <> [] ->
  Forall (Forall (fun z => is_Some (oifits.dict_zip keys values !! z))) idx ->
  oifits.get_station_names (int_rows idx) (int_row keys) (str_row values)
  = Ok ((fun row =>
           join "-" ((fun z => default "" (oifits.dict_zip keys values !! z)) <$> row))
          <$> idx).
Proof.
  intros Hne Hall. unfold oifits.get_station_names.
  rewrite int_items_row, str_items_row. cbn [mbind result_bind].
  set (m := oifits.dict_zip keys values) in *.
  pose proof (flat_int_rows idx) as Hflat.
  destruct (concat idx) as [|z rest] eqn:Hc; [contradiction |].
  cbn [fmap list_fmap] in Hflat.
  assert (Hz : is_Some (m !! z)).
  { apply Forall_concat in Hall. rewrite Hc in Hall. now apply Forall_cons in Hall. }
  rewrite (vectorize_resolved m _ z (SInt <$> rest) Hflat Hz). cbn [mbind result_bind].
  unfold int_rows. cbn [nd_map]. rewrite !map_map.
  apply Forall2_comprehension. apply Forall2_fmap.
  clear Hflat Hc Hne. induction Hall as [|row idx Hrow _ IH]; constructor; [| exact IH].
  rewrite (resolved_row m row Hrow). apply join_row_strs.
Qed.

Lemma station_names_join_the_names_of_a_row_witness :
  oifits.get_station_names (int_rows [[1; 2]; [2; 3]; [1; 3]]%Z) (int_row [1; 2; 3]%Z)
    (str_row ["A0"; "B2"; "C1"])
  = Ok ["A0-B2"; "B2-C1"; "A0-C1"].
Proof.
  apply (station_names_join_the_names_of_a_row [[1; 2]; [2; 3]; [1; 3]]%Z [1; 2; 3]%Z
           ["A0"; "B2"; "C1"]).
  - discriminate.
  - repeat constructor; vm_compute; eexists; reflexivity.
Defined.

(** X22: For a column of single station indices (the STA_INDEX of a flux table),
    each row is one name, and "-".join runs over its characters: the station
    "A0" is labelled "A-0". *)
Theorem station_names_of_single_stations_split_the_name
  (zs keys : list Z) (values : list string) :
  zs <> [] ->
  Forall (fun z => is_Some (oifits.dict_zip keys values !! z)) zs ->
  oifits.get_station_names (int_row zs) (int_row keys) (str_row values)
  = Ok ((fun z => join_chars "-" (default "" (oifits.dict_zip keys values !! z))) <$> zs).
Proof.
  intros Hne Hall. unfold oifits.get_station_names.
  rewrite int_items_row, str_items_row. cbn [mbind result_bind].
  set (m := oifits.dict_zip keys values) in *.
  destruct zs as [|z rest] eqn:Hzs; [contradiction |]. rewrite <- Hzs in *.
  assert (Hflat : flat (int_row zs) = SInt z :: (SInt <$> rest)).
  { rewrite flat_int_row, Hzs. reflexivity. }
  assert (Hz : is_Some (m !! z)).
  { rewrite Hzs in Hall. now apply Forall_cons in Hall. }
  rewrite (vectorize_resolved m _ z _ Hflat Hz). cbn [mbind result_bind].
  rewrite (resolved_row m zs Hall). unfold str_row.
  apply Forall2_comprehension. rewrite <- list_fmap_compose. apply Forall2_fmap.
  clear. induction zs; constructor; auto.
Qed.

Lemma station_names_of_single_stations_witness :
  oifits.get_station_names (int_row [1; 2]%Z) (int_row [1; 2; 3]%Z)
    (str_row ["A0"; "B2"; "C1"])
  = Ok ["A-0"; "B-2"].
Proof.
  apply (station_names_of_single_stations_split_the_name [1; 2]%Z [1; 2; 3]%Z
           ["A0"; "B2"; "C1"]).
  - discriminate.
  - repeat constructor; vm_compute; eexists; reflexivity.
Defined.

(* ===================================================================== *)
(** ** pionier.py: delete_add_ins *)
(* ===================================================================== *)

Lemma index_of_from_Err (key : string) (ver : option Z) :
  forall (hdul : HDUList) (k : nat) (e : exn),
    index_of_from k hdul key ver = Err e -> e = KeyError.
Proof.
  induction hdul as [|hdu rest IH]; intros k e; simpl.
  - congruence.
  - destruct (_ && _); [discriminate | apply IH].
Qed.

Lemma index_of_from_named (key : string) :
  String.eqb (upper (strip key)) "PRIMARY" = false ->
  forall (hdul : HDUList) (k : nat),
    match index_of_from k hdul key None with
    | Ok n => exists i hdu, n = k + i /\ hdul !! i = Some hdu /\ named key hdu = true /\
                            existsb (named key) hdul = true
    | Err _ => existsb (named key) hdul = false
    end.
Proof.
  intros Hkey. induction hdul as [|hdu rest IH]; intros k; simpl; [reflexivity |].
  rewrite Hkey, andb_false_l, orb_false_r, andb_true_r. fold (named key hdu).
  destruct (named key hdu) eqn:Hn; simpl.
  - exists 0, hdu. rewrite Nat.add_0_r. auto.
  - specialize (IH (S k)). destruct (index_of_from (S k) rest key None) as [n|e].
    + destruct IH as (i & h & -> & Hi & Hh & Hex). exists (S i), h.
      rewrite Nat.add_succ_r. auto.
    + exact IH.
Qed.

Lemma contains_named (key : string) (hdul : HDUList) :
  String.eqb (upper (strip key)) "PRIMARY" = false ->
  hdul_contains hdul key = existsb (named key) hdul.
Proof.
  intros Hkey. unfold hdul_contains, index_of.
  pose proof (index_of_from_named key Hkey hdul 0) as H.
  destruct (index_of_from 0 hdul key None).
  - destruct H as (_ & _ & _ & _ & _ & ->). reflexivity.
  - now rewrite H.
Qed.

Lemma existsb_delete (p : HDU -> bool) (hdul : HDUList) (i : nat) (x : HDU) :
  hdul !! i = Some x -> p x = false -> existsb p (delete i hdul) = existsb p hdul.
Proof.
  revert i. induction hdul as [|y l IH]; intros [|i] Hi Hx; simpl in *; try discriminate.
  - injection Hi as ->. now rewrite Hx.
  - f_equal. now apply IH.
Qed.

Lemma filter_delete (p : HDU -> bool) (hdul : HDUList) (i : nat) (x : HDU) :
  hdul !! i = Some x -> p x = false ->
  List.filter p (delete i hdul) = List.filter p hdul.
Proof.
  revert i. induction hdul as [|y l IH]; intros [|i] Hi Hx; simpl in *; try discriminate.
  - injection Hi as ->. now rewrite Hx.
  - destruct (p y); [f_equal |]; now apply IH.
Qed.

Lemma length_delete_at (hdul : HDUList) (i : nat) (x : HDU) :
  hdul !! i = Some x -> S (length (delete i hdul)) = length hdul.
Proof.
  revert i. induction hdul as [|y l IH]; intros [|i] Hi; simpl in *; try discriminate.
  - reflexivity.
  - f_equal. now apply IH.
Qed.

(** What [del hdul[key]] does for a table name: with a unit of that name
    in the list, one such unit goes; without, KeyError. *)
Lemma hdul_delitem_named (key : string) (hdul : HDUList) :
  String.eqb (upper (strip key)) "PRIMARY" = false ->
  match pionier.hdul_delitem hdul key with
  | Ok hdul' =>
      hdul_contains hdul key = true /\
      exists i hdu, hdul !! i = Some hdu /\ named key hdu = true /\ hdul' = delete i hdul
  | Err e => hdul_contains hdul key = false /\ e = KeyError
  end.
Proof.
  intros Hkey. unfold pionier.hdul_delitem, hdul_contains, index_of.
  pose proof (index_of_from_named key Hkey hdul 0) as H.
  destruct (index_of_from 0 hdul key None) as [n|e] eqn:Hn; simpl.
  - destruct H as (i & hdu & -> & Hi & Hh & _). split; [reflexivity |].
    exists i, hdu. auto.
  - split; [reflexivity |]. eapply index_of_from_Err. exact Hn.
Qed.

Lemma named_apart (hdu : HDU) : named "oi_vis" hdu = true -> named "oi_flux" hdu = false.
Proof.
  unfold named. intros H. apply String.eqb_eq in H. rewrite H. reflexivity.
Qed.

(** X23: [delete_add_ins] raises OSError for a file that cannot be opened and
    KeyError when exactly one of the two tables is in the file; with both
    tables, or with neither, it raises nothing. *)
Theorem delete_add_ins_raises_when_one_table_is_missing
  (fs : string -> option HDUList) (file : string) :
  (pionier.delete_add_ins fs file).2
  = match fs file with
    | None => Some OSError
    | Some hdul =>
        if xorb (hdul_contains hdul "oi_vis") (hdul_contains hdul "oi_flux")
        then Some KeyError else None
    end.
Proof.
  unfold pionier.delete_add_ins. destruct (fs file) as [hdul|]; [| reflexivity].
  unfold pionier.delete_units.
  pose proof (hdul_delitem_named "oi_vis" hdul eq_refl) as Hv.
  destruct (pionier.hdul_delitem hdul "oi_vis") as [hdul1|e].
  - destruct Hv as (-> & i & hdu & Hi & Hn & ->). simpl.
    pose proof (hdul_delitem_named "oi_flux" (delete i hdul) eq_refl) as Hf.
    rewrite (contains_named "oi_flux" (delete i hdul) eq_refl) in Hf.
    rewrite (existsb_delete _ _ _ _ Hi (named_apart _ Hn)) in Hf.
    rewrite <- (contains_named "oi_flux" hdul eq_refl) in Hf.
    destruct (pionier.hdul_delitem (delete i hdul) "oi_flux") as [hdul2|e].
    + destruct Hf as (-> & _). reflexivity.
    + destruct Hf as (-> & ->). reflexivity.
  - destruct Hv as (-> & ->). simpl.
    destruct (hdul_contains hdul "oi_flux"); reflexivity.
Qed.

(** X24: Whatever [delete_add_ins] does to a file, the units that are neither
    OI_VIS nor OI_FLUX tables stay, in their order; one unit goes when only
    OI_VIS is there (the KeyError comes after it is deleted), two when both
    tables are there, none otherwise. *)
Theorem delete_add_ins_keeps_the_other_units
  (fs : string -> option HDUList) (file : string) (hdul : HDUList) :
  fs file = Some hdul ->
  exists hdul',
    (pionier.delete_add_ins fs file).1 = Some hdul' /\
    List.filter other_unit hdul' = List.filter other_unit hdul /\
    length hdul' + (if hdul_contains hdul "oi_vis"
                    then (if hdul_contains hdul "oi_flux" then 2 else 1) else 0)
    = length hdul.
Proof.
  intros Hfs. unfold pionier.delete_add_ins. rewrite Hfs.
  destruct (pionier.delete_units hdul) as [hdul' e] eqn:Hrun. exists hdul'.
  split; [reflexivity |]. unfold pionier.delete_units in Hrun.
  pose proof (hdul_delitem_named "oi_vis" hdul eq_refl) as Hv.
  destruct (pionier.hdul_delitem hdul "oi_vis") as [hdul1|e1].
  - destruct Hv as (Hcv & i & hdu & Hi & Hn & ->). rewrite Hcv in *. simpl in Hrun.
    assert (Ho : other_unit hdu = false) by (unfold other_unit; now rewrite Hn).
    pose proof (hdul_delitem_named "oi_flux" (delete i hdul) eq_refl) as Hf.
    rewrite (contains_named "oi_flux" (delete i hdul) eq_refl) in Hf.
    rewrite (existsb_delete _ _ _ _ Hi (named_apart _ Hn)) in Hf.
    rewrite <- (contains_named "oi_flux" hdul eq_refl) in Hf.
    pose proof (length_delete_at _ _ _ Hi) as Hlen.
    destruct (pionier.hdul_delitem (delete i hdul) "oi_flux") as [hdul2|e2].
    + destruct Hf as (-> & j & hdu' & Hj & Hn' & ->). injection Hrun as <- _.
      assert (Ho' : other_unit hdu' = false).
      { unfold other_unit. rewrite Hn'. now rewrite orb_true_r. }
      rewrite (filter_delete _ _ _ _ Hj Ho'), (filter_delete _ _ _ _ Hi Ho).
      pose proof (length_delete_at _ _ _ Hj) as Hlen'. split; [reflexivity | lia].
    + destruct Hf as (-> & _). injection Hrun as <- _.
      rewrite (filter_delete _ _ _ _ Hi Ho). split; [reflexivity | lia].
  - destruct Hv as (Hcv & _). rewrite Hcv in *. simpl in Hrun.
    destruct (hdul_contains hdul "oi_flux"); simpl in Hrun; injection Hrun as <- _;
      (split; [reflexivity | lia]).
Qed.

Lemma delete_add_ins_keeps_the_other_units_witness :
  exists hdul',
    (pionier.delete_add_ins Samples.disk "full.fits").1 = Some hdul' /\
    List.filter other_unit hdul' = List.filter other_unit Samples.file_full /\
    length hdul' + 2 = length Samples.file_full.
Proof.
  apply (delete_add_ins_keeps_the_other_units Samples.disk "full.fits" Samples.file_full).
  reflexivity.
Defined.
